(** * halfORM: field constraints and relation terminal operations

    A shallow embedding of the query engine of halfORM:

    - [halfORM_field]: the [Field] class of [halfORM/field.py]
      ([__set__], [_praf], [where_repr]);
    - [half_orm_relation]: the [Relation] methods of [half_orm/relation.py]
      ([_ho_insert], [_ho_select], [_ho_get], [_ho_update], [_ho_delete],
      [_ho_is_set], [_ho_limit], [__len__], [_ho_is_empty], [__set__op__] and
      the operators built on it, [__next__], [__walk_op], [__where_args] and
      the removal of duplicates of [__get_query]) and
      [relation_errors.ExpectedOneError].

    Python objects live in explicit stores and are named by their index
    there; methods are computations in a state-and-exception monad over the
    store, so that mutation through an alias is visible. *)

From stdpp Require Import base option list gmap strings pretty.
From Stdlib Require Import ZArith Lia Ascii.

Open Scope string_scope.
Open Scope Z_scope.

(** ** Python values *)

Module Py.

(** The values that reach the modelled methods. [PyNULL] is the singleton
    [NULL] of the [null] module; [PyField f] is a reference to the [Field]
    object stored at index [f]. *)
#[local] Unset Elimination Schemes.
Inductive PyVal : Type :=
| PyNone
| PyNULL
| PyBool (b : bool)
| PyInt (z : Z)
| PyStr (s : string)
| PyList (l : list PyVal)
| PyTuple (l : list PyVal)
| PyField (f : nat).
#[local] Set Elimination Schemes.

Section PyVal_induction.
Variable P : PyVal -> Prop.
Hypothesis HNone : P PyNone.
Hypothesis HNULL : P PyNULL.
Hypothesis HBool : forall b, P (PyBool b).
Hypothesis HInt : forall z, P (PyInt z).
Hypothesis HStr : forall s, P (PyStr s).
Hypothesis HList : forall l, Forall P l -> P (PyList l).
Hypothesis HTuple : forall l, Forall P l -> P (PyTuple l).
Hypothesis HField : forall f, P (PyField f).

Fixpoint PyVal_nested_ind (v : PyVal) : P v :=
  let fix all (l : list PyVal) : Forall P l :=
    match l with
    | [] => @List.Forall_nil _ P
    | x :: l' => @List.Forall_cons _ P x l' (PyVal_nested_ind x) (all l')
    end in
  match v with
  | PyNone => HNone
  | PyNULL => HNULL
  | PyBool b => HBool b
  | PyInt z => HInt z
  | PyStr s => HStr s
  | PyList l => HList l (all l)
  | PyTuple l => HTuple l (all l)
  | PyField f => HField f
  end.
End PyVal_induction.

Fixpoint PyVal_eqb (a b : PyVal) : bool :=
  let fix all2 (l1 l2 : list PyVal) : bool :=
    match l1, l2 with
    | [], [] => true
    | x :: l1', y :: l2' => PyVal_eqb x y && all2 l1' l2'
    | _, _ => false
    end in
  match a, b with
  | PyNone, PyNone => true
  | PyNULL, PyNULL => true
  | PyBool x, PyBool y => Bool.eqb x y
  | PyInt x, PyInt y => Z.eqb x y
  | PyStr x, PyStr y => String.eqb x y
  | PyList x, PyList y => all2 x y
  | PyTuple x, PyTuple y => all2 x y
  | PyField x, PyField y => Nat.eqb x y
  | _, _ => false
  end.

(** [value is None], [value is NULL], [isinstance(value, Field)],
    [isinstance(value, (list, tuple))]. *)
Definition is_None (v : PyVal) : bool :=
  match v with PyNone => true | _ => false end.

Definition is_NULL (v : PyVal) : bool :=
  match v with PyNULL => true | _ => false end.

Definition isinstance_Field (v : PyVal) : bool :=
  match v with PyField _ => true | _ => false end.

Definition isinstance_list_tuple (v : PyVal) : bool :=
  match v with PyList _ | PyTuple _ => true | _ => false end.

(** [v == s] for a string literal [s]: only a [str] with the same characters
    compares equal to it. *)
Definition eq_str (v : PyVal) (s : string) : bool :=
  match v with PyStr x => String.eqb x s | _ => false end.

(** [v == n] for an integer literal [n]; Python's [bool] is a subtype of
    [int], so [True == 1]. *)
Definition eq_int (v : PyVal) (n : Z) : bool :=
  match v with
  | PyInt z => Z.eqb z n
  | PyBool b => Z.eqb (if b then 1 else 0) n
  | _ => false
  end.

(** Truth value of an object in a condition ([if x:]). Objects of classes
    that define neither [__bool__] nor [__len__] are true; [NULL] and the
    fields are taken to be such objects. *)
Definition truthy (v : PyVal) : bool :=
  match v with
  | PyNone => false
  | PyNULL => true
  | PyBool b => b
  | PyInt z => negb (Z.eqb z 0)
  | PyStr s => negb (String.eqb s EmptyString)
  | PyList l | PyTuple l => match l with [] => false | _ => true end
  | PyField _ => true
  end.

(** The double quote character, and [str(n)] for an [int]. *)
Definition dquote : string := String (Ascii.ascii_of_nat 34) EmptyString.

Definition str_int (z : Z) : string := pretty z.

End Py.

(** ** Exceptions and the store monad *)

Module Eff.

(** Errors the database driver reports ([psycopg2]). *)
Inductive PgErr : Type :=
| OperationalError
| InterfaceError
| DatabaseError (msg : string).

(** Exceptions, by their Python class. [Dangling] is the use of a store
    index that holds no object; no Python reference is ever in that state. *)
Inductive Exc : Type :=
| AssertionError
| AttributeError (msg : string)
| IndexError
| KeyError (key : string)
| TypeError
| ValueError (msg : string)
| StopIteration
| RuntimeError (msg : string)
| RecursionError
| UnknownAttributeError (names : list string)
| WrongFkeyError (fkey_name : string)
| ExpectedOneError (relation : nat) (count : Z)
| Psycopg2Error (e : PgErr)
| Dangling.

(** A computation over a store [S]: the store it leaves, and either the
    exception it raised or its result. Whatever was written before an
    exception stays written. *)
Definition M (S A : Type) : Type := S -> S * (Exc + A).

Definition ret {S A} (a : A) : M S A := fun s => (s, inr a).

Definition bind {S A B} (m : M S A) (k : A -> M S B) : M S B :=
  fun s => match m s with
           | (s', inl e) => (s', inl e)
           | (s', inr a) => k a s'
           end.

Definition raise {S A} (e : Exc) : M S A := fun s => (s, inl e).

Definition get {S} : M S S := fun s => (s, inr s).

Definition modify {S} (f : S -> S) : M S unit := fun s => (f s, inr tt).

(** [assert cond]. *)
Definition assert_ {S} (cond : bool) : M S unit :=
  if cond then ret tt else raise AssertionError.

(** Reading an object that must be there. *)
Definition deref {S A} (o : option A) : M S A :=
  match o with Some a => ret a | None => raise Dangling end.

#[global] Instance M_ret {S} : MRet (M S) := @ret S.
#[global] Instance M_bind {S} : MBind (M S) := fun A B k m => bind m k.

(** [for x in l: body x]. *)
Fixpoint for_ {S A} (l : list A) (body : A -> M S unit) : M S unit :=
  match l with
  | [] => ret tt
  | x :: l' => bind (body x) (fun _ => for_ l' body)
  end.

End Eff.

(** ** [halfORM/field.py] *)

Module halfORM_field.
Import Py Eff.

(** The [metadata] dictionary of a column. *)
Record Metadata : Type := {
  fieldtype : string;
  pkey : bool;
  uniq : bool;
  notnull : bool
}.

(** A [Field] object: its private attributes, and those it inherits from
    [FKeyInterface] ([name], [_is_set], and [from_], [to_], [fields],
    [fk_names], where [None] also stands for an attribute not assigned yet).
    A relation is named by a number. *)
Record Field : Type := {
  name : string;
  metadata : Metadata;
  relation : option nat;
  value : PyVal;
  unaccent : bool;
  comp : PyVal;
  _is_set : bool;
  from_ : option nat;
  to_ : option nat;
  fields : list string;
  fk_names : list string
}.

(** [Field.__init__(name, metadata)]; [FKeyInterface.__init__] is not in the
    sources: it is taken to record the name and to start unset. *)
Definition __init__ (name : string) (metadata : Metadata) : Field :=
  {| name := name; metadata := metadata; relation := None; value := PyNone;
     unaccent := false; comp := PyStr "="; _is_set := false;
     from_ := None; to_ := None; fields := []; fk_names := [] |}.

(** The store: the [Field] objects, and for each relation its [_joined_to]
    list of [(relation, field)] pairs. *)
Record Store : Type := {
  objects : list Field;
  _joined_to : gmap nat (list (option nat * nat))
}.

Definition the_field (self : nat) : M Store Field :=
  s ← get; deref (objects s !! self).

Definition update_field (self : nat) (f : Field -> Field) : M Store unit :=
  o ← the_field self;
  modify (fun s => {| objects := <[self := f o]> (objects s);
                      _joined_to := _joined_to s |}).

Definition set_relation (r : option nat) (f : Field) : Field :=
  {| name := name f; metadata := metadata f; relation := r; value := value f;
     unaccent := unaccent f; comp := comp f; _is_set := _is_set f;
     from_ := from_ f; to_ := to_ f; fields := fields f;
     fk_names := fk_names f |}.

Definition set_value (v : PyVal) (f : Field) : Field :=
  {| name := name f; metadata := metadata f; relation := relation f;
     value := v; unaccent := unaccent f; comp := comp f;
     _is_set := _is_set f; from_ := from_ f; to_ := to_ f;
     fields := fields f; fk_names := fk_names f |}.

Definition set_comp (c : PyVal) (f : Field) : Field :=
  {| name := name f; metadata := metadata f; relation := relation f;
     value := value f; unaccent := unaccent f; comp := c;
     _is_set := _is_set f; from_ := from_ f; to_ := to_ f;
     fields := fields f; fk_names := fk_names f |}.

Definition set__is_set (b : bool) (f : Field) : Field :=
  {| name := name f; metadata := metadata f; relation := relation f;
     value := value f; unaccent := unaccent f; comp := comp f;
     _is_set := b; from_ := from_ f; to_ := to_ f;
     fields := fields f; fk_names := fk_names f |}.

Definition set_from_ (r : option nat) (f : Field) : Field :=
  {| name := name f; metadata := metadata f; relation := relation f;
     value := value f; unaccent := unaccent f; comp := comp f;
     _is_set := _is_set f; from_ := r; to_ := to_ f;
     fields := fields f; fk_names := fk_names f |}.

Definition set_to_ (r : option nat) (f : Field) : Field :=
  {| name := name f; metadata := metadata f; relation := relation f;
     value := value f; unaccent := unaccent f; comp := comp f;
     _is_set := _is_set f; from_ := from_ f; to_ := r;
     fields := fields f; fk_names := fk_names f |}.

Definition set_fields (l : list string) (f : Field) : Field :=
  {| name := name f; metadata := metadata f; relation := relation f;
     value := value f; unaccent := unaccent f; comp := comp f;
     _is_set := _is_set f; from_ := from_ f; to_ := to_ f;
     fields := l; fk_names := fk_names f |}.

Definition set_fk_names (l : list string) (f : Field) : Field :=
  {| name := name f; metadata := metadata f; relation := relation f;
     value := value f; unaccent := unaccent f; comp := comp f;
     _is_set := _is_set f; from_ := from_ f; to_ := to_ f;
     fields := fields f; fk_names := l |}.

Definition set_unaccent (b : bool) (f : Field) : Field :=
  {| name := name f; metadata := metadata f; relation := relation f;
     value := value f; unaccent := b; comp := comp f;
     _is_set := _is_set f; from_ := from_ f; to_ := to_ f;
     fields := fields f; fk_names := fk_names f |}.

(** [rel._joined_to.insert(0, pair)]. *)
Definition joined_to_insert0 (rel : nat) (pair : option nat * nat)
  : M Store unit :=
  modify (fun s =>
    {| objects := objects s;
       _joined_to := <[rel := pair :: default [] (_joined_to s !! rel)]>
                       (_joined_to s) |}).

(** The tuple branch of [__set__]:
    [assert len(value) == 2; value, comp = value]. *)
Definition unpack (value : PyVal) : M Store (PyVal * PyVal) :=
  match value with
  | PyTuple [v; c] => ret (v, c)
  | PyTuple _ => raise AssertionError
  | _ => ret (value, PyNone)
  end.

(** The [is_field] branch of [__set__]: [value] is the field [other], which
    is turned into the link between the two relations. *)
Definition link (self other : nat) : M Store unit :=
  o ← the_field other;
  update_field other (set_from_ (relation o));;
  me ← the_field self;
  update_field other (set_to_ (relation me));;
  match relation me with
  | None => raise (AttributeError "'NoneType' object has no attribute '_joined_to'")
  | Some rel => joined_to_insert0 rel (relation o, other)
  end;;
  o ← the_field other;
  update_field other (set_fields [name o]);;
  me ← the_field self;
  update_field other (set_fk_names [name me]).

(** [Field.__set__(self, obj, value)]. *)
Definition __set__ (self : nat) (obj : option nat) (value : PyVal)
  : M Store unit :=
  if is_None value then
    (* None is not a value use Null class to set to Null *)
    ret tt
  else
    update_field self (set_relation obj);;
    let is_field := isinstance_Field value in
    '(value, comp) ← unpack value;
    let comp := if is_NULL value && is_None comp then PyStr "is" else comp in
    comp ← (if is_NULL value then
              assert_ (eq_str comp "is" || eq_str comp "is not");; ret comp
            else if is_None comp then
              if negb is_field then ret (PyStr "=")
              else
                match value with
                | PyField other => link self other;; ret (PyStr "in")
                | _ => ret comp (* not reached: [is_field] holds *)
                end
            else ret comp);
    (if negb is_field then update_field self (set__is_set true)
     else ret tt);;
    update_field self (set_value value);;
    update_field self (set_comp comp).

(** [Field._set_value(self, value)]. *)
Definition _set_value (self : nat) (value : PyVal) : M Store unit :=
  me ← the_field self; __set__ self (relation me) value.

(** The [unaccent] property setter: [assert isinstance(value, bool)]. *)
Definition __set_unaccent (self : nat) (value : PyVal) : M Store unit :=
  match value with
  | PyBool b => update_field self (set_unaccent b)
  | _ => raise AssertionError
  end.

(** [Field.type_]. *)
Definition type_ (f : Field) : string := fieldtype (metadata f).

(** [Field._praf(self, query, id_)]. *)
Definition _praf (f : Field) (query : string) (id_ : Z) : string :=
  let id_ := "r" +:+ str_int id_ in
  if String.eqb query "select" then id_ +:+ "." +:+ name f
  else dquote +:+ name f +:+ dquote.

Section Rendering.

(** [str(v)] as [str.format] inserts it. The text of a sequence, of a
    [Field] and of [NULL] is fixed outside [field.py] and is left to
    [str_other]. *)
Variable str_other : PyVal -> string.

Definition str_ (v : PyVal) : string :=
  match v with
  | PyStr s => s
  | PyNone => "None"
  | PyBool true => "True"
  | PyBool false => "False"
  | PyInt z => str_int z
  | _ => str_other v
  end.

(** [Field.where_repr(self, query, id_)]; [self.type_[0]] raises
    [IndexError] on an empty type name. *)
Definition where_repr (f : Field) (query : string) (id_ : Z)
  : Exc + string :=
  let comp_str :=
    if isinstance_list_tuple (value f) then
      match type_ f with
      | EmptyString => inl IndexError
      | String c _ =>
          if negb (Ascii.eqb c "_"%char) (* not an array type *)
          then inr "any(%s)" else inr "%s"
      end
    else inr "%s" in
  match comp_str with
  | inl e => inl e
  | inr comp_str =>
      if negb (unaccent f) then
        inr (_praf f query id_ +:+ " " +:+ str_ (comp f)
             +:+ " " +:+ comp_str)
      else
        inr ("unaccent(" +:+ _praf f query id_ +:+ ") " +:+ str_ (comp f)
             +:+ " unaccent(" +:+ comp_str +:+ ")")
  end.

End Rendering.

(** [Field._psycopg_adapter(self)]: the object handed to [adapt], which the
    driver binds to the placeholder. *)
Definition _psycopg_adapter (f : Field) : PyVal := value f.

(** The field after a successful assignment of the value [v] with the
    comparator [c], and the store that holds it. *)
Definition assigned_field (f : Field) (obj : option nat) (v c : PyVal)
  : Field :=
set_comp c (set_value v (set__is_set true (set_relation obj f))).

Definition assigned (s : Store) (self : nat) (f : Field) (obj : option nat)
    (v c : PyVal) : Store :=
{| objects := <[self := assigned_field f obj v c]> (objects s);
   _joined_to := _joined_to s |}.

(** [isinstance(value, tuple)]. *)
Definition isinstance_tuple (v : PyVal) : bool :=
match v with PyTuple _ => true | _ => false end.

(** The comparator [__set__] gives to a value that comes without one and is
    no field: [is] for [NULL], [=] otherwise. *)
Definition comp_of_scalar (v : PyVal) : PyVal :=
if is_NULL v then PyStr "is" else PyStr "=".

(** The field [o] once it has been assigned to a field named [fk_name] of
    the relation [to]: it records both ends of the link. *)
Definition linked (o : Field) (to : option nat) (fk_name : string) : Field :=
set_fk_names [fk_name]
  (set_fields [name o] (set_to_ to (set_from_ (relation o) o))).

(** The field [f] of the relation [obj] once the field [other] has been
    assigned to it; [_is_set] is left as it was. *)
Definition linking (f : Field) (obj : option nat) (other : nat) : Field :=
set_comp (PyStr "in") (set_value (PyField other) (set_relation obj f)).

(** What [Field.__init__] and the [unaccent] setter fix for each object of
    the store: name, metadata and unaccent flag, in order. *)
Definition columns (s : Store) : list (string * Metadata * bool) :=
(fun f => (name f, metadata f, unaccent f)) <$> objects s.

(** The computation leaves the columns of the store as they are. *)
Definition keeps {A : Type} (m : M Store A) : Prop :=
forall s, columns (m s).1 = columns s.

End halfORM_field.

(** ** [half_orm/relation_errors.py] *)

Module relation_errors.
Import Py Eff.

Definition newline : string := String (Ascii.ascii_of_nat 10) EmptyString.

(** The message [ExpectedOneError.__init__(self, relation, count)] builds;
    [relation_repr] is the text of the relation. *)
Definition ExpectedOneError_message (relation_repr : string) (count : Z)
  : string :=
  let plural := if count =? 0 then EmptyString else "s" in
  "Expected 1, got " +:+ str_int count +:+ " tuple" +:+ plural +:+ ":"
    +:+ newline +:+ relation_repr.

End relation_errors.

(** ** [half_orm/relation.py] *)

Module half_orm_relation.
Import Py Eff.

(** *** Fields of a relation *)

Module Field.

(** Modelled from the spec: [half_orm/field.py], the [Field] class that
    [relation.py] imports, is missing from the sources ([halfORM/field.py]
    is another class: it has no [_set], [is_set] or [_comp]). The record
    keeps the attributes of the spec's data model that the relation reads:
    name, value, comparator, unaccent flag and the set flag. *)
Record t : Type := {
  name : string;
  value : PyVal;
  comp : PyVal;
  unaccent : bool;
  set : bool
}.

Definition new (name : string) : t :=
  {| name := name; value := PyNone; comp := PyStr "=";
     unaccent := false; set := false |}.

Definition is_set (f : t) : bool := set f.
Definition _comp (f : t) : PyVal := comp f.

Definition constrained (f : t) (c : string) (v : PyVal) : t :=
  {| name := name f; value := v; comp := PyStr c;
     unaccent := unaccent f; set := true |}.

(** The closed set of comparators. *)
Definition comparators : list string :=
  ["="; "!="; "<"; "<="; ">"; ">="; "like"; "ilike"; "@@"; "%";
   "is"; "is not"; "in"; "any"].

(** Modelled from the spec: [Field._set], missing with [half_orm/field.py].
    The spec's field assignment: nil unsets the constraint; the NULL
    sentinel alone sets comparator [is]; a pair [(comp, val)] sets both,
    [comp] from the closed set, [is]/[is not] required with NULL and nil
    rejected; another [Field] gives comparator [in]; a sequence is stored as
    an ordered tuple, compared with [in]; a scalar is compared with [=].
    The errors are [ValueError]s, as the tests of the repository expect. *)
Definition _set (f : t) (v : PyVal) : Exc + t :=
  match v with
  | PyNone => inr (new (name f))
  | PyNULL => inr (constrained f "is" PyNULL)
  | PyTuple [PyStr c; val] =>
      if negb (bool_decide (c ∈ comparators)) then
        inl (ValueError "comparator outside the closed set")
      else if is_None val then
        inl (ValueError "Can't have a None value with a comparator!")
      else if is_NULL val && negb (String.eqb c "is" || String.eqb c "is not")
      then inl (ValueError "comp should be 'is' or 'is not' with NULL value!")
      else inr (constrained f c val)
  | PyTuple _ => inl (ValueError "Can't match the tuple with (comp, value)!")
  | PyField _ => inr (constrained f "in" v)
  | PyList l => inr (constrained f "in" (PyTuple l))
  | _ => inr (constrained f "=" v)
  end.

End Field.

(** *** Relations *)

(** [_SetOperators]: [operator] is [None] or a [str]; [right] may be
    [None]. Relations are named by their index in the heap. *)
Record _SetOperators : Type := {
  left : nat;
  operator : PyVal;
  right : option nat
}.

(** The key of a [_ho_join_to] dictionary is an [FKey] object; each relation
    builds its own in [__set_fkeys], so the object is named by the relation
    that built it and the name of the foreign key. *)
Definition FKey : Type := (nat * string)%type.

(** The attributes of a [Relation] object. [class_] stands for
    [self.__class__]: the name of the database relation it was generated
    for. [_ho_fkeys_attr] keeps, with each alias of [Fkeys], the name of the
    class of the object that the attribute of that name holds: [FKey], until
    the attribute is assigned. The scratch attributes used while the SQL
    text is assembled ([__query], [__query_type], [__sql_query],
    [__sql_values], [__cons_fields]) and the cursor are not kept. *)
Record Relation : Type := {
  class_ : string;
  _ho_fields : list (string * Field.t);
  _ho_fkeys : list string;
  _ho_fkeys_attr : list (string * string);
  _ho_join_to : gmap FKey nat;
  _ho_is_singleton : bool;
  only : bool;
  neg : bool;
  set_operators : _SetOperators;
  select_params : gmap string PyVal;
  id_cast : option nat;
  mogrify : bool
}.

Definition with_fields (x : list (string * Field.t)) (r : Relation)
  : Relation :=
  {| class_ := class_ r; _ho_fields := x; _ho_fkeys := _ho_fkeys r;
     _ho_fkeys_attr := _ho_fkeys_attr r; _ho_join_to := _ho_join_to r;
     _ho_is_singleton := _ho_is_singleton r; only := only r; neg := neg r;
     set_operators := set_operators r; select_params := select_params r;
     id_cast := id_cast r; mogrify := mogrify r |}.

Definition with_join_to (x : gmap FKey nat) (r : Relation) : Relation :=
  {| class_ := class_ r; _ho_fields := _ho_fields r; _ho_fkeys := _ho_fkeys r;
     _ho_fkeys_attr := _ho_fkeys_attr r; _ho_join_to := x;
     _ho_is_singleton := _ho_is_singleton r; only := only r; neg := neg r;
     set_operators := set_operators r; select_params := select_params r;
     id_cast := id_cast r; mogrify := mogrify r |}.

Definition with_is_singleton (x : bool) (r : Relation) : Relation :=
  {| class_ := class_ r; _ho_fields := _ho_fields r; _ho_fkeys := _ho_fkeys r;
     _ho_fkeys_attr := _ho_fkeys_attr r; _ho_join_to := _ho_join_to r;
     _ho_is_singleton := x; only := only r; neg := neg r;
     set_operators := set_operators r; select_params := select_params r;
     id_cast := id_cast r; mogrify := mogrify r |}.

Definition with_neg (x : bool) (r : Relation) : Relation :=
  {| class_ := class_ r; _ho_fields := _ho_fields r; _ho_fkeys := _ho_fkeys r;
     _ho_fkeys_attr := _ho_fkeys_attr r; _ho_join_to := _ho_join_to r;
     _ho_is_singleton := _ho_is_singleton r; only := only r; neg := x;
     set_operators := set_operators r; select_params := select_params r;
     id_cast := id_cast r; mogrify := mogrify r |}.

Definition with_set_operators (x : _SetOperators) (r : Relation) : Relation :=
  {| class_ := class_ r; _ho_fields := _ho_fields r; _ho_fkeys := _ho_fkeys r;
     _ho_fkeys_attr := _ho_fkeys_attr r; _ho_join_to := _ho_join_to r;
     _ho_is_singleton := _ho_is_singleton r; only := only r; neg := neg r;
     set_operators := x; select_params := select_params r;
     id_cast := id_cast r; mogrify := mogrify r |}.

Definition with_select_params (x : gmap string PyVal) (r : Relation)
  : Relation :=
  {| class_ := class_ r; _ho_fields := _ho_fields r; _ho_fkeys := _ho_fkeys r;
     _ho_fkeys_attr := _ho_fkeys_attr r; _ho_join_to := _ho_join_to r;
     _ho_is_singleton := _ho_is_singleton r; only := only r; neg := neg r;
     set_operators := set_operators r; select_params := x;
     id_cast := id_cast r; mogrify := mogrify r |}.

Definition with_id_cast (x : option nat) (r : Relation) : Relation :=
  {| class_ := class_ r; _ho_fields := _ho_fields r; _ho_fkeys := _ho_fkeys r;
     _ho_fkeys_attr := _ho_fkeys_attr r; _ho_join_to := _ho_join_to r;
     _ho_is_singleton := _ho_is_singleton r; only := only r; neg := neg r;
     set_operators := set_operators r; select_params := select_params r;
     id_cast := x; mogrify := mogrify r |}.

Definition with_mogrify (x : bool) (r : Relation) : Relation :=
  {| class_ := class_ r; _ho_fields := _ho_fields r; _ho_fkeys := _ho_fkeys r;
     _ho_fkeys_attr := _ho_fkeys_attr r; _ho_join_to := _ho_join_to r;
     _ho_is_singleton := _ho_is_singleton r; only := only r; neg := neg r;
     set_operators := set_operators r; select_params := select_params r;
     id_cast := id_cast r; mogrify := x |}.

(** The heap of relation objects; [id(self)] is the index. *)
Abbreviation Heap := (list Relation).

(** *** Rows and statements *)

(** A row as the cursor yields it: column names and values, in order. *)
Definition Row : Type := list (string * PyVal).

Definition getitem (row : Row) (key : string) : Exc + PyVal :=
  match list_find (fun kv => String.eqb kv.1 key = true) row with
  | Some (_, (_, v)) => inr v
  | None => inl (KeyError key)
  end.

Fixpoint Row_eqb (a b : Row) : bool :=
  match a, b with
  | [], [] => true
  | (k, v) :: a', (k', v') :: b' =>
      String.eqb k k' && PyVal_eqb v v' && Row_eqb a' b'
  | _, _ => false
  end.

(** The rows of a list without repetition, first occurrences kept. *)
Fixpoint distinct (rows : list Row) : list Row :=
  match rows with
  | [] => []
  | r :: rows' =>
      r :: filter (fun x => Row_eqb r x = false) (distinct rows')
  end.

(** What [__execute] sends. The SQL text is not assembled: a statement
    keeps what the text is computed from. [h] and [self] stand for the
    [from] and [where] clauses that [__get_from] and [__walk_op] render for
    the relation [self] in the heap [h]. *)
Inductive Stmt : Type :=
| Count (h : Heap) (self : nat) (limit_1 : bool)
| Select (h : Heap) (self : nat) (args : list string) (distinct_ : bool)
    (order_by limit offset : option PyVal)
| Insert (qrn : string) (fields_names what_to_insert : list string)
    (values : list PyVal) (returning : list string)
| Update (qrn : string) (what : list (string * PyVal)) (h : Heap) (self : nat)
    (fk_fields fk_query : list string) (fk_values : list PyVal)
    (returning : list string)
| Delete (qrn : string) (h : Heap) (self : nat)
    (fk_fields fk_query : list string) (fk_values : list PyVal)
    (returning : list string).

(** *** The collaborators of the engine *)

(** What the engine consumes from code outside [relation.py]: the metadata
    of the [Model], the [FKey] class, the interpreter, and the PostgreSQL
    server behind the [psycopg2] cursor, whose state has type [DB]. *)
Record Env (DB : Type) : Type := {
  (** [Model._fields_metadata]: the column names of a relation, in order. *)
  fields_metadata : string -> list string;
  (** [Model._fkeys_metadata]: the names of its foreign keys. *)
  fkeys_metadata : string -> list string;
  (** The [Fkeys] attribute of the class, when it has one. *)
  Fkeys : string -> option (list (string * string));
  (** [FKey._fkey_prep_select()]: [None], or a result whose first component
      is a list of column names. *)
  _fkey_prep_select : Heap -> FKey -> option (list string);
  (** [FKey.values()[0]]. *)
  fkey_values_0 : Heap -> FKey -> list PyVal;
  (** How many nested calls the interpreter still allows. *)
  recursion_limit : nat;
  (** The connection is lost: [cursor.execute] raises [OperationalError]. *)
  broken : DB -> bool;
  (** [Model.ping()], which reconnects. *)
  ping : DB -> DB;
  (** The rows the [from] and [where] clauses of a relation produce. *)
  from_where : DB -> Heap -> nat -> list Row;
  (** The select list applied to one row. *)
  select_list : list string -> Row -> PgErr + Row;
  (** [order by] with the given text. *)
  order_rows : PyVal -> list Row -> PgErr + list Row;
  (** The number of rows the server reads in the text that [limit] or
      [offset] is followed by. *)
  row_count : PyVal -> PgErr + nat;
  (** [insert], [update] and [delete] statements: the new state of the
      database and the rows of the [returning] clause. *)
  dml : DB -> Stmt -> DB * (PgErr + list Row)
}.

Arguments fields_metadata {DB}.
Arguments fkeys_metadata {DB}.
Arguments Fkeys {DB}.
Arguments _fkey_prep_select {DB}.
Arguments fkey_values_0 {DB}.
Arguments recursion_limit {DB}.
Arguments broken {DB}.
Arguments ping {DB}.
Arguments from_where {DB}.
Arguments select_list {DB}.
Arguments order_rows {DB}.
Arguments row_count {DB}.
Arguments dml {DB}.

(** The state a method runs in: the heap of relations, the database, and
    the statements handed to [cursor.execute] so far, oldest first. *)
Record World (DB : Type) : Type := {
  heap : Heap;
  db : DB;
  executed : list Stmt
}.

Arguments heap {DB}.
Arguments db {DB}.
Arguments executed {DB}.

Section Engine.

Context {DB : Type} (env : Env DB).

Abbreviation W := (World DB).

(** **** The server *)

Definition pg_bind {A B} (x : PgErr + A) (k : A -> PgErr + B) : PgErr + B :=
  match x with inl e => inl e | inr a => k a end.

Fixpoint pg_map {A B} (f : A -> PgErr + B) (l : list A) : PgErr + list B :=
  match l with
  | [] => inr []
  | x :: l' =>
      pg_bind (f x) (fun y => pg_bind (pg_map f l') (fun ys => inr (y :: ys)))
  end.

(** [select count(distinct r) from ... where ... [limit 1]]: the
    aggregate yields one row, which holds the number of distinct rows;
    [limit] applies to that one row. *)
Definition pg_count (d : DB) (h : Heap) (self : nat) (limit_1 : bool)
  : list Row :=
  let result :=
    [[("count", PyInt (Z.of_nat (length (distinct (from_where env d h self)))))]] in
  if limit_1 then take 1 result else result.

(** [select [distinct] ... from ... where ... [order by ..] [limit ..]
    [offset ..]]: the select list, then [distinct], the order, the offset
    and the limit. *)
Definition pg_select (d : DB) (h : Heap) (self : nat) (args : list string)
    (distinct_ : bool) (order_by limit offset : option PyVal)
  : PgErr + list Row :=
  pg_bind (match args with
           | [] => inr (from_where env d h self)
           | _ => pg_map (select_list env args) (from_where env d h self)
           end) (fun rows =>
  let rows := if distinct_ then distinct rows else rows in
  pg_bind (match order_by with
           | Some o => order_rows env o rows
           | None => inr rows
           end) (fun rows =>
  pg_bind (match offset with
           | Some v => pg_bind (row_count env v) (fun n => inr (drop n rows))
           | None => inr rows
           end) (fun rows =>
  match limit with
  | Some v => pg_bind (row_count env v) (fun n => inr (take n rows))
  | None => inr rows
  end))).

(** [cursor.execute(query, values)] followed by the fetch of its rows. *)
Definition cursor_execute (d : DB) (stmt : Stmt) : DB * (PgErr + list Row) :=
  if broken env d then (d, inl OperationalError)
  else
    match stmt with
    | Count h self limit_1 => (d, inr (pg_count d h self limit_1))
    | Select h self args distinct_ order_by limit offset =>
        (d, pg_select d h self args distinct_ order_by limit offset)
    | _ => dml env d stmt
    end.

(** **** Helpers on the world *)

Definition lift {A} (x : Exc + A) : M W A :=
  match x with inl e => raise e | inr a => ret a end.

Definition the_relation (self : nat) : M W Relation :=
  w ← get; deref (heap w !! self).

Definition update_relation (self : nat) (f : Relation -> Relation)
  : M W unit :=
  r ← the_relation self;
  modify (fun w => {| heap := <[self := f r]> (heap w); db := db w;
                      executed := executed w |}).

(** [__execute(self, query, values)]: one retry after [Model.ping()] when
    the driver reports [OperationalError] or [InterfaceError]. The text
    printed when [mogrify] is set is not kept. *)
Definition __execute (stmt : Stmt) : M W (list Row) :=
  fun w =>
    let '(d1, r1) := cursor_execute (db w) stmt in
    let log1 := (executed w ++ [stmt])%list in
    match r1 with
    | inr rows => ({| heap := heap w; db := d1; executed := log1 |}, inr rows)
    | inl (DatabaseError msg) =>
        ({| heap := heap w; db := d1; executed := log1 |},
         inl (Psycopg2Error (DatabaseError msg)))
    | inl _ =>
        let '(d2, r2) := cursor_execute (ping env d1) stmt in
        ({| heap := heap w; db := d2; executed := (log1 ++ [stmt])%list |},
         match r2 with
         | inr rows => inr rows
         | inl e => inl (Psycopg2Error e)
         end)
    end.

(** [cursor.fetchone()[key]]: [fetchone()] is [None] without a row. *)
Definition fetchone_item (rows : list Row) (key : string) : M W PyVal :=
  match rows with
  | [] => raise TypeError
  | row :: _ => lift (getitem row key)
  end.

(** [next(rows)]. *)
Definition next (rows : list Row) : M W Row :=
  match rows with
  | [] => raise StopIteration
  | row :: _ => ret row
  end.

(** **** Construction *)

(** [self._ho_fields[name]] and its replacement. *)
Definition field_lookup (field_name : string) (fields : list (string * Field.t))
  : option Field.t :=
match list_find (fun kv => String.eqb kv.1 field_name = true) fields with
| Some (_, (_, f)) => Some f
| None => None
end.

Definition field_update (field_name : string) (f : Field.t)
    (fields : list (string * Field.t)) : list (string * Field.t) :=
(fun kv => if String.eqb kv.1 field_name then (kv.1, f) else kv) <$> fields.

(** The loop of [__set_fkeys] over [Fkeys.items()]: empty keys are skipped,
    an alias of an unknown foreign key raises [WrongFkeyError]. *)
Fixpoint fkeys_aliases (fkeys : list string) (aliases : list (string * string))
  : Exc + list string :=
match aliases with
| [] => inr []
| (key, value) :: rest =>
    if String.eqb key EmptyString then fkeys_aliases fkeys rest
    else if bool_decide (value ∈ fkeys) then
      match fkeys_aliases fkeys rest with
      | inl e => inl e
      | inr keys => inr (key :: keys)
      end
    else inl (WrongFkeyError value)
end.

(** The last statement of [__init__] but one: [_set(value)] on the field of
    every keyword argument that is not [None]. *)
Fixpoint set_kwargs (fields : list (string * Field.t))
    (kwargs : list (string * PyVal)) : Exc + list (string * Field.t) :=
match kwargs with
| [] => inr fields
| (field_name, value) :: rest =>
    if is_None value then set_kwargs fields rest
    else
      match field_lookup field_name fields with
      | None => inl (KeyError field_name)
      | Some f =>
          match Field._set f value with
          | inl e => inl e
          | inr f' => set_kwargs (field_update field_name f' fields) rest
          end
      end
end.

(** The attributes of the object at the end of [__init__]. *)
Definition built (cls : string) (self : nat) (fields : list (string * Field.t))
    (fkeys fkeys_attr : list string) : Relation :=
{| class_ := cls; _ho_fields := fields; _ho_fkeys := fkeys;
   _ho_fkeys_attr := (fun key => (key, "FKey")) <$> fkeys_attr;
   _ho_join_to := ∅; _ho_is_singleton := false; only := false; neg := false;
   set_operators := {| left := self; operator := PyNone; right := None |};
   select_params := ∅; id_cast := None; mogrify := false |}.

(** [Relation.__init__(self, **kwargs)] for the class [cls]. The object is
    entered in the heap once built: an exception leaves no trace of it. The
    cursor that the method opens is not kept. *)
Definition __init__ (cls : string) (kwargs : list (string * PyVal))
  : M W nat :=
w ← get;
let self := length (heap w) in
let fields := (fun n => (n, Field.new n)) <$> fields_metadata env cls in
let fkeys := fkeys_metadata env cls in
fkeys_attr ← lift (match Fkeys env cls with
                   | Some aliases => fkeys_aliases fkeys aliases
                   | None => inr []
                   end);
match filter (fun k => k ∉ fields.*1) kwargs.*1 with
| (_ :: _) as unknown => raise (UnknownAttributeError unknown)
| [] =>
    fields ← lift (set_kwargs fields kwargs);
    modify (fun w =>
      {| heap := (heap w ++ [built cls self fields fkeys fkeys_attr])%list;
         db := db w; executed := executed w |});;
    ret self
end.

(** [__call__(self, **kwargs)]: a new object of [self.__class__], built from
    the same keyword arguments. *)
Definition __call__ (self : nat) (kwargs : list (string * PyVal)) : M W nat :=
r ← the_relation self; __init__ (class_ r) kwargs.

(** [self._ho_fields[field_name]._set(value)]; a field that is set unsets
    the singleton mark of its relation. *)
Definition field__set (self : nat) (field_name : string) (value : PyVal)
  : M W unit :=
r ← the_relation self;
match field_lookup field_name (_ho_fields r) with
| None => raise (KeyError field_name)
| Some f =>
    f' ← lift (Field._set f value);
    update_relation self (fun r =>
      with_is_singleton false
        (with_fields (field_update field_name f' (_ho_fields r)) r))
end.

(** **** Constraints *)

(** [__to_dict_val_comp]. *)
Definition __to_dict_val_comp (r : Relation) : list (string * PyVal) :=
(fun kv => (kv.1, PyTuple [Field._comp kv.2; Field.value kv.2])) <$>
  filter (fun kv => Field.is_set kv.2 = true) (_ho_fields r).

(** [__get_set_fields]. *)
Definition __get_set_fields (r : Relation) : list Field.t :=
filter (fun f => Field.is_set f = true) (_ho_fields r).*2.

(** The loop of [_ho_is_set] over the joined relations:
    [joined_to |= jt_._ho_is_set()]. *)
Fixpoint or_all (is_set : nat -> Exc + bool) (joined : list nat) : Exc + bool :=
match joined with
| [] => inr false
| jt_ :: rest =>
    match is_set jt_ with
    | inl e => inl e
    | inr b =>
        match or_all is_set rest with
        | inl e => inl e
        | inr b' => inr (b || b')
        end
    end
end.

(** [_ho_is_set(self)]. The method calls itself on each relation of
    [_ho_join_to]; [depth] bounds the nesting of these calls, as the
    interpreter does, and the call that exceeds it raises
    [RecursionError]. *)
Fixpoint _ho_is_set (depth : nat) (h : Heap) (self : nat) : Exc + bool :=
match depth with
| O => inl RecursionError
| S depth' =>
    match h !! self with
    | None => inl Dangling
    | Some r =>
        match or_all (_ho_is_set depth' h) (map_to_list (_ho_join_to r)).*2 with
        | inl e => inl e
        | inr joined_to =>
            inr (joined_to || truthy (operator (set_operators r)) || neg r
                 || existsb Field.is_set (_ho_fields r).*2)
        end
    end
end.

(** [__what]: the constrained fields and foreign keys. *)
Definition __what (h : Heap) (self : nat) (r : Relation)
  : list string * list PyVal * list string * list string * list PyVal :=
let fields_names :=
  (fun kv => dquote +:+ kv.1 +:+ dquote) <$>
    filter (fun kv => Field.is_set kv.2 = true) (_ho_fields r) in
let set_fields := Field.value <$> __get_set_fields r in
let '(fk_fields, fk_queries, fk_values) :=
  fold_left (fun '(fk_fields, fk_queries, fk_values) fkey =>
      match _fkey_prep_select env h (self, fkey) with
      | None => (fk_fields, fk_queries, fk_values)
      | Some cols =>
          let fk_values := (fk_values ++ fkey_values_0 env h (self, fkey))%list in
          ((fk_fields ++ cols)%list, replicate (length fk_values) "%s",
           fk_values)
      end)
    (_ho_fkeys r) ([], [], []) in
(fields_names, set_fields, fk_fields, fk_queries, fk_values).

(** What [__fkey_where] adds to the [where] clause and to the values. *)
Definition __fkey_where (h : Heap) (self : nat) (r : Relation)
  : list string * list string * list PyVal :=
let '(_, _, fk_fields, fk_query, fk_values) := __what h self r in
match fk_fields with
| [] => ([], [], [])
| _ => (fk_fields, fk_query, fk_values)
end.

(** **** Terminal operations *)

(** The message of [__get_query] for an alias of [Fkeys] whose attribute was
    assigned an object of the class [cls]. *)
Definition not_a_FKey (fkey_name cls : string) : string :=
"self." +:+ fkey_name +:+ " is not a FKey (got a " +:+ cls
  +:+ " object instead)." +:+ relation_errors.newline
  +:+ "- use: self." +:+ fkey_name +:+ ".set(" +:+ cls +:+ "(...))"
  +:+ relation_errors.newline
  +:+ "- not: self." +:+ fkey_name +:+ " = " +:+ cls +:+ "(...)".

(** The part of [__get_query] that can fail: it checks that fkeys are
    fkeys. The text it assembles is carried by the statements. *)
Definition __get_query (self : nat) : M W unit :=
r ← the_relation self;
match list_find (fun kv => kv.2 ≠ "FKey") (_ho_fkeys_attr r) with
| Some (_, (fkey_name, cls)) => raise (RuntimeError (not_a_FKey fkey_name cls))
| None => ret tt
end.

(** The statement [_ho_insert] assembles: the set fields, the values taken
    from the foreign keys, and [returning], which is [*] without
    arguments. *)
Definition insert_query (h : Heap) (self : nat) (r : Relation)
    (args : list string) : Stmt :=
let '(fields_names, values, fk_fields, fk_query, fk_values) :=
  __what h self r in
let what_to_insert := replicate (length values) "%s" in
let '(fields_names, what_to_insert, values) :=
  match fk_fields with
  | [] => (fields_names, what_to_insert, values)
  | _ => ((fields_names ++ fk_fields)%list,
          (what_to_insert ++ fk_query)%list, (values ++ fk_values)%list)
  end in
let returning := match args with [] => ["*"] | _ => args end in
Insert (class_ r) fields_names what_to_insert values returning.

(** [_ho_insert(self, *args)]. *)
Definition _ho_insert (self : nat) (args : list string) : M W Row :=
r ← the_relation self;
w ← get;
rows ← __execute (insert_query (heap w) self r args);
let res := match rows with [] => [[]] | _ => rows end in
match res with
| row :: _ => ret row
| [] => raise IndexError
end.

(** [_ho_prep_select] and [_ho_select(self, *args)]: the rows the generator
    yields. *)
Definition _ho_prep_select (h : Heap) (self : nat) (r : Relation)
    (args : list string) : Stmt :=
let params := select_params r in
Select h self args (bool_decide (is_Some (params !! "distinct")))
  (params !! "order_by") (params !! "limit") (params !! "offset").

Definition _ho_select (self : nat) (args : list string) : M W (list Row) :=
r ← the_relation self;
__get_query self;;
w ← get;
__execute (_ho_prep_select (heap w) self r args).

(** [__len__(self)]. *)
Definition __len__ (self : nat) : M W PyVal :=
__get_query self;;
w ← get;
rows ← __execute (Count (heap w) self false);
fetchone_item rows "count".

(** [len(self)]: the interpreter wants a non-negative [int] from
    [__len__]. *)
Definition len (self : nat) : M W Z :=
v ← __len__ self;
match v with
| PyInt z => if z <? 0 then raise (ValueError "__len__() should return >= 0")
             else ret z
| PyBool b => ret (if b then 1 else 0)
| _ => raise TypeError
end.

(** [_ho_is_empty(self)]. *)
Definition _ho_is_empty (self : nat) : M W bool :=
__get_query self;;
w ← get;
rows ← __execute (Count (heap w) self true);
count ← fetchone_item rows "count";
ret (negb (eq_int count 1)).

(** [_ho_get(self, *args)]. *)
Definition _ho_get (self : nat) (args : list string) : M W nat :=
_count ← len self;
if negb (_count =? 1) then raise (ExpectedOneError self _count)
else
  update_relation self (with_is_singleton true);;
  rows ← _ho_select self args;
  row ← next rows;
  ret_ ← __call__ self row;
  update_relation ret_ (with_is_singleton true);;
  ret ret_.

(** The messages of the two safety barriers. *)
Definition update_barrier (cls : string) : string :=
"Attempt to update all rows of " +:+ cls
  +:+ " without update_all being set to True!".

Definition delete_barrier (cls : string) : string :=
"Attempt to delete all rows from " +:+ cls
  +:+ " without delete_all being set to True!".

(** [self._ho_is_set()] in the current heap. *)
Definition is_set_now (self : nat) : M W bool :=
w ← get; lift (_ho_is_set (recursion_limit env) (heap w) self).

(** The statement [_ho_update] assembles from the values to write
    ([__update_args]), the constraint of the relation and its foreign
    keys ([__fkey_where]). *)
Definition update_query (h : Heap) (self : nat) (r : Relation)
    (update_args : list (string * PyVal)) (args : list string) : Stmt :=
let '(fk_fields, fk_query, fk_values) := __fkey_where h self r in
Update (class_ r) update_args h self fk_fields fk_query fk_values args.

(** [_ho_update(self, *args, update_all=False, **kwargs)] past the barrier;
    the result is [None] or the list of the returned rows. *)
Definition update_body (self : nat) (r : Relation) (args : list string)
    (kwargs : list (string * PyVal)) : M W (option (list Row)) :=
(* None values are first removed *)
let update_args := filter (fun kv => is_None kv.2 = false) kwargs in
match update_args with
| [] => ret None (* no new value update *)
| _ =>
    w ← get;
    rows ← __execute (update_query (heap w) self r update_args args);
    for_ update_args (fun kv => field__set self kv.1 kv.2);;
    match args with
    | [] => ret None
    | _ => ret (Some rows)
    end
end.

(** [_ho_update(self, *args, update_all=False, **kwargs)]. *)
Definition _ho_update (self : nat) (args : list string) (update_all : bool)
    (kwargs : list (string * PyVal)) : M W (option (list Row)) :=
r ← the_relation self;
is_set ← is_set_now self;
if negb (is_set || update_all) then
  raise (RuntimeError (update_barrier (class_ r)))
else update_body self r args kwargs.

(** The statement [_ho_delete] assembles. *)
Definition delete_query (h : Heap) (self : nat) (r : Relation)
    (args : list string) : Stmt :=
let '(fk_fields, fk_query, fk_values) := __fkey_where h self r in
Delete (class_ r) h self fk_fields fk_query fk_values args.

(** [_ho_delete(self, *args, delete_all=False)] past the barrier. The select
    statement that [__get_query] assembles here is not executed; the two
    lines the method prints are not kept. *)
Definition delete_body (self : nat) (r : Relation) (args : list string)
  : M W (option (list Row)) :=
__get_query self;;
w ← get;
rows ← __execute (delete_query (heap w) self r args);
match args with
| [] => ret None
| _ => ret (Some rows)
end.

(** [_ho_delete(self, *args, delete_all=False)]. *)
Definition _ho_delete (self : nat) (args : list string) (delete_all : bool)
  : M W (option (list Row)) :=
r ← the_relation self;
is_set ← is_set_now self;
if negb (is_set || delete_all) then
  raise (RuntimeError (delete_barrier (class_ r)))
else delete_body self r args.

(** **** Selection modifiers *)

Definition _ho_distinct (self : nat) : M W nat :=
update_relation self (fun r =>
  with_select_params (<["distinct" := PyStr "distinct"]> (select_params r)) r);;
ret self.

Definition _ho_order_by (self : nat) (_order_ : PyVal) : M W nat :=
update_relation self (fun r =>
  with_select_params (<["order_by" := _order_]> (select_params r)) r);;
ret self.

(** [_ho_limit(self, _limit_)]. *)
Definition _ho_limit (self : nat) (_limit_ : PyVal) : M W nat :=
(if truthy _limit_ then
   update_relation self (fun r =>
     with_select_params (<["limit" := _limit_]> (select_params r)) r)
 else
   r ← the_relation self;
   if bool_decide (is_Some (select_params r !! "limit")) then
     update_relation self (fun r =>
       with_select_params (delete "limit" (select_params r)) r)
   else ret tt);;
ret self.

Definition _ho_offset (self : nat) (_offset_ : PyVal) : M W nat :=
update_relation self (fun r =>
  with_select_params (<["offset" := _offset_]> (select_params r)) r);;
ret self.

Definition _ho_mogrify (self : nat) : M W nat :=
update_relation self (with_mogrify true);;
ret self.

(** **** Set operators *)

(** [__set__op__(self, operator=None, right=None)]. [dct_join] is the
    dictionary [self._ho_join_to] itself: [dct_join.update] writes into the
    object [self]. [check_fk] then copies [dct_join] into the new relation,
    with [new] in the place of [self]. *)
Definition __set__op__ (self : nat) (operator : PyVal) (right : option nat)
  : M W nat :=
me ← the_relation self;
new ← __call__ self (__to_dict_val_comp me);
update_relation new (with_id_cast (id_cast me));;
(if truthy operator then
   update_relation new (fun n =>
     with_set_operators
       {| left := self; operator := operator;
          right := half_orm_relation.right (set_operators n) |} n)
 else ret tt);;
match right with
| Some rt =>
    update_relation new (fun n =>
      with_set_operators
        {| left := left (set_operators n);
           operator := half_orm_relation.operator (set_operators n);
           right := Some rt |} n);;
    other ← the_relation rt;
    update_relation self (fun r =>
      with_join_to (_ho_join_to other ∪ _ho_join_to r) r)
| None => ret tt
end;;
me ← the_relation self;
let dct_join := _ho_join_to me in
update_relation new (fun n =>
  with_join_to
    (((fun rel => if Nat.eqb rel self then new else rel) <$> dct_join)
       ∪ _ho_join_to n) n);;
ret new.

Definition __and__ (self right : nat) : M W nat :=
__set__op__ self (PyStr "and") (Some right).

Definition __or__ (self right : nat) : M W nat :=
__set__op__ self (PyStr "or") (Some right).

Definition __sub__ (self right : nat) : M W nat :=
__set__op__ self (PyStr "and not") (Some right).

Definition __neg__ (self : nat) : M W nat :=
me ← the_relation self;
new ← __set__op__ self (operator (set_operators me)) (right (set_operators me));
me ← the_relation self;
update_relation new (with_neg (negb (neg me)));;
ret new.

Definition __xor__ (self right : nat) : M W nat :=
a ← __or__ self right;
b ← __and__ self right;
__sub__ a b.

End Engine.

(** *** What it is to be constrained *)

(** The relations [self] is joined to. *)
Definition joined_relations (r : Relation) : list nat :=
(map_to_list (_ho_join_to r)).*2.

(** [rel._ho_is_set()] returns [b] within [depth] nested calls. *)
Definition answers (depth : nat) (h : Heap) (b : bool) (rel : nat) : bool :=
match _ho_is_set depth h rel with
| inr b' => Bool.eqb b b'
| inl _ => false
end.

(** No field is set. *)
Definition no_field_set (r : Relation) : bool :=
forallb (fun f => negb (Field.is_set f)) (_ho_fields r).*2.

(** No foreign key is constrained: every relation joined through a foreign
    key is found not set. *)
Definition no_fkey_constrained (depth : nat) (h : Heap) (r : Relation) : bool :=
forallb (answers depth h false) (joined_relations r).

(** No set operator applies: the relation is neither a combination nor a
    negation. *)
Definition no_set_operator (r : Relation) : bool :=
negb (truthy (operator (set_operators r))) && negb (neg r).

Definition unconstrained (depth : nat) (h : Heap) (r : Relation) : bool :=
no_field_set r && no_fkey_constrained depth h r && no_set_operator r.

(** The relation is constrained: a field is set, or a joined relation is
    found set, or a set operator applies; the check of every joined
    relation returns. *)
Definition constrained (depth : nat) (h : Heap) (r : Relation) : bool :=
forallb (fun rel => answers depth h true rel || answers depth h false rel)
  (joined_relations r)
&& (negb (no_field_set r)
    || existsb (answers depth h true) (joined_relations r)
    || negb (no_set_operator r)).

(** *** What a computation does not do *)

(** The computation never raises [RuntimeError] with the message [msg]. *)
Definition spares {DB A : Type} (msg : string) (m : M (World DB) A) : Prop :=
forall w, (m w).2 <> inl (RuntimeError msg).


(** *** Worlds and relations that the methods leave *)

(** The world in which the relation [self], which was [r], has the select
    parameters [params]. *)
Definition with_params {DB : Type} (w : World DB) (self : nat) (r : Relation)
    (params : gmap string PyVal) : World DB :=
{| heap := <[self := with_select_params params r]> (heap w); db := db w;
   executed := executed w |}.

(** The new relation of [__set__op__]: the relation [rel0] that [__init__]
    built, with the identity of the cast, the operator node, and the merged
    joins in which [new] stands for [self]. *)
Definition combined (rel0 : Relation) (self new : nat) (me other : Relation)
    (operator : PyVal) (rt : nat) : Relation :=
with_join_to
  ((fun rel => if Nat.eqb rel self then new else rel)
     <$> (_ho_join_to other ∪ _ho_join_to me))
  (with_set_operators
     {| left := if truthy operator then self else left (set_operators rel0);
        operator := if truthy operator then operator
                    else half_orm_relation.operator (set_operators rel0);
        right := Some rt |}
     (with_id_cast (id_cast me) rel0)).

(** The new relation of [__set__op__] without a right operand: no join is
    merged into [self], whose joins are copied with [new] in its place. *)
Definition derived (rel0 : Relation) (self new : nat) (me : Relation)
    (operator : PyVal) : Relation :=
with_join_to
  ((fun rel => if Nat.eqb rel self then new else rel) <$> _ho_join_to me)
  (with_set_operators
     {| left := if truthy operator then self else left (set_operators rel0);
        operator := if truthy operator then operator
                    else half_orm_relation.operator (set_operators rel0);
        right := right (set_operators rel0) |}
     (with_id_cast (id_cast me) rel0)).

(** *** More of what a computation does not do *)

(** The exceptions of the class [ExpectedOneError]. *)
Definition is_ExpectedOneError (e : Exc) : bool :=
match e with ExpectedOneError _ _ => true | _ => false end.

(** The computation raises no [ExpectedOneError]. *)
Definition expects_nothing {DB A : Type} (m : M (World DB) A) : Prop :=
forall w e, (m w).2 = inl e -> is_ExpectedOneError e = false.

(** The computation writes no relation. *)
Definition reads_heap {DB A : Type} (m : M (World DB) A) : Prop :=
forall w, heap (m w).1 = heap w.

(** *** Iteration *)

Section Iteration.

Context {DB : Type} (env : Env DB).

(** [__next__(self)]: [next(self._ho_select())], on a generator that the
    call creates. *)
Definition __next__ (self : nat) : M (World DB) Row :=
rows ← _ho_select env self []; next rows.

End Iteration.

(** *** The [where] clause *)

Section Where_clause.

Context {DB : Type} (env : Env DB).

(** [Field._where_repr(query_type, rel_id_)], of the class that is missing
    from the sources: the text a set field contributes is left open. *)
Variable _where_repr : Field.t -> string -> nat -> string.

(** [str(operator)] for an operator that is not a [str]. *)
Variable str_other : PyVal -> string.

(** [_ho_id]: [self.__id_cast or id(self)]; the identity of an object is
    never zero, so the cast is taken whenever there is one. *)
Definition _ho_id (self : nat) (r : Relation) : nat :=
default self (id_cast r).

(** [__where_repr(self, rel_id_)]; [sep.join(l)] is [String.concat sep l],
    and the empty text is false. *)
Definition __where_repr (query_type : string) (r : Relation) (rel_id_ : nat)
  : string :=
let where_repr :=
  (fun field => _where_repr field query_type rel_id_) <$> __get_set_fields r in
let where_repr :=
  match String.concat " and " where_repr with
  | EmptyString => "1 = 1"
  | joined => joined
  end in
let ret := "(" +:+ where_repr +:+ ")" in
if neg r then "not (" +:+ ret +:+ ")" else ret.

(** [__walk_op(self, rel_id_, out, _fields_)]: what the call appends to
    [out] and to [_fields_]. The query type that the method copies into
    both operands before it visits them is the argument [query_type];
    [depth] bounds the nesting of the calls. *)
Fixpoint __walk_op (depth : nat) (h : Heap) (query_type : string)
    (self rel_id_ : nat) : Exc + (list string * list Field.t) :=
match depth with
| O => inl RecursionError
| S depth' =>
    match h !! self with
    | None => inl Dangling
    | Some r =>
        let ops := set_operators r in
        if truthy (operator ops) then
          match __walk_op depth' h query_type (left ops) rel_id_ with
          | inl e => inl e
          | inr (out_left, fields_left) =>
              match
                match right ops with
                | None => inr ([], [])
                | Some right =>
                    match __walk_op depth' h query_type right rel_id_ with
                    | inl e => inl e
                    | inr (out_right, fields_right) =>
                        inr ((" " +:+ halfORM_field.str_ str_other (operator ops)
                                +:+ relation_errors.newline +:+ "    ")
                               :: out_right, fields_right)
                    end
                end
              with
              | inl e => inl e
              | inr (out_right, fields_right) =>
                  inr (((if neg r then ["not ("] else []) ++ ["("] ++ out_left
                          ++ out_right ++ [")"]
                          ++ (if neg r then [")"] else []))%list,
                       (fields_left ++ fields_right)%list)
              end
          end
        else inr ([__where_repr query_type r rel_id_], __get_set_fields r)
    end
end.

(** [__where_args(self, *args)]: what, where and the fields whose values
    are bound. *)
Definition __where_args (h : Heap) (query_type : string) (self : nat)
    (args : list string) : Exc + (string * string * list Field.t) :=
match h !! self with
| None => inl Dangling
| Some r =>
    let rel_id_ := _ho_id self r in
    let what :=
      match args with
      | [] => "r" +:+ pretty rel_id_ +:+ ".*"
      | _ => String.concat ", "
               ((fun arg => "r" +:+ pretty rel_id_ +:+ "." +:+ arg) <$> args)
      end in
    match __walk_op (recursion_limit env) h query_type self rel_id_ with
    | inl e => inl e
    | inr (s_where, set_fields) =>
        let s_where := String.concat EmptyString s_where in
        let s_where := if String.eqb s_where "()" then "(1 = 1)" else s_where in
        inr (what, s_where, set_fields)
    end
end.

End Where_clause.

(** *** The removal of duplicates in [__get_query] *)

(** [elt.find(..) == 0] for the text that opens a join: a line feed, two
    spaces and the word [join]. *)
Definition join_fragment (elt : string) : bool :=
String.prefix (relation_errors.newline +:+ "  join ") elt.

(** What takes the place of a duplicate. *)
Definition and_fragment : string := "  and" +:+ relation_errors.newline.

(** [sql_query.count(elt)]. *)
Definition count (elt : string) (sql_query : list string) : nat :=
length (filter (fun x => x = elt) sql_query).

(** One turn of the loop, for the pair [(idx, elt)] of the enumeration. *)
Definition remove_duplicate (sql_query : list string) (item : nat * string)
  : list string :=
let '(idx, elt) := item in
if join_fragment elt && (1 <? count elt sql_query)%nat
then <[idx := and_fragment]> sql_query
else sql_query.

(** The loop [for idx, elt in reversed(list(enumerate(sql_query)))], which
    writes into [sql_query] while it reads the pairs listed beforehand. *)
Definition remove_duplicates (sql_query : list string) : list string :=
fold_left remove_duplicate (rev (imap pair sql_query)) sql_query.

(** The elements of [suf], each join that occurs before it, in [pre] or in
    [suf], replaced. *)
Definition kept (pre suf : list string) : list string :=
imap (fun i x =>
        if join_fragment x && bool_decide (x ∈ (pre ++ take i suf)%list)
        then and_fragment else x) suf.

End half_orm_relation.

(** ** A small database to run the engine on *)

Module halftest.
Import Py Eff half_orm_relation.

(** The state of the server: the rows of the table [actor.person]. *)
Definition DB : Type := list Row.

(** A row satisfies a relation when it agrees with every field that is
    set. This server compares with [=] only, knows neither joins nor set
    operators, and holds no row of another table. *)
Definition satisfies (r : Relation) (row : Row) : bool :=
forallb (fun kv =>
    negb (Field.is_set kv.2) ||
    match getitem row kv.1 with
    | inr v => PyVal_eqb v (Field.value kv.2)
    | inl _ => false
    end)
  (_ho_fields r).

Definition person_columns : list string :=
["id"; "first_name"; "last_name"; "birth_date"].

Definition post_columns : list string :=
["id"; "title"; "content"; "author_first_name"; "author_last_name";
 "author_birth_date"].

(** The foreign keys of [actor.person] and their aliases, as the class
    [Person] of the test package declares them. *)
Definition comment_fkey : string :=
"_reverse_fkey_halftest_blog_comment_author_id".

Definition event_fkey : string :=
"_reverse_fkey_halftest_blog_event_author_first_name_author_last_name_author_birth_date".

Definition post_fkey : string :=
"_reverse_fkey_halftest_blog_post_author_first_name_author_last_name_author_birth_date".

Definition is_person (cls : string) : bool := String.eqb cls "actor.person".
Definition is_post (cls : string) : bool := String.eqb cls "blog.post".

(** The environment: the relations [actor.person] and [blog.post] of the
    test database, no foreign key bound to a value, a connection that holds,
    and data-modifying statements that leave the table as it is and return
    [returned]. *)
Definition person_env (returned : list Row) : Env DB :=
{| fields_metadata := fun cls =>
     if is_person cls then person_columns
     else if is_post cls then post_columns else [];
   fkeys_metadata := fun cls =>
     if is_person cls then [comment_fkey; event_fkey; post_fkey]
     else if is_post cls then ["author"] else [];
   Fkeys := fun cls =>
     if is_person cls then
       Some [("_comment", comment_fkey); ("_event", event_fkey);
             ("_post", post_fkey)]
     else None;
   _fkey_prep_select := fun _ _ => None;
   fkey_values_0 := fun _ _ => [];
   recursion_limit := 1000;
   broken := fun _ => false;
   ping := fun d => d;
   from_where := fun d h self =>
     match h !! self with
     | Some r => if is_person (class_ r)
                 then filter (fun row => satisfies r row = true) d else []
     | None => []
     end;
   select_list := fun args row =>
     (fix keep (args : list string) : PgErr + Row :=
        match args with
        | [] => inr []
        | a :: args' =>
            match getitem row a, keep args' with
            | inr v, inr rest => inr ((a, v) :: rest)
            | _, _ => inl (DatabaseError "column does not exist")
            end
        end) args;
   order_rows := fun _ rows => inr rows;
   row_count := fun v =>
     match v with
     | PyInt z => if z <? 0 then inl (DatabaseError "must not be negative")
                  else inr (Z.to_nat z)
     | _ => inl (DatabaseError "syntax error")
     end;
   dml := fun d _ => (d, inr returned) |}.

Definition person (id : Z) (first_name last_name : string) : Row :=
[("id", PyInt id); ("first_name", PyStr first_name);
 ("last_name", PyStr last_name); ("birth_date", PyStr "1970-01-01")].

Definition two_persons : DB := [person 1 "aa" "aa"; person 2 "ab" "ab"].

Definition empty_world (d : DB) : World DB :=
{| heap := []; db := d; executed := [] |}.

(** The world after [script] has run from an empty heap. *)
Definition after {A} (d : DB) (script : M (World DB) A) : World DB :=
(script (empty_world d)).1.

(** [Person()]: no constraint. *)
Definition all_persons : World DB :=
after two_persons (__init__ (person_env []) "actor.person" []).

(** [Person(last_name='ab')._ho_offset(1)]. *)
Definition person_ab_offset_1 : World DB :=
after two_persons
  (p ← __init__ (person_env []) "actor.person" [("last_name", PyStr "ab")];
   _ho_offset p (PyInt 1)).

(** [Person(last_name='ab')]. *)
Definition person_ab : World DB :=
after two_persons
  (__init__ (person_env []) "actor.person" [("last_name", PyStr "ab")]).

(** [Person(last_name='ab')._ho_limit(5)]. *)
Definition person_ab_limit_5 : World DB :=
after two_persons
  (p ← __init__ (person_env []) "actor.person" [("last_name", PyStr "ab")];
   _ho_limit p (PyInt 5)).

(** [a = Person()], [b = Person()], [c = Post(title='x')], and [b] joined to
    [c] through its foreign key [_post], which is what [b._post.set(c)]
    leaves in [b._ho_join_to]. *)
Definition joined_right_operand : World DB :=
after two_persons
  (a ← __init__ (person_env []) "actor.person" [];
   b ← __init__ (person_env []) "actor.person" [];
   c ← __init__ (person_env []) "blog.post" [("title", PyStr "x")];
   update_relation b (with_join_to {[ (b, post_fkey) := c ]})).

(** Two columns of [blog.post] as [halfORM/field.py] holds them, owned by
    no relation yet. *)
Definition text : halfORM_field.Metadata :=
{| halfORM_field.fieldtype := "text"; halfORM_field.pkey := false;
   halfORM_field.uniq := false; halfORM_field.notnull := false |}.

Definition post_fields : halfORM_field.Store :=
{| halfORM_field.objects :=
     [halfORM_field.__init__ "first_name" text;
      halfORM_field.__init__ "content" text];
   halfORM_field._joined_to := ∅ |}.

(** [content] holding the list [[1, 2]] under the comparator [comp]. *)
Definition content_with_list (comp : string) : halfORM_field.Field :=
halfORM_field.set_comp (PyStr comp)
  (halfORM_field.set_value (PyList [PyInt 1; PyInt 2])
     (halfORM_field.__init__ "content" text)).

(** The environment of a class [Person] declared with the given [Fkeys]. *)
Definition person_env_with_Fkeys (aliases : list (string * string)) : Env DB :=
{| fields_metadata := fields_metadata (person_env []);
   fkeys_metadata := fkeys_metadata (person_env []);
   Fkeys := fun cls => if is_person cls then Some aliases else None;
   _fkey_prep_select := _fkey_prep_select (person_env []);
   fkey_values_0 := fkey_values_0 (person_env []);
   recursion_limit := recursion_limit (person_env []);
   broken := broken (person_env []);
   ping := ping (person_env []);
   from_where := from_where (person_env []);
   select_list := select_list (person_env []);
   order_rows := order_rows (person_env []);
   row_count := row_count (person_env []);
   dml := dml (person_env []) |}.

(** The same server behind a connection that can be lost: the state says
    whether the connection holds, and [ping] restores it or not. *)
Definition person_env_on_line (restored : bool) : Env (bool * DB) :=
{| fields_metadata := fields_metadata (person_env []);
   fkeys_metadata := fkeys_metadata (person_env []);
   Fkeys := Fkeys (person_env []);
   _fkey_prep_select := _fkey_prep_select (person_env []);
   fkey_values_0 := fkey_values_0 (person_env []);
   recursion_limit := recursion_limit (person_env []);
   broken := fun d => negb d.1;
   ping := fun d => (restored, d.2);
   from_where := fun d => from_where (person_env []) d.2;
   select_list := select_list (person_env []);
   order_rows := order_rows (person_env []);
   row_count := row_count (person_env []);
   dml := fun d _ => (d, inr []) |}.

(** [Person()] behind a connection that has been lost. *)
Definition all_persons_off_line : World (bool * DB) :=
{| heap := heap all_persons; db := (false, two_persons); executed := [] |}.

(** [a = Person()] with a foreign key of [a] bound to [a] itself. *)
Definition self_joined : World DB :=
after two_persons
  (a ← __init__ (person_env []) "actor.person" [];
   update_relation a (with_join_to {[ (a, comment_fkey) := a ]})).

(** The fragments of a [from] clause in which the same join occurs twice. *)
Definition from_with_duplicate : list string :=
["actor.person as r1";
 relation_errors.newline +:+ "  join blog.post as r2 on";
 "r1.id = r2.author_id";
 relation_errors.newline +:+ "  join blog.post as r2 on";
 "r1.id = r2.author_id"].

(** The relation at [self] in the heap of [w]. *)
Definition relation_at (w : World DB) (self : nat) : Relation :=
default (built EmptyString 0 [] [] []) (heap w !! self).

(** [a = Person(last_name='ab')] and [b = Person(first_name='aa')]. *)
Definition two_constraints : World DB :=
after two_persons
  (__init__ (person_env []) "actor.person" [("last_name", PyStr "ab")];;
   __init__ (person_env []) "actor.person" [("first_name", PyStr "aa")]).


(** [a = Person()] and [b = Post()], each bound to the other by a foreign
    key and neither with a field set: what [a._post.set(b)] and
    [b.author.set(a)] leave in the two [_ho_join_to]. *)
Definition joined_in_a_cycle : World DB :=
after two_persons
  (a ← __init__ (person_env []) "actor.person" [];
   b ← __init__ (person_env []) "blog.post" [];
   update_relation a (with_join_to {[ (a, post_fkey) := b ]});;
   update_relation b (with_join_to {[ (b, "author") := a ]})).

(** [a = Person()] and [b = Post()], with [b] alone bound to [a]: what
    [b.author.set(a)] leaves in [b._ho_join_to]. *)
Definition joined_back : World DB :=
after two_persons
  (a ← __init__ (person_env []) "actor.person" [];
   b ← __init__ (person_env []) "blog.post" [];
   update_relation b (with_join_to {[ (b, "author") := a ]})).

(** A rendering of a set field for the [where] clause: the column of the
    aliased relation compared with one placeholder. *)
Definition column_equals (f : Field.t) (query_type : string) (rel_id_ : nat)
  : string :=
"r" +:+ pretty rel_id_ +:+ "." +:+ Field.name f +:+ " = %s".

End halftest.

(** * Properties *)

(** ** Python values *)

Module Py_facts.
Import Py.

Lemma PyVal_eqb_eq (a b : PyVal) : PyVal_eqb a b = true <-> a = b.
Proof.
  revert b. induction a as [| |x|x|x|l IH|l IH|x] using PyVal_nested_ind;
    intros [| |y|y|y|m|m|y]; simpl; try (split; [discriminate|congruence]);
    try (split; congruence).
  - rewrite Bool.eqb_true_iff. split; congruence.
  - rewrite Z.eqb_eq. split; congruence.
  - rewrite String.eqb_eq. split; congruence.
  - revert m. induction IH as [|x l Hx _ IHl]; intros [|y m]; simpl;
      try (split; [discriminate|congruence]); try (split; congruence).
    rewrite andb_true_iff, Hx.
    specialize (IHl m). simpl in IHl. rewrite IHl. split.
    + intros [-> [= ->]]. reflexivity.
    + intros [= -> ->]. split; reflexivity.
  - revert m. induction IH as [|x l Hx _ IHl]; intros [|y m]; simpl;
      try (split; [discriminate|congruence]); try (split; congruence).
    rewrite andb_true_iff, Hx.
    specialize (IHl m). simpl in IHl. rewrite IHl. split.
    + intros [-> [= ->]]. reflexivity.
    + intros [= -> ->]. split; reflexivity.
  - rewrite Nat.eqb_eq. split; congruence.
Qed.

(** A non-zero integer is true, zero is false. *)
Lemma truthy_int (n : Z) : truthy (PyInt n) = negb (n =? 0).
Proof. reflexivity. Qed.

End Py_facts.

(** ** The store monad *)

Module Eff_facts.
Import Eff.

Lemma bind_ok {S A B} (m : M S A) (k : A -> M S B) (s s' : S) (a : A) :
  m s = (s', inr a) -> (m ≫= k) s = k a s'.
Proof. intros H. unfold mbind, M_bind, bind. rewrite H. reflexivity. Qed.

Lemma bind_raise {S A B} (m : M S A) (k : A -> M S B) (s s' : S) (e : Exc) :
  m s = (s', inl e) -> (m ≫= k) s = (s', inl e).
Proof. intros H. unfold mbind, M_bind, bind. rewrite H. reflexivity. Qed.

Lemma ret_run {S A} (a : A) (s : S) : ret a s = (s, inr a).
Proof. reflexivity. Qed.

Lemma mret_run {S A} (a : A) (s : S) : (mret a : M S A) s = (s, inr a).
Proof. reflexivity. Qed.

End Eff_facts.

(** ** [halfORM/field.py] *)

Module halfORM_field_facts.
Import Py Eff Eff_facts halfORM_field.

Lemma the_field_run (s : Store) (self : nat) (f : Field) :
  objects s !! self = Some f -> the_field self s = (s, inr f).
Proof.
  intros H. unfold the_field. rewrite (bind_ok get _ s s s eq_refl).
  rewrite H. reflexivity.
Qed.

Lemma update_field_run (s : Store) (self : nat) (f : Field) (g : Field -> Field) :
  objects s !! self = Some f ->
  update_field self g s =
    ({| objects := <[self := g f]> (objects s); _joined_to := _joined_to s |},
     inr tt).
Proof.
  intros H. unfold update_field.
  rewrite (bind_ok _ _ _ _ _ (the_field_run s self f H)). reflexivity.
Qed.

Lemma lookup_updated (l : list Field) (self : nat) (f g : Field) :
  l !! self = Some f -> <[self := g]> l !! self = Some g.
Proof. intros H. apply list_lookup_insert_eq. eapply lookup_lt_Some, H. Qed.

(** The last three statements of [__set__] on a value that is no field. *)
Lemma set_tail_run (s s1 : Store) (self : nat) (f f1 : Field) (v c : PyVal) :
  objects s !! self = Some f ->
  objects s1 = <[self := f1]> (objects s) ->
  _joined_to s1 = _joined_to s ->
  (update_field self (set__is_set true);;
   update_field self (set_value v);; update_field self (set_comp c)) s1
  = ({| objects := <[self := set_comp c (set_value v (set__is_set true f1))]>
                     (objects s);
        _joined_to := _joined_to s |}, inr tt).
Proof.
  intros Hf Ho Hj.
  assert (H1 : objects s1 !! self = Some f1)
    by (rewrite Ho; eapply lookup_updated, Hf).
  rewrite (bind_ok _ _ _ _ _ (update_field_run s1 self f1 _ H1)).
  erewrite bind_ok; cycle 1.
  { apply update_field_run. cbn [objects]. eapply lookup_updated, H1. }
  erewrite update_field_run; cycle 1.
  { cbn [objects]. eapply lookup_updated. eapply lookup_updated, H1. }
  cbn [objects _joined_to]. rewrite Ho, Hj.
  rewrite !list_insert_insert_eq. reflexivity.
Qed.

Lemma set_pair_stores (s : Store) (self : nat) (f : Field) (obj : option nat)
    (v c : PyVal) :
  objects s !! self = Some f ->
  is_None c = false ->
  (is_NULL v = true -> eq_str c "is" || eq_str c "is not" = true) ->
  __set__ self obj (PyTuple [v; c]) s = (assigned s self f obj v c, inr tt).
Proof.
  intros Hf Hc Hnull. unfold __set__. cbn [is_None isinstance_Field negb].
  rewrite (bind_ok _ _ _ _ _ (update_field_run s self f _ Hf)).
  cbn [unpack]. erewrite bind_ok by apply ret_run. cbv beta iota zeta.
  rewrite Hc, andb_false_r. cbv iota. rewrite ?Hc.
  destruct (is_NULL v) eqn:Hv.
  - rewrite (Hnull eq_refl). cbn [assert_].
    erewrite bind_ok; cycle 1.
    { erewrite bind_ok by apply ret_run. apply ret_run. }
    eapply set_tail_run; [exact Hf|reflexivity|reflexivity].
  - erewrite bind_ok by apply ret_run.
    eapply set_tail_run; [exact Hf|reflexivity|reflexivity].
Qed.

(** A pair whose value is [NULL] and whose comparator is neither [is] nor
    [is not] fails the assertion; the owner has been recorded by then. *)
Lemma set_pair_NULL_asserts (s : Store) (self : nat) (f : Field)
    (obj : option nat) (c : PyVal) :
  objects s !! self = Some f ->
  is_None c = false ->
  eq_str c "is" || eq_str c "is not" = false ->
  __set__ self obj (PyTuple [PyNULL; c]) s =
    ({| objects := <[self := set_relation obj f]> (objects s);
        _joined_to := _joined_to s |}, inl AssertionError).
Proof.
  intros Hf Hc Hcmp. unfold __set__. cbn [is_None isinstance_Field negb].
  rewrite (bind_ok _ _ _ _ _ (update_field_run s self f _ Hf)).
  cbn [unpack]. erewrite bind_ok by apply ret_run. cbv beta iota zeta.
  cbn [is_NULL andb]. rewrite Hc. rewrite Hcmp. cbn [assert_].
  erewrite bind_raise; [reflexivity|].
  erewrite bind_raise; reflexivity.
Qed.

(** A list is stored as it is, under the comparator [=]. *)
Lemma set_list_stores (s : Store) (self : nat) (f : Field) (obj : option nat)
    (l : list PyVal) :
  objects s !! self = Some f ->
  __set__ self obj (PyList l) s =
    (assigned s self f obj (PyList l) (PyStr "="), inr tt).
Proof.
  intros Hf. unfold __set__. cbn [is_None isinstance_Field negb].
  rewrite (bind_ok _ _ _ _ _ (update_field_run s self f _ Hf)).
  cbn [unpack]. erewrite bind_ok by apply ret_run. cbv beta iota zeta.
  cbn [is_NULL is_None andb]. erewrite bind_ok by apply ret_run.
  eapply set_tail_run; [exact Hf|reflexivity|reflexivity].
Qed.

(** C6 (amended). Assigning [None] to a field is a no-op: [__set__] returns
    at once and the store is the same, so a field that was never constrained
    stays not set and a constraint set before stays in place, with its value
    and comparator; the column is not constrained to SQL NULL either. *)
Theorem set_None_changes_nothing (s : Store) (self : nat) (obj : option nat) :
  __set__ self obj PyNone s = (s, inr tt) /\
  objects (__set__ self obj PyNone s).1 !! self = objects s !! self.
Proof. split; reflexivity. Qed.

(** C6, as stated, fails: [first_name] is set to ['jojo'], then assigned
    [None]; it is still set, to ['jojo'] with [=]. *)
Lemma set_None_after_jojo_still_set :
  let s := ((__set__ 0 (Some 7%nat) (PyStr "jojo");;
             __set__ 0 (Some 7%nat) PyNone) halftest.post_fields).1 in
  _is_set <$> objects s !! 0%nat = Some true /\
  value <$> objects s !! 0%nat = Some (PyStr "jojo") /\
  comp <$> objects s !! 0%nat = Some (PyStr "=").
Proof. vm_compute. repeat split. Qed.

(** C7 (amended). In the assignment of a 2-tuple the first component is the
    value and the second the comparator, and the comparator is checked
    against no closed set. With a value other than [NULL] any comparator
    (other than [None]) is stored as it is given and the assignment
    succeeds. Only [NULL] is checked: with [is] or [is not] it is stored,
    with any other comparator the assignment fails, on an
    [AssertionError]. *)
Theorem set_pair_checks_NULL_only (s : Store) (self : nat) (f : Field)
    (obj : option nat) (v c : PyVal) :
  objects s !! self = Some f ->
  is_None c = false ->
  (is_NULL v = false ->
     __set__ self obj (PyTuple [v; c]) s = (assigned s self f obj v c, inr tt)) /\
  (is_NULL v = true -> eq_str c "is" || eq_str c "is not" = true ->
     __set__ self obj (PyTuple [v; c]) s = (assigned s self f obj v c, inr tt)) /\
  (is_NULL v = true -> eq_str c "is" || eq_str c "is not" = false ->
     (__set__ self obj (PyTuple [v; c]) s).2 = inl AssertionError).
Proof.
  intros Hf Hc. repeat split.
  - intros Hv. apply set_pair_stores; [exact Hf|exact Hc|].
    rewrite Hv. discriminate.
  - intros _ Hcmp. apply set_pair_stores; [exact Hf|exact Hc|].
    intros _. exact Hcmp.
  - intros Hv Hcmp. destruct v; try discriminate Hv.
    rewrite (set_pair_NULL_asserts s self f obj c Hf Hc Hcmp). reflexivity.
Qed.

Lemma set_pair_checks_NULL_only_witness :
  __set__ 1 (Some 3%nat) (PyTuple [PyInt 1; PyStr "foo"]) halftest.post_fields =
    (assigned halftest.post_fields 1 (__init__ "content" halftest.text)
       (Some 3%nat) (PyInt 1) (PyStr "foo"), inr tt) /\
  (__set__ 1 (Some 3%nat) (PyTuple [PyNULL; PyStr "="]) halftest.post_fields).2
    = inl AssertionError.
Proof.
  destruct (set_pair_checks_NULL_only halftest.post_fields 1
              (__init__ "content" halftest.text) (Some 3%nat)
              (PyInt 1) (PyStr "foo") eq_refl eq_refl) as [Hstore _].
  destruct (set_pair_checks_NULL_only halftest.post_fields 1
              (__init__ "content" halftest.text) (Some 3%nat)
              PyNULL (PyStr "=") eq_refl eq_refl) as [_ [_ Hfail]].
  split.
  - apply Hstore. reflexivity.
  - apply Hfail; reflexivity.
Defined.

(** C7, as stated, fails: the comparator ["foo"] is outside the closed set,
    and the pair is accepted in either order of its components; and the pair
    ['='] then [NULL], read as the value ['='] under the comparator [NULL],
    is accepted as well. *)
Lemma set_pair_foo_accepted :
  (__set__ 1 (Some 3%nat) (PyTuple [PyInt 1; PyStr "foo"]) halftest.post_fields).2
    = inr tt /\
  comp <$> objects (__set__ 1 (Some 3%nat) (PyTuple [PyInt 1; PyStr "foo"])
                      halftest.post_fields).1 !! 1%nat = Some (PyStr "foo") /\
  (__set__ 1 (Some 3%nat) (PyTuple [PyStr "foo"; PyInt 1]) halftest.post_fields).2
    = inr tt /\
  (__set__ 1 (Some 3%nat) (PyTuple [PyStr "="; PyNULL]) halftest.post_fields).2
    = inr tt.
Proof. vm_compute. repeat split. Qed.

(** C8 (amended). A field that holds a list or a tuple renders, against a
    column whose type is not an array type, [lhs comp any(%s)] for every
    comparator, [=] or not, inside [unaccent(..)] on both sides when the
    flag is set: the placeholder is [any(%s)], never [in (%s)]. Against an
    array type (a type name that starts with an underscore) the placeholder
    is [%s] alone. The single placeholder is bound to the sequence as the
    field holds it, and an assigned list is held as a list. *)
Theorem where_repr_sequence (str_other : PyVal -> string) (f : Field)
    (query : string) (id_ : Z) (c : string) (t0 : ascii) (t : string) :
  isinstance_list_tuple (value f) = true ->
  comp f = PyStr c ->
  type_ f = String t0 t ->
  where_repr str_other f query id_ =
    inr (let comp_str := if Ascii.eqb t0 "_" then "%s" else "any(%s)" in
         if unaccent f then
           "unaccent(" +:+ _praf f query id_ +:+ ") " +:+ c
             +:+ " unaccent(" +:+ comp_str +:+ ")"
         else _praf f query id_ +:+ " " +:+ c +:+ " " +:+ comp_str) /\
  _psycopg_adapter f = value f /\
  (forall s self f0 obj l, objects s !! self = Some f0 ->
     _psycopg_adapter
       <$> objects (__set__ self obj (PyList l) s).1 !! self
     = Some (PyList l)).
Proof.
  intros Hseq Hcomp Htype. repeat split.
  - unfold where_repr. rewrite Hseq, Htype, Hcomp. cbn [str_].
    destruct (Ascii.eqb t0 "_"), (unaccent f); reflexivity.
  - intros s self f0 obj l Hf0.
    rewrite (set_list_stores s self f0 obj l Hf0). cbn [fst assigned objects].
    rewrite (lookup_updated _ _ f0 _ Hf0). reflexivity.
Qed.

Lemma where_repr_sequence_witness :
  where_repr (fun _ => EmptyString) (halftest.content_with_list "=")
    "select" 12 = inr "r12.content = any(%s)".
Proof.
  apply (where_repr_sequence (fun _ => EmptyString)
           (halftest.content_with_list "=") "select" 12 "=" "t" "ext");
    reflexivity.
Defined.

(** C8, as stated, fails: with the comparator [!=] the list is rendered with
    [any(%s)] too, and [in (%s)] does not occur in the fragment. *)
Lemma where_repr_list_not_equal :
  where_repr (fun _ => EmptyString) (halftest.content_with_list "!=")
    "select" 12 = inr "r12.content != any(%s)" /\
  String.index 0 "in (%s)" "r12.content != any(%s)" = None /\
  String.index 0 "any(%s)" "r12.content != any(%s)" = Some 15%nat.
Proof. vm_compute. repeat split. Qed.

End halfORM_field_facts.

(** ** [half_orm/relation.py] *)

Module half_orm_relation_facts.
Import Py Eff Eff_facts half_orm_relation.

Section Engine_facts.

Context {DB : Type} (env : Env DB).

Implicit Types (w : World DB) (r : Relation) (self : nat).

Lemma get_run w : (get : M (World DB) (World DB)) w = (w, inr w).
Proof. reflexivity. Qed.

Lemma the_relation_run w self r :
  heap w !! self = Some r -> the_relation self w = (w, inr r).
Proof.
  intros H. unfold the_relation. rewrite (bind_ok _ _ _ _ _ (get_run w)).
  rewrite H. reflexivity.
Qed.

Lemma update_relation_run w self r (f : Relation -> Relation) :
  heap w !! self = Some r ->
  update_relation self f w =
    ({| heap := <[self := f r]> (heap w); db := db w; executed := executed w |},
     inr tt).
Proof.
  intros H. unfold update_relation.
  rewrite (bind_ok _ _ _ _ _ (the_relation_run w self r H)). reflexivity.
Qed.

(** **** [_ho_is_set] *)

Lemma or_all_false (f : nat -> Exc + bool) (l : list nat) :
  forallb (fun x => match f x with inr b => Bool.eqb false b | inl _ => false end) l
    = true ->
  or_all f l = inr false.
Proof.
  induction l as [|x l IH]; simpl; [reflexivity|].
  intros [Hx Hl]%andb_true_iff. destruct (f x) as [|[]]; try discriminate.
  rewrite (IH Hl). reflexivity.
Qed.

Lemma or_all_returns (f : nat -> Exc + bool) (l : list nat) :
  forallb (fun x => match f x with inr _ => true | inl _ => false end) l = true ->
  or_all f l =
    inr (existsb (fun x => match f x with inr b => b | inl _ => false end) l).
Proof.
  induction l as [|x l IH]; simpl; [reflexivity|].
  intros [Hx Hl]%andb_true_iff. destruct (f x) as [|b]; try discriminate.
  rewrite (IH Hl). reflexivity.
Qed.

Lemma _ho_is_set_unconstrained depth (h : Heap) self r :
  h !! self = Some r ->
  unconstrained depth h r = true ->
  _ho_is_set (S depth) h self = inr false.
Proof.
  intros Hr [[Hf Hj]%andb_true_iff [Ho Hn]%andb_true_iff]%andb_true_iff.
  cbn [_ho_is_set]. rewrite Hr.
  rewrite or_all_false by exact Hj.
  apply negb_true_iff in Ho, Hn. rewrite Ho, Hn.
  unfold no_field_set in Hf.
  replace (existsb Field.is_set (_ho_fields r).*2) with false; [reflexivity|].
  symmetry. apply not_true_iff_false. intros (f & Hin & Hset)%existsb_exists.
  rewrite forallb_forall in Hf. specialize (Hf f Hin).
  rewrite Hset in Hf. discriminate.
Qed.

Lemma _ho_is_set_constrained depth (h : Heap) self r :
  h !! self = Some r ->
  constrained depth h r = true ->
  _ho_is_set (S depth) h self = inr true.
Proof.
  intros Hr [Hall Hsome]%andb_true_iff.
  cbn [_ho_is_set]. rewrite Hr.
  rewrite or_all_returns; cycle 1.
  { rewrite forallb_forall in Hall |- *. intros x Hx.
    specialize (Hall x Hx). unfold answers in Hall.
    destruct (_ho_is_set depth h x); [discriminate|reflexivity]. }
  f_equal.
  apply orb_true_iff in Hsome as [[Hf|Hj]%orb_true_iff|Ho].
  - replace (existsb Field.is_set (_ho_fields r).*2) with true;
      [apply orb_true_r|].
    symmetry. unfold no_field_set in Hf. apply negb_true_iff in Hf.
    apply not_false_iff_true. intros Hex. apply not_true_iff_false in Hf.
    apply Hf. apply forallb_forall. intros f Hin.
    apply negb_true_iff, not_true_iff_false. intros Hset.
    apply not_true_iff_false in Hex. apply Hex, existsb_exists. eauto.
  - replace (existsb _ (map_to_list (_ho_join_to r)).*2) with true;
      [reflexivity|].
    symmetry. apply existsb_exists.
    apply existsb_exists in Hj as (x & Hx & Ha). exists x. split; [exact Hx|].
    unfold answers in Ha. destruct (_ho_is_set depth h x) as [|[]];
      [discriminate|reflexivity|discriminate].
  - unfold no_set_operator in Ho. apply negb_true_iff, andb_false_iff in Ho.
    destruct Ho as [Ho|Ho]; apply negb_false_iff in Ho; rewrite Ho;
      rewrite ?orb_true_r; reflexivity.
Qed.

(** **** Computations that do not raise a given [RuntimeError] *)

Lemma spares_ret {A} msg (a : A) : spares (DB := DB) msg (ret a).
Proof. intros w. discriminate. Qed.

Lemma spares_bind {A B} msg (m : M (World DB) A) (k : A -> M (World DB) B) :
  spares msg m -> (forall a, spares (DB := DB) msg (k a)) ->
  spares (DB := DB) msg (m ≫= k).
Proof.
  intros Hm Hk w. unfold mbind, M_bind, bind.
  specialize (Hm w). destruct (m w) as [w' [e|a]]; [|apply Hk].
  cbn in *. intros [= ->]. apply Hm. reflexivity.
Qed.

Lemma spares_the_relation msg self : spares (DB := DB) msg (the_relation self).
Proof.
  intros w. unfold the_relation. rewrite (bind_ok _ _ _ _ _ (get_run w)).
  destruct (heap w !! self); discriminate.
Qed.

Lemma spares_update_relation msg self (f : Relation -> Relation) :
  spares (DB := DB) msg (update_relation self f).
Proof.
  apply spares_bind; [apply spares_the_relation|]. intros r w. discriminate.
Qed.

Lemma spares_execute msg (stmt : Stmt) : spares (DB := DB) msg (__execute env stmt).
Proof.
  intros w. unfold __execute.
  destruct (cursor_execute env (db w) stmt) as [d1 [[| |m]|rows]];
    try discriminate;
    destruct (cursor_execute env (ping env d1) stmt) as [d2 [e|rows]];
    discriminate.
Qed.

Lemma Field_set_raises_ValueError (f : Field.t) (v : PyVal) (e : Exc) :
  Field._set f v = inl e -> exists msg, e = ValueError msg.
Proof.
  unfold Field._set. intros H.
  repeat match type of H with
         | inr _ = inl _ => discriminate H
         | inl _ = inl _ => injection H as <-; eexists; reflexivity
         | context [match ?x with _ => _ end] => destruct x
         end.
Qed.

Lemma spares_field__set msg self (field_name : string) (value : PyVal) :
  spares (DB := DB) msg (field__set self field_name value).
Proof.
  apply spares_bind; [apply spares_the_relation|]. intros r.
  destruct (field_lookup field_name (_ho_fields r)) as [f|];
    [|intros w; discriminate].
  apply spares_bind; [|intros; apply spares_update_relation].
  intros w. unfold lift.
  destruct (Field._set f value) as [e|f'] eqn:E; [|discriminate].
  apply Field_set_raises_ValueError in E as [m ->]. discriminate.
Qed.

Lemma spares_for {A} msg (l : list A) (body : A -> M (World DB) unit) :
  (forall x, spares (DB := DB) msg (body x)) -> spares (DB := DB) msg (for_ l body).
Proof.
  intros Hb. induction l as [|x l IH]; cbn [for_].
  - apply spares_ret.
  - apply (spares_bind msg (body x) (fun _ => for_ l body)); [apply Hb|].
    intros _. exact IH.
Qed.

(** The message of [__get_query] starts with [self], the barriers with
    [Attempt]. *)
Lemma spares_get_query msg self :
  String.get 0 msg = Some "A"%char -> spares (DB := DB) msg (__get_query self).
Proof.
  intros Hmsg. apply spares_bind; [apply spares_the_relation|]. intros r.
  destruct (list_find _ (_ho_fkeys_attr r)) as [[i [fkey_name cls]]|];
    [|apply spares_ret].
  intros w [= <-]. discriminate Hmsg.
Qed.

(** **** The safety barrier *)

Lemma is_set_now_run w self (b : bool) :
  _ho_is_set (recursion_limit env) (heap w) self = inr b ->
  is_set_now env self w = (w, inr b).
Proof.
  intros H. unfold is_set_now. rewrite (bind_ok _ _ _ _ _ (get_run w)).
  rewrite H. reflexivity.
Qed.

Lemma update_refused w self r args kwargs :
  heap w !! self = Some r ->
  _ho_is_set (recursion_limit env) (heap w) self = inr false ->
  _ho_update env self args false kwargs w =
    (w, inl (RuntimeError (update_barrier (class_ r)))).
Proof.
  intros Hr Hset. unfold _ho_update.
  rewrite (bind_ok _ _ _ _ _ (the_relation_run w self r Hr)).
  rewrite (bind_ok _ _ _ _ _ (is_set_now_run w self false Hset)).
  reflexivity.
Qed.

Lemma delete_refused w self r args :
  heap w !! self = Some r ->
  _ho_is_set (recursion_limit env) (heap w) self = inr false ->
  _ho_delete env self args false w =
    (w, inl (RuntimeError (delete_barrier (class_ r)))).
Proof.
  intros Hr Hset. unfold _ho_delete.
  rewrite (bind_ok _ _ _ _ _ (the_relation_run w self r Hr)).
  rewrite (bind_ok _ _ _ _ _ (is_set_now_run w self false Hset)).
  reflexivity.
Qed.

Lemma update_passes w self r args (update_all b : bool) kwargs :
  heap w !! self = Some r ->
  _ho_is_set (recursion_limit env) (heap w) self = inr b ->
  b || update_all = true ->
  _ho_update env self args update_all kwargs w = update_body env self r args kwargs w.
Proof.
  intros Hr Hset Hpass. unfold _ho_update.
  rewrite (bind_ok _ _ _ _ _ (the_relation_run w self r Hr)).
  rewrite (bind_ok _ _ _ _ _ (is_set_now_run w self b Hset)).
  rewrite Hpass. reflexivity.
Qed.

Lemma delete_passes w self r args (delete_all b : bool) :
  heap w !! self = Some r ->
  _ho_is_set (recursion_limit env) (heap w) self = inr b ->
  b || delete_all = true ->
  _ho_delete env self args delete_all w = delete_body env self r args w.
Proof.
  intros Hr Hset Hpass. unfold _ho_delete.
  rewrite (bind_ok _ _ _ _ _ (the_relation_run w self r Hr)).
  rewrite (bind_ok _ _ _ _ _ (is_set_now_run w self b Hset)).
  rewrite Hpass. reflexivity.
Qed.

Lemma spares_update_body msg self r args kwargs :
  spares (DB := DB) msg (update_body env self r args kwargs).
Proof.
  unfold update_body. destruct (filter _ kwargs) as [|kv l].
  - apply spares_ret.
  - apply spares_bind; [intros w; discriminate|]. intros w0.
    apply spares_bind; [apply spares_execute|]. intros rows.
    apply spares_bind.
    + apply spares_for. intros x. apply spares_field__set.
    + intros _. destruct args; apply spares_ret.
Qed.

Lemma spares_delete_body msg self r args :
  String.get 0 msg = Some "A"%char -> spares (DB := DB) msg (delete_body env self r args).
Proof.
  intros Hmsg. unfold delete_body.
  apply spares_bind; [apply spares_get_query, Hmsg|]. intros _.
  apply spares_bind; [intros w; discriminate|]. intros w0.
  apply spares_bind; [apply spares_execute|]. intros rows.
  destruct args; apply spares_ret.
Qed.

(** **** Computations that send nothing to the server *)










End Engine_facts.

(** **** [update] and [delete] *)

(** X24. As long as [_ho_is_set] returns on every relation joined to the
    receiver, which no join may lead back to: on a relation on which no
    field is set, every joined relation is found not set and no set
    operator applies, [update] without [update_all] and [delete] without
    [delete_all] raise the safety barrier and leave the world as it is;
    with the flag set they do not raise it; and on a relation on which a
    field is set, a joined relation is found set, or a set operator or a
    negation applies, neither raises it, whatever the flag. *)
Theorem safety_barrier {DB : Type} (env : Env DB) (w : World DB) (self : nat)
    (r : Relation) (depth : nat) (args : list string)
    (kwargs : list (string * PyVal)) :
  heap w !! self = Some r ->
  recursion_limit env = S depth ->
  (unconstrained depth (heap w) r = true ->
     _ho_update env self args false kwargs w =
       (w, inl (RuntimeError (update_barrier (class_ r)))) /\
     _ho_delete env self args false w =
       (w, inl (RuntimeError (delete_barrier (class_ r)))) /\
     (_ho_update env self args true kwargs w).2
       <> inl (RuntimeError (update_barrier (class_ r))) /\
     (_ho_delete env self args true w).2
       <> inl (RuntimeError (delete_barrier (class_ r)))) /\
  (constrained depth (heap w) r = true ->
     forall all_rows : bool,
       (_ho_update env self args all_rows kwargs w).2
         <> inl (RuntimeError (update_barrier (class_ r))) /\
       (_ho_delete env self args all_rows w).2
         <> inl (RuntimeError (delete_barrier (class_ r)))).
Proof.
  intros Hr Hdepth. split.
  - intros Hun.
    pose proof (_ho_is_set_unconstrained depth (heap w) self r Hr Hun) as Hset.
    rewrite <- Hdepth in Hset. repeat split.
    + apply update_refused; assumption.
    + apply delete_refused; assumption.
    + rewrite (update_passes env w self r args true false kwargs Hr Hset eq_refl).
      apply spares_update_body.
    + rewrite (delete_passes env w self r args true false Hr Hset eq_refl).
      apply spares_delete_body. reflexivity.
  - intros Hcon all_rows.
    pose proof (_ho_is_set_constrained depth (heap w) self r Hr Hcon) as Hset.
    rewrite <- Hdepth in Hset. split.
    + rewrite (update_passes env w self r args all_rows true kwargs Hr Hset eq_refl).
      apply spares_update_body.
    + rewrite (delete_passes env w self r args all_rows true Hr Hset eq_refl).
      apply spares_delete_body. reflexivity.
Qed.

Lemma safety_barrier_witness :
  _ho_update (halftest.person_env []) 0 [] false [("last_name", PyStr "x")]
    halftest.all_persons =
    (halftest.all_persons,
     inl (RuntimeError (update_barrier "actor.person"))) /\
  (_ho_delete (halftest.person_env []) 0 [] false halftest.person_ab).2
    <> inl (RuntimeError (delete_barrier "actor.person")).
Proof.
  split.
  - apply (safety_barrier (halftest.person_env []) halftest.all_persons 0 _
             999 [] [("last_name", PyStr "x")] eq_refl eq_refl).
    vm_compute. reflexivity.
  - apply (safety_barrier (halftest.person_env []) halftest.person_ab 0 _
             999 [] [] eq_refl eq_refl).
    vm_compute. reflexivity.
Defined.

(** C3, at its failing input. [a = Person()] and [b = Post()] are bound to
    each other by their foreign keys; no field is set on either and no set
    operator applies to either, so neither foreign key leads to a
    constraint. [_ho_is_set] follows the joins from [a] to [b] and back
    until the interpreter stops it: [update] and [delete] on [a] raise
    [RecursionError], not the safety barrier, and raise it with the flag
    set as well, where they should run. The same happens through a set
    operator alone: with [b] bound to [a] only, [delete] on [a] raises the
    barrier, and after [a & b], which writes the join of [b] into [a], it
    raises [RecursionError]. *)
Theorem barrier_lost_in_join_cycle :
  Forall (fun self =>
            (fun r => no_field_set r && no_set_operator r)
              <$> heap halftest.joined_in_a_cycle !! self = Some true)
    [0%nat; 1%nat] /\
  Forall (fun all_rows : bool =>
            _ho_update (halftest.person_env []) 0 [] all_rows
              [("last_name", PyStr "x")] halftest.joined_in_a_cycle =
              (halftest.joined_in_a_cycle, inl RecursionError) /\
            _ho_delete (halftest.person_env []) 0 [] all_rows
              halftest.joined_in_a_cycle =
              (halftest.joined_in_a_cycle, inl RecursionError))
    [false; true] /\
  _ho_delete (halftest.person_env []) 0 [] false halftest.joined_back =
    (halftest.joined_back, inl (RuntimeError (delete_barrier "actor.person"))) /\
  (_ho_delete (halftest.person_env []) 0 [] false
     (__and__ (halftest.person_env []) 0 1 halftest.joined_back).1).2 =
    inl RecursionError.
Proof.
  split; [repeat constructor|].
  split; [repeat constructor; vm_compute; reflexivity|].
  split; vm_compute; reflexivity.
Qed.




(** **** [insert] *)

(** C9. When the execution of the statement returns no row, [insert]
    returns an empty mapping, neither [None] nor an error; when it returns
    rows, [insert] returns the first of them. The world is left as the
    execution left it. *)
Theorem insert_returns_first_row {DB : Type} (env : Env DB) (w : World DB)
    (self : nat) (r : Relation) (args : list string) (rows : list Row) :
  heap w !! self = Some r ->
  (__execute env (insert_query env (heap w) self r args) w).2 = inr rows ->
  (rows = [] -> (_ho_insert env self args w).2 = inr []) /\
  (forall row rest, rows = row :: rest ->
     (_ho_insert env self args w).2 = inr row) /\
  (_ho_insert env self args w).1 =
    (__execute env (insert_query env (heap w) self r args) w).1.
Proof.
  intros Hr Hexec.
  destruct (__execute env (insert_query env (heap w) self r args) w)
    as [w' res] eqn:E.
  cbn in Hexec. subst res.
  assert (H : _ho_insert env self args w =
              (w', match rows with [] => inr [] | row :: _ => inr row end)).
  { unfold _ho_insert.
    rewrite (bind_ok _ _ _ _ _ (the_relation_run w self r Hr)).
    rewrite (bind_ok _ _ _ _ _ (get_run w)).
    rewrite (bind_ok _ _ _ _ _ E).
    destruct rows; reflexivity. }
  rewrite H. repeat split.
  - intros ->. reflexivity.
  - intros row rest ->. reflexivity.
Qed.

Lemma insert_returns_first_row_witness :
  (_ho_insert (halftest.person_env []) 0 [] halftest.person_ab).2 = inr [] /\
  (_ho_insert (halftest.person_env [halftest.person 3 "ab" "ab"]) 0 ["id"]
     halftest.person_ab).2 = inr (halftest.person 3 "ab" "ab").
Proof.
  split.
  - apply (insert_returns_first_row (halftest.person_env [])
             halftest.person_ab 0 _ [] [] eq_refl); reflexivity.
  - apply (insert_returns_first_row
             (halftest.person_env [halftest.person 3 "ab" "ab"])
             halftest.person_ab 0 _ ["id"] [halftest.person 3 "ab" "ab"]
             eq_refl eq_refl) with (rest := []).
    reflexivity.
Defined.

(** **** The [limit] modifier *)

Lemma with_select_params_same r : with_select_params (select_params r) r = r.
Proof. destruct r. reflexivity. Qed.

(** C10. [limit] called with [0], or with any value that is false, removes
    the limit from the select parameters, so that no [limit] is rendered;
    called with a non-zero [n] it sets the limit to [n]. It returns the
    receiver in both cases, and changes nothing else. *)
Theorem limit_sets_or_removes {DB : Type} (w : World DB) (self : nat)
    (r : Relation) :
  heap w !! self = Some r ->
  (forall _limit_, truthy _limit_ = false ->
     _ho_limit self _limit_ w =
       (with_params w self r (delete "limit" (select_params r)), inr self)) /\
  _ho_limit self (PyInt 0) w =
    (with_params w self r (delete "limit" (select_params r)), inr self) /\
  (forall n, n <> 0 ->
     _ho_limit self (PyInt n) w =
       (with_params w self r (<["limit" := PyInt n]> (select_params r)),
        inr self)) /\
  (forall _limit_, truthy _limit_ = true ->
     _ho_limit self _limit_ w =
       (with_params w self r (<["limit" := _limit_]> (select_params r)),
        inr self)).
Proof.
  intros Hr.
  assert (Hfalse : forall _limit_, truthy _limit_ = false ->
     _ho_limit self _limit_ w =
       (with_params w self r (delete "limit" (select_params r)), inr self)).
  { intros v Hv. unfold _ho_limit. rewrite Hv.
    destruct (select_params r !! "limit") as [old|] eqn:Hold.
    - erewrite bind_ok; cycle 1.
      { rewrite (bind_ok _ _ _ _ _ (the_relation_run w self r Hr)).
        rewrite Hold. rewrite bool_decide_eq_true_2 by eauto.
        apply update_relation_run. exact Hr. }
      reflexivity.
    - erewrite bind_ok; cycle 1.
      { rewrite (bind_ok _ _ _ _ _ (the_relation_run w self r Hr)).
        rewrite Hold. rewrite bool_decide_eq_false_2 by (intros [? [=]]).
        apply ret_run. }
      unfold with_params. rewrite delete_id by exact Hold.
      rewrite with_select_params_same.
      rewrite list_insert_id by exact Hr. destruct w; reflexivity. }
  assert (Htrue : forall _limit_, truthy _limit_ = true ->
     _ho_limit self _limit_ w =
       (with_params w self r (<["limit" := _limit_]> (select_params r)),
        inr self)).
  { intros v Hv. unfold _ho_limit. rewrite Hv.
    rewrite (bind_ok _ _ _ _ _ (update_relation_run w self r _ Hr)).
    reflexivity. }
  repeat split.
  - exact Hfalse.
  - apply Hfalse. reflexivity.
  - intros n Hn. apply Htrue. cbn [truthy].
    apply negb_true_iff, Z.eqb_neq, Hn.
  - exact Htrue.
Qed.

Lemma limit_sets_or_removes_witness :
  (_ho_limit 0 (PyInt 0) halftest.person_ab_limit_5).2 = inr 0%nat /\
  select_params <$> heap (_ho_limit 0 (PyInt 0) halftest.person_ab_limit_5).1
    !! 0%nat = Some ∅ /\
  select_params <$> heap (_ho_limit 0 (PyInt 3) halftest.person_ab_limit_5).1
    !! 0%nat = Some {[ "limit" := PyInt 3 ]}.
Proof.
  destruct (limit_sets_or_removes halftest.person_ab_limit_5 0 _ eq_refl)
    as (_ & Hzero & Hn & _).
  rewrite Hzero, (Hn 3) by lia.
  vm_compute. repeat split.
Defined.

(** After [limit(0)] the select statement carries no limit. *)
Lemma limit_0_renders_no_limit :
  let w := (_ho_limit 0 (PyInt 0) halftest.person_ab_limit_5).1 in
  (fun r => _ho_prep_select (heap w) 0 r []) <$> heap w !! 0%nat =
    Some (Select (heap w) 0 [] false None None None).
Proof. vm_compute. reflexivity. Qed.

(** **** [is_empty] and [get] *)

Lemma get_query_run {DB : Type} (w : World DB) (self : nat) (r : Relation) :
  heap w !! self = Some r ->
  list_find (fun kv => kv.2 ≠ "FKey") (_ho_fkeys_attr r) = None ->
  __get_query self w = (w, inr tt).
Proof.
  intros Hr Hfk. unfold __get_query.
  rewrite (bind_ok _ _ _ _ _ (the_relation_run w self r Hr)).
  rewrite Hfk. reflexivity.
Qed.

(** What [_ho_is_empty] returns while the connection holds and the aliases
    of the foreign keys are intact: whether the number of distinct rows
    differs from one. *)
Lemma _ho_is_empty_run {DB : Type} (env : Env DB) (w : World DB) (self : nat)
    (r : Relation) :
  heap w !! self = Some r ->
  list_find (fun kv => kv.2 ≠ "FKey") (_ho_fkeys_attr r) = None ->
  broken env (db w) = false ->
  _ho_is_empty env self w =
    ({| heap := heap w; db := db w;
        executed := (executed w ++ [Count (heap w) self true])%list |},
     inr (negb (Z.of_nat (length (distinct (from_where env (db w) (heap w) self)))
                =? 1))).
Proof.
  intros Hr Hfk Hb. unfold _ho_is_empty.
  rewrite (bind_ok _ _ _ _ _ (get_query_run w self r Hr Hfk)).
  rewrite (bind_ok _ _ _ _ _ (get_run w)).
  erewrite bind_ok; cycle 1.
  { unfold __execute, cursor_execute. rewrite Hb. reflexivity. }
  reflexivity.
Qed.

(** What [len] returns in the same conditions: the number of distinct
    rows. *)
Lemma len_run {DB : Type} (env : Env DB) (w : World DB) (self : nat)
    (r : Relation) :
  heap w !! self = Some r ->
  list_find (fun kv => kv.2 ≠ "FKey") (_ho_fkeys_attr r) = None ->
  broken env (db w) = false ->
  len env self w =
    ({| heap := heap w; db := db w;
        executed := (executed w ++ [Count (heap w) self false])%list |},
     inr (Z.of_nat (length (distinct (from_where env (db w) (heap w) self))))).
Proof.
  intros Hr Hfk Hb. unfold len, __len__.
  erewrite bind_ok; cycle 1.
  { rewrite (bind_ok _ _ _ _ _ (get_query_run w self r Hr Hfk)).
    rewrite (bind_ok _ _ _ _ _ (get_run w)).
    erewrite bind_ok; cycle 1.
    { unfold __execute, cursor_execute. rewrite Hb. reflexivity. }
    reflexivity. }
  cbv beta iota.
  destruct (Z.ltb_spec (Z.of_nat (length (distinct
              (from_where env (db w) (heap w) self)))) 0); [lia|reflexivity].
Qed.

(** C1, at its failing input. The table holds two persons and the relation
    is [Person()]: the count is 2, and [_ho_is_empty] answers [True]. *)
Theorem is_empty_true_with_two_rows :
  (len (halftest.person_env []) 0 halftest.all_persons).2 = inr 2 /\
  (_ho_is_empty (halftest.person_env []) 0 halftest.all_persons).2 = inr true.
Proof. vm_compute. split; reflexivity. Qed.

(** [get] raises [ExpectedOneError], with the count, whenever the count is
    not one. *)
Lemma get_expects_one {DB : Type} (env : Env DB) (w w1 : World DB)
    (self : nat) (args : list string) (n : Z) :
  len env self w = (w1, inr n) -> n <> 1 ->
  _ho_get env self args w = (w1, inl (ExpectedOneError self n)).
Proof.
  intros Hlen Hn. unfold _ho_get. rewrite (bind_ok _ _ _ _ _ Hlen).
  apply Z.eqb_neq in Hn. rewrite Hn. reflexivity.
Qed.

Lemma prefix_append (a b : string) : String.prefix a (a +:+ b) = true.
Proof.
  induction a as [|c a IH]; simpl.
  - destruct b; reflexivity.
  - destruct (ascii_dec c c); [exact IH|congruence].
Qed.

Lemma append_assoc (a b c : string) : (a +:+ b) +:+ c = a +:+ (b +:+ c).
Proof.
  induction a as [|x a IH]; [reflexivity|].
  change (String x ((a +:+ b) +:+ c) = String x (a +:+ (b +:+ c))).
  rewrite IH. reflexivity.
Qed.

(** The count is in the message, after the words [Expected 1, got]. *)
Lemma ExpectedOneError_message_count (relation_repr : string) (n : Z) :
  String.prefix ("Expected 1, got " +:+ str_int n)
    (relation_errors.ExpectedOneError_message relation_repr n) = true.
Proof.
  unfold relation_errors.ExpectedOneError_message.
  rewrite <- (append_assoc "Expected 1, got " (str_int n)).
  apply prefix_append.
Qed.

(** With one row, [get] marks the receiver, takes the first row the select
    yields, builds a relation of the same class from it and marks it. *)
Lemma get_one {DB : Type} (env : Env DB) (w w1 w2 w3 : World DB)
    (self new : nat) (r rnew : Relation) (args : list string)
    (row : Row) (rest : list Row) :
  len env self w = (w1, inr 1) ->
  heap w1 !! self = Some r ->
  _ho_select env self args
    {| heap := <[self := with_is_singleton true r]> (heap w1); db := db w1;
       executed := executed w1 |} = (w2, inr (row :: rest)) ->
  __call__ env self row w2 = (w3, inr new) ->
  heap w3 !! new = Some rnew ->
  _ho_get env self args w =
    ({| heap := <[new := with_is_singleton true rnew]> (heap w3); db := db w3;
        executed := executed w3 |}, inr new).
Proof.
  intros Hlen Hr Hsel Hcall Hnew. unfold _ho_get.
  rewrite (bind_ok _ _ _ _ _ Hlen). cbn [Z.eqb Pos.eqb negb].
  rewrite (bind_ok _ _ _ _ _ (update_relation_run w1 self r _ Hr)).
  rewrite (bind_ok _ _ _ _ _ Hsel). cbn [next].
  erewrite bind_ok by apply ret_run.
  rewrite (bind_ok _ _ _ _ _ Hcall).
  rewrite (bind_ok _ _ _ _ _ (update_relation_run w3 new rnew _ Hnew)).
  reflexivity.
Qed.

(** With one row counted and none yielded by the select, [get] raises
    [StopIteration]. *)
Lemma get_stops {DB : Type} (env : Env DB) (w w1 w2 : World DB)
    (self : nat) (r : Relation) (args : list string) :
  len env self w = (w1, inr 1) ->
  heap w1 !! self = Some r ->
  _ho_select env self args
    {| heap := <[self := with_is_singleton true r]> (heap w1); db := db w1;
       executed := executed w1 |} = (w2, inr []) ->
  _ho_get env self args w = (w2, inl StopIteration).
Proof.
  intros Hlen Hr Hsel. unfold _ho_get.
  rewrite (bind_ok _ _ _ _ _ Hlen). cbn [Z.eqb Pos.eqb negb].
  rewrite (bind_ok _ _ _ _ _ (update_relation_run w1 self r _ Hr)).
  rewrite (bind_ok _ _ _ _ _ Hsel). reflexivity.
Qed.

(** C2, at its failing input. The relation is
    [Person(last_name='ab')._ho_offset(1)] and one person is named [ab]: the
    count is 1, the select skips the row, and [get] raises
    [StopIteration]. *)
Theorem get_raises_StopIteration_behind_offset :
  (len (halftest.person_env []) 0 halftest.person_ab_offset_1).2 = inr 1 /\
  (_ho_get (halftest.person_env []) 0 [] halftest.person_ab_offset_1).2
    = inl StopIteration.
Proof. vm_compute. split; reflexivity. Qed.

(** Without the offset the same call returns a new relation of the same
    class, marked as a singleton, whose fields hold the row. *)
Lemma get_person_ab :
  let out := _ho_get (halftest.person_env []) 0 [] halftest.person_ab in
  out.2 = inr 1%nat /\
  class_ <$> heap out.1 !! 1%nat = Some "actor.person" /\
  _ho_is_singleton <$> heap out.1 !! 1%nat = Some true /\
  (fun r => (fun kv => (kv.1, Field.value kv.2)) <$> _ho_fields r)
    <$> heap out.1 !! 1%nat = Some (halftest.person 2 "ab" "ab").
Proof. vm_compute. repeat split. Qed.

(** **** Set operators *)

(** A successful [__init__] appends one relation to the heap and touches
    nothing else. *)
Lemma init_inv {DB : Type} (env : Env DB) (w w1 : World DB) (cls : string)
    (kwargs : list (string * PyVal)) (new : nat) :
  __init__ env cls kwargs w = (w1, inr new) ->
  new = length (heap w) /\
  exists fields fkeys_attr,
    w1 = {| heap := (heap w ++
                       [built cls (length (heap w)) fields
                          (fkeys_metadata env cls) fkeys_attr])%list;
            db := db w; executed := executed w |}.
Proof.
  unfold __init__. rewrite (bind_ok _ _ _ _ _ (get_run w)).
  unfold mbind, M_bind, bind, lift.
  destruct (match Fkeys env cls with
            | Some aliases => fkeys_aliases (fkeys_metadata env cls) aliases
            | None => inr []
            end) as [e|fkeys_attr]; [discriminate|].
  cbn [ret]. destruct (filter _ kwargs.*1); [|discriminate].
  destruct (set_kwargs _ kwargs) as [e|fields]; [discriminate|].
  cbn. intros [= <- <-]. split; [reflexivity|]. eauto.
Qed.

Lemma insert_at_length {A} (l : list A) (n : nat) (x y : A) :
  n = length l -> <[n := x]> (l ++ [y])%list = (l ++ [x])%list.
Proof.
  intros ->. rewrite insert_app_r_alt by lia. rewrite Nat.sub_diag.
  reflexivity.
Qed.

Lemma insert_last {A} (l : list A) (x y : A) :
  <[length l := x]> (l ++ [y])%list = (l ++ [x])%list.
Proof. apply insert_at_length. reflexivity. Qed.

Lemma lookup_last {A} (l : list A) (y : A) :
  (l ++ [y])%list !! length l = Some y.
Proof. apply list_lookup_middle. reflexivity. Qed.

(** What a binary set operator does when it succeeds: the new relation is
    appended to the heap, and the left operand [self] is written too: its
    [_ho_join_to] receives the entries of the right operand. Nothing else
    changes. *)
Lemma set_op_run {DB : Type} (env : Env DB) (w w' : World DB)
    (self rt new : nat) (me other : Relation) (operator : PyVal) :
  heap w !! self = Some me ->
  heap w !! rt = Some other ->
  __set__op__ env self operator (Some rt) w = (w', inr new) ->
  new = length (heap w) /\
  exists rel0,
    class_ rel0 = class_ me /\
    w' = {| heap :=
              (<[self := with_join_to (_ho_join_to other ∪ _ho_join_to me) me]>
                 (heap w)
               ++ [combined rel0 self new me other operator rt])%list;
            db := db w; executed := executed w |}.
Proof.
  intros Hme Hother. unfold __set__op__.
  rewrite (bind_ok _ _ _ _ _ (the_relation_run w self me Hme)).
  destruct (__call__ env self (__to_dict_val_comp me) w)
    as [w1 [e|new0]] eqn:Einit.
  { rewrite (bind_raise _ _ _ _ _ Einit). discriminate. }
  rewrite (bind_ok _ _ _ _ _ Einit).
  unfold __call__ in Einit.
  rewrite (bind_ok _ _ _ _ _ (the_relation_run w self me Hme)) in Einit.
  apply init_inv in Einit as [-> (fields & fkeys_attr & ->)].
  set (rel0 := built (class_ me) (length (heap w)) fields
                 (fkeys_metadata env (class_ me)) fkeys_attr).
  pose proof (lookup_lt_Some _ _ _ Hme) as Hlt_self.
  pose proof (lookup_lt_Some _ _ _ Hother) as Hlt_rt.
  (* new.__id_cast = self.__id_cast *)
  erewrite bind_ok; cycle 1.
  { apply update_relation_run. cbn [heap]. apply lookup_last. }
  cbn [heap db executed]. rewrite insert_last.
  (* if operator: ... *)
  erewrite bind_ok; cycle 1.
  { instantiate (1 := tt).
    instantiate (1 :=
      {| heap := (heap w ++
           [with_set_operators
              {| left := if truthy operator then self
                         else left (set_operators rel0);
                 operator := if truthy operator then operator
                             else half_orm_relation.operator (set_operators rel0);
                 right := right (set_operators rel0) |}
              (with_id_cast (id_cast me) rel0)])%list;
         db := db w; executed := executed w |}).
    destruct (truthy operator).
    - erewrite update_relation_run by (cbn [heap]; apply lookup_last).
      cbn [heap db executed]. rewrite insert_last. reflexivity.
    - reflexivity. }
  (* new.__set_operators.right = right; dct_join.update(right._ho_join_to) *)
  erewrite bind_ok; cycle 1.
  { erewrite bind_ok; cycle 1.
    { apply update_relation_run. cbn [heap]. apply lookup_last. }
    cbn [heap db executed]. rewrite insert_last.
    erewrite bind_ok; cycle 1.
    { apply the_relation_run. cbn [heap].
      rewrite lookup_app_l by exact Hlt_rt. exact Hother. }
    apply update_relation_run. cbn [heap].
    rewrite lookup_app_l by exact Hlt_self. exact Hme. }
  cbn [heap db executed]. rewrite insert_app_l by exact Hlt_self.
  (* check_fk(new, dct_join) *)
  erewrite bind_ok; cycle 1.
  { apply the_relation_run. cbn [heap].
    rewrite lookup_app_l by (rewrite length_insert; exact Hlt_self).
    apply list_lookup_insert_eq. exact Hlt_self. }
  erewrite bind_ok; cycle 1.
  { apply update_relation_run. cbn [heap].
    apply list_lookup_middle. rewrite length_insert. reflexivity. }
  cbn [heap db executed].
  rewrite insert_at_length by (rewrite length_insert; reflexivity).
  intros [= <- <-]. split; [reflexivity|]. exists rel0. split; [reflexivity|].
  f_equal. f_equal. f_equal. unfold combined.
  cbn [_ho_join_to with_join_to with_set_operators with_id_cast rel0 built
       set_operators left half_orm_relation.operator right].
  rewrite (right_id_L ∅ (∪)). reflexivity.
Qed.

(** The right operand, and every relation other than the left one, is left
    as it was. *)
Lemma set_op_frame {DB : Type} (env : Env DB) (w w' : World DB)
    (self rt new i : nat) (me other r : Relation) (operator : PyVal) :
  heap w !! self = Some me ->
  heap w !! rt = Some other ->
  __set__op__ env self operator (Some rt) w = (w', inr new) ->
  i <> self -> heap w !! i = Some r -> heap w' !! i = Some r.
Proof.
  intros Hme Hother Hrun Hi Hr.
  destruct (set_op_run env w w' self rt new me other operator Hme Hother Hrun)
    as [_ (rel0 & _ & ->)].
  cbn [heap]. rewrite lookup_app_l
    by (rewrite length_insert; eapply lookup_lt_Some, Hr).
  rewrite list_lookup_insert_ne by congruence. exact Hr.
Qed.

(** The left operand keeps everything but its joins, which receive those of
    the right operand; it is the same afterwards only when it had them all
    already. *)
Lemma set_op_left {DB : Type} (env : Env DB) (w w' : World DB)
    (self rt new : nat) (me other : Relation) (operator : PyVal) :
  heap w !! self = Some me ->
  heap w !! rt = Some other ->
  __set__op__ env self operator (Some rt) w = (w', inr new) ->
  heap w' !! self =
    Some (with_join_to (_ho_join_to other ∪ _ho_join_to me) me) /\
  (heap w' !! self = Some me <->
   _ho_join_to other ∪ _ho_join_to me = _ho_join_to me).
Proof.
  intros Hme Hother Hrun.
  destruct (set_op_run env w w' self rt new me other operator Hme Hother Hrun)
    as [_ (rel0 & _ & ->)].
  assert (Hl : heap {| heap := (<[self := with_join_to
                         (_ho_join_to other ∪ _ho_join_to me) me]> (heap w)
                       ++ [combined rel0 self new me other operator rt])%list;
                       db := db w; executed := executed w |} !! self
               = Some (with_join_to (_ho_join_to other ∪ _ho_join_to me) me)).
  { cbn [heap]. rewrite lookup_app_l
      by (rewrite length_insert; eapply lookup_lt_Some, Hme).
    apply list_lookup_insert_eq. eapply lookup_lt_Some, Hme. }
  split; [exact Hl|]. rewrite Hl. split.
  - intros [= H]. rewrite <- H at 2. reflexivity.
  - intros H. rewrite H. destruct me; reflexivity.
Qed.

(** C5, at its failing input. [a] is joined to nothing and [b] is joined to
    [c] through [_post]. After [a & b], [a | b] or [a - b], the dictionary
    [a._ho_join_to] holds the entry of [b], and [a], which was not set,
    is. *)
Theorem set_operator_extends_left_join_to :
  _ho_join_to <$> heap halftest.joined_right_operand !! 0%nat = Some ∅ /\
  _ho_is_set 1000 (heap halftest.joined_right_operand) 0 = inr false /\
  Forall (fun op : nat -> nat -> M (World halftest.DB) nat =>
            let out := op 0%nat 1%nat halftest.joined_right_operand in
            out.2 = inr 3%nat /\
            _ho_join_to <$> heap out.1 !! 0%nat
              = Some {[ (1%nat, halftest.post_fkey) := 2%nat ]} /\
            _ho_is_set 1000 (heap out.1) 0 = inr true)
    [__and__ (halftest.person_env []); __or__ (halftest.person_env []);
     __sub__ (halftest.person_env [])].
Proof.
  split; [vm_compute; reflexivity|]. split; [vm_compute; reflexivity|].
  repeat constructor; vm_compute; reflexivity.
Qed.

End half_orm_relation_facts.

(** ** More of [halfORM/field.py] *)

Module halfORM_field_laws.
Import Py Eff Eff_facts halfORM_field halfORM_field_facts.

(** **** What an assignment never changes *)

Lemma keeps_ret {A} (a : A) : keeps (ret a : M Store A).
Proof. intros s. reflexivity. Qed.

Lemma keeps_raise {A} (e : Exc) : keeps (raise e : M Store A).
Proof. intros s. reflexivity. Qed.

Lemma keeps_bind {A B} (m : M Store A) (k : A -> M Store B) :
  keeps m -> (forall a, keeps (k a)) -> keeps (m ≫= k).
Proof.
  intros Hm Hk s. unfold mbind, M_bind, bind.
  specialize (Hm s). destruct (m s) as [s' [e|a]]; [exact Hm|].
  rewrite Hk. exact Hm.
Qed.

Lemma keeps_the_field self : keeps (the_field self).
Proof.
  intros s. unfold the_field. rewrite (bind_ok get _ s s s eq_refl).
  destruct (objects s !! self); reflexivity.
Qed.

Lemma keeps_update_field self (g : Field -> Field) :
  (forall f, name (g f) = name f /\ metadata (g f) = metadata f /\
             unaccent (g f) = unaccent f) ->
  keeps (update_field self g).
Proof.
  intros Hg s. destruct (objects s !! self) as [f|] eqn:E.
  - rewrite (update_field_run s self f g E). unfold columns. cbn [fst objects].
    rewrite list_fmap_insert. destruct (Hg f) as (-> & -> & ->).
    apply list_insert_id. rewrite list_lookup_fmap, E. reflexivity.
  - unfold update_field. erewrite bind_raise; [reflexivity|].
    unfold the_field. rewrite (bind_ok get _ s s s eq_refl). rewrite E.
    reflexivity.
Qed.

Lemma keeps_joined_to_insert0 rel pair : keeps (joined_to_insert0 rel pair).
Proof. intros s. reflexivity. Qed.

Ltac keeps_field :=
  apply keeps_update_field; intros f; repeat split; reflexivity.

Lemma keeps_link self other : keeps (link self other).
Proof.
  unfold link.
  apply keeps_bind; [apply keeps_the_field|]. intros o.
  apply keeps_bind; [keeps_field|]. intros _.
  apply keeps_bind; [apply keeps_the_field|]. intros me.
  apply keeps_bind; [keeps_field|]. intros _.
  apply keeps_bind.
  { destruct (relation me); [apply keeps_joined_to_insert0|apply keeps_raise]. }
  intros _.
  apply keeps_bind; [apply keeps_the_field|]. intros o'.
  apply keeps_bind; [keeps_field|]. intros _.
  apply keeps_bind; [apply keeps_the_field|]. intros me'.
  keeps_field.
Qed.

(** X1. Whatever is assigned to a field, and whether the assignment
    succeeds or raises, the store holds the same fields afterwards: as many
    objects, each with the name, the metadata and the unaccent flag it had.
    An assignment only writes owners, values, comparators, set flags and
    links. *)
Theorem set_keeps_columns (s : Store) (self : nat) (obj : option nat)
    (v : PyVal) :
  columns (__set__ self obj v s).1 = columns s.
Proof.
  revert s. change (keeps (__set__ self obj v)). unfold __set__.
  destruct (is_None v); [apply keeps_ret|].
  apply keeps_bind; [keeps_field|]. intros _.
  apply keeps_bind.
  { unfold unpack. destruct v as [| | | | | |[|a [|b [|c l]]]|];
      first [apply keeps_ret|apply keeps_raise]. }
  intros [value comp].
  apply keeps_bind.
  { destruct (is_NULL value).
    - apply keeps_bind; [|intros; apply keeps_ret].
      unfold assert_. destruct (_ || _); [apply keeps_ret|apply keeps_raise].
    - destruct (is_None _); [|apply keeps_ret].
      destruct (negb _); [apply keeps_ret|].
      destruct value; try apply keeps_ret.
      apply keeps_bind; [apply keeps_link|intros; apply keeps_ret]. }
  intros c.
  apply keeps_bind.
  { destruct (negb _); [keeps_field|apply keeps_ret]. }
  intros _.
  apply keeps_bind; [keeps_field|]. intros _. keeps_field.
Qed.

(** **** Values that come without a comparator *)

(** X2. A value that is neither [None], a tuple nor a field is stored as it
    is and the field is marked as set; the comparator is [=], or [is] when
    the value is [NULL]. [__set__] records the owner it is given and
    [_set_value] keeps the owner the field had. No other object of the
    store and no [_joined_to] list is written. *)
Theorem set_scalar_stores (s : Store) (self : nat) (f : Field)
    (obj : option nat) (v : PyVal) :
  objects s !! self = Some f ->
  is_None v = false -> isinstance_Field v = false ->
  isinstance_tuple v = false ->
  __set__ self obj v s = (assigned s self f obj v (comp_of_scalar v), inr tt) /\
  _set_value self v s =
    (assigned s self f (relation f) v (comp_of_scalar v), inr tt).
Proof.
  intros Hf Hn Hfld Htup.
  assert (H : forall obj, __set__ self obj v s =
            (assigned s self f obj v (comp_of_scalar v), inr tt)).
  { clear obj. intros obj. unfold __set__. rewrite Hn, Hfld. cbn [negb].
    rewrite (bind_ok _ _ _ _ _ (update_field_run s self f _ Hf)).
    erewrite bind_ok; cycle 1.
    { instantiate (1 := (v, PyNone)).
      destruct v; try discriminate; reflexivity. }
    cbv beta iota zeta. cbn [is_None]. rewrite andb_true_r.
    unfold comp_of_scalar. destruct (is_NULL v).
    - cbn [eq_str String.eqb orb assert_].
      erewrite bind_ok; cycle 1.
      { erewrite bind_ok by apply ret_run. apply ret_run. }
      eapply set_tail_run; [exact Hf|reflexivity|reflexivity].
    - erewrite bind_ok by apply ret_run.
      eapply set_tail_run; [exact Hf|reflexivity|reflexivity]. }
  split; [apply H|].
  unfold _set_value. rewrite (bind_ok _ _ _ _ _ (the_field_run s self f Hf)).
  apply H.
Qed.

Lemma set_scalar_stores_witness :
  _is_set <$> objects (__set__ 1 (Some 3%nat) PyNULL halftest.post_fields).1
    !! 1%nat = Some true /\
  comp <$> objects (__set__ 1 (Some 3%nat) PyNULL halftest.post_fields).1
    !! 1%nat = Some (PyStr "is").
Proof.
  destruct (set_scalar_stores halftest.post_fields 1 _ (Some 3%nat) PyNULL
              eq_refl eq_refl eq_refl eq_refl) as [-> _].
  vm_compute. split; reflexivity.
Defined.

(** **** Tuples of the wrong length *)

(** X3. A tuple that does not have exactly two components fails the
    assertion of [__set__]; by then the owner has been overwritten, and the
    value, the comparator and the set flag are those the field had. *)
Theorem set_wrong_length_tuple (s : Store) (self : nat) (f : Field)
    (obj : option nat) (l : list PyVal) :
  objects s !! self = Some f ->
  length l <> 2%nat ->
  __set__ self obj (PyTuple l) s =
    ({| objects := <[self := set_relation obj f]> (objects s);
        _joined_to := _joined_to s |}, inl AssertionError).
Proof.
  intros Hf Hl. unfold __set__. cbn [is_None isinstance_Field negb].
  rewrite (bind_ok _ _ _ _ _ (update_field_run s self f _ Hf)).
  erewrite bind_raise; [reflexivity|].
  destruct l as [|a [|b [|c l]]]; try reflexivity.
  contradiction Hl. reflexivity.
Qed.

Lemma set_wrong_length_tuple_witness :
  (__set__ 1 (Some 3%nat) (PyTuple [PyInt 1; PyStr "="; PyInt 2])
     halftest.post_fields).2 = inl AssertionError.
Proof.
  rewrite (set_wrong_length_tuple halftest.post_fields 1 _ (Some 3%nat)
             [PyInt 1; PyStr "="; PyInt 2] eq_refl) by (simpl; lia).
  reflexivity.
Defined.

(** **** A field assigned to a field *)

Ltac lk :=
  cbn [objects _joined_to];
  repeat first
    [ rewrite list_lookup_insert_ne by congruence
    | rewrite list_lookup_insert_eq
        by (rewrite ?length_insert; eapply lookup_lt_Some; eassumption) ];
  first [eassumption|reflexivity].

Ltac run_field :=
  erewrite bind_ok;
    [|first [apply update_field_run|apply the_field_run]; lk];
  cbn [objects _joined_to].

Lemma link_run (s : Store) (self other rel : nat) (f o : Field) :
  objects s !! self = Some f ->
  objects s !! other = Some o ->
  self <> other ->
  relation f = Some rel ->
  link self other s =
    ({| objects := <[other := linked o (Some rel) (name f)]> (objects s);
        _joined_to := <[rel := (relation o, other)
                               :: default [] (_joined_to s !! rel)]>
                        (_joined_to s) |}, inr tt).
Proof.
  intros Hf Ho Hne Hrel. unfold link.
  do 4 run_field. rewrite Hrel.
  erewrite bind_ok by reflexivity. cbn [objects _joined_to].
  do 3 run_field.
  erewrite update_field_run by lk. cbn [objects _joined_to].
  rewrite !list_insert_insert_eq. reflexivity.
Qed.

(** X4. Assigning the field [other] to a field of the relation [rel] links
    the two: [other] records where it comes from ([from_], its own owner),
    where it goes ([to_], [rel]), its own name in [fields] and the name of
    the receiver in [fk_names]; the pair of its owner and itself is put at
    the head of [rel._joined_to]; the receiver holds [other] under the
    comparator [in] and is not marked as set by the assignment. *)
Theorem set_field_links (s : Store) (self other rel : nat) (f o : Field) :
  objects s !! self = Some f ->
  objects s !! other = Some o ->
  self <> other ->
  __set__ self (Some rel) (PyField other) s =
    ({| objects := <[self := linking f (Some rel) other]>
                     (<[other := linked o (Some rel) (name f)]> (objects s));
        _joined_to := <[rel := (relation o, other)
                               :: default [] (_joined_to s !! rel)]>
                        (_joined_to s) |}, inr tt).
Proof.
  intros Hf Ho Hne. unfold __set__. cbn [is_None isinstance_Field negb].
  run_field. cbn [unpack]. erewrite bind_ok by apply ret_run.
  cbv beta iota zeta. cbn [is_NULL is_None andb].
  erewrite bind_ok; cycle 1.
  { erewrite bind_ok; [apply ret_run|].
    apply (link_run _ self other rel (set_relation (Some rel) f) o);
      [lk|lk|exact Hne|reflexivity]. }
  cbn [objects _joined_to].
  erewrite bind_ok by apply ret_run.
  run_field. erewrite update_field_run by lk. cbn [objects _joined_to].
  rewrite list_insert_insert_eq.
  rewrite (list_insert_insert_ne _ other self) by congruence.
  rewrite list_insert_insert_eq. reflexivity.
Qed.

Lemma set_field_links_witness :
  _joined_to (__set__ 1 (Some 3%nat) (PyField 0) halftest.post_fields).1
    !! 3%nat = Some [(None, 0%nat)] /\
  _is_set <$> objects (__set__ 1 (Some 3%nat) (PyField 0)
                         halftest.post_fields).1 !! 1%nat = Some false.
Proof.
  rewrite (set_field_links halftest.post_fields 1 0 3 _ _ eq_refl eq_refl)
    by lia.
  vm_compute. split; reflexivity.
Defined.

(** X5. Assigning a field to a field that is given no owner raises
    [AttributeError]: there is no relation whose [_joined_to] could take
    the link. By then the receiver has lost its owner and the assigned
    field has its two ends written, [to_] with [None]; no [_joined_to] list
    is written, and the receiver keeps its value and comparator. *)
Theorem set_field_without_owner (s : Store) (self other : nat) (f o : Field) :
  objects s !! self = Some f ->
  objects s !! other = Some o ->
  self <> other ->
  __set__ self None (PyField other) s =
    ({| objects := <[other := set_to_ None (set_from_ (relation o) o)]>
                     (<[self := set_relation None f]> (objects s));
        _joined_to := _joined_to s |},
     inl (AttributeError "'NoneType' object has no attribute '_joined_to'")).
Proof.
  intros Hf Ho Hne. unfold __set__. cbn [is_None isinstance_Field negb].
  run_field. cbn [unpack]. erewrite bind_ok by apply ret_run.
  cbv beta iota zeta. cbn [is_NULL is_None andb].
  erewrite bind_raise; [reflexivity|].
  erewrite bind_raise; [reflexivity|].
  unfold link. do 4 run_field. cbn [relation set_relation].
  erewrite bind_raise; [|reflexivity].
  rewrite list_insert_insert_eq. reflexivity.
Qed.

Lemma set_field_without_owner_witness :
  (__set__ 1 None (PyField 0) halftest.post_fields).2 =
    inl (AttributeError "'NoneType' object has no attribute '_joined_to'").
Proof.
  rewrite (set_field_without_owner halftest.post_fields 1 0 _ _
             eq_refl eq_refl) by lia.
  reflexivity.
Defined.

(** **** From the assignment to the [where] clause *)

(** X6. A field assigned the pair of a value, which is neither [NULL] nor a
    list or tuple, and of the comparator [c] renders [lhs c %s]: the name
    prefixed with the alias in a select, quoted otherwise, then the
    comparator as it was given and one placeholder; both sides are inside
    [unaccent(..)] when the flag of the field is set. *)
Theorem assigned_pair_renders (str_other : PyVal -> string) (s : Store)
    (self : nat) (f : Field) (obj : option nat) (v : PyVal) (c query : string)
    (id_ : Z) :
  objects s !! self = Some f ->
  is_NULL v = false ->
  isinstance_list_tuple v = false ->
  (fun g => where_repr str_other g query id_)
    <$> objects (__set__ self obj (PyTuple [v; PyStr c]) s).1 !! self =
  Some (inr (if unaccent f then
               "unaccent(" +:+ _praf f query id_ +:+ ") " +:+ c
                 +:+ " unaccent(%s)"
             else _praf f query id_ +:+ " " +:+ c +:+ " %s")).
Proof.
  intros Hf Hnull Hseq.
  rewrite (set_pair_stores s self f obj v (PyStr c) Hf eq_refl)
    by (rewrite Hnull; discriminate).
  cbn [fst assigned objects]. rewrite (lookup_updated _ _ f _ Hf).
  cbn [fmap option_fmap option_map]. f_equal.
  unfold where_repr, assigned_field.
  cbn [value set_comp set_value set__is_set set_relation unaccent comp str_].
  rewrite Hseq. destruct (unaccent f); reflexivity.
Qed.

Lemma assigned_pair_renders_witness :
  (fun g => where_repr (fun _ => EmptyString) g "select" 12)
    <$> objects (__set__ 1 (Some 3%nat) (PyTuple [PyStr "a%"; PyStr "like"])
                   halftest.post_fields).1 !! 1%nat =
  Some (inr "r12.content like %s").
Proof.
  apply (assigned_pair_renders (fun _ => EmptyString) halftest.post_fields 1
           _ (Some 3%nat) (PyStr "a%") "like" "select" 12 eq_refl);
    reflexivity.
Defined.

End halfORM_field_laws.

(** ** More of [half_orm/relation.py] *)

Module half_orm_relation_laws.
Import Py Eff Eff_facts half_orm_relation half_orm_relation_facts.

(** **** Construction and the insert statement *)

Section Construction.
Context {DB : Type} (env : Env DB).
Implicit Types (w : World DB) (r : Relation) (self : nat).

Lemma fields_names (names : list string) :
  ((fun n => (n, Field.new n)) <$> names).*1 = names.
Proof.
  induction names as [|n l IH]; [reflexivity|]. cbn. rewrite IH. reflexivity.
Qed.

Lemma fkeys_aliases_wrong (fkeys : list string)
    (aliases : list (string * string)) (i : nat) (key value : string) :
  list_find (fun kv => kv.1 <> EmptyString /\ kv.2 ∉ fkeys) aliases
    = Some (i, (key, value)) ->
  fkeys_aliases fkeys aliases = inl (WrongFkeyError value).
Proof.
  revert i. induction aliases as [|[k v] l IH]; intros i; [discriminate|].
  cbn [list_find fkeys_aliases]. cbn [fst snd].
  destruct (String.eqb_spec k EmptyString) as [->|Hk].
  - rewrite decide_False by (intros [H _]; congruence).
    destruct (list_find _ l) as [[j [k' v']]|] eqn:E; [|discriminate].
    cbn. intros [= <- <- <-]. eapply IH. reflexivity.
  - destruct (decide (v ∈ fkeys)) as [Hv|Hv].
    + rewrite decide_False by (intros [_ H]; contradiction).
      rewrite bool_decide_eq_true_2 by exact Hv.
      destruct (list_find _ l) as [[j [k' v']]|] eqn:E; [|discriminate].
      cbn. intros [= <- <- <-]. erewrite IH by reflexivity. reflexivity.
    + rewrite decide_True by (split; assumption).
      rewrite bool_decide_eq_false_2 by exact Hv.
      intros [= <- <- <-]. reflexivity.
Qed.

(** X7. When the [Fkeys] of the class give a name to a foreign key that the
    relation does not have, [__init__] raises [WrongFkeyError] with the
    first such foreign key, whatever the keyword arguments are, and builds
    nothing. An alias whose key is the empty string is skipped, even when
    it names an unknown foreign key. *)
Theorem init_wrong_fkey w (cls : string) (kwargs : list (string * PyVal))
    (aliases : list (string * string)) (i : nat) (key value : string) :
  Fkeys env cls = Some aliases ->
  list_find (fun kv => kv.1 <> EmptyString /\ kv.2 ∉ fkeys_metadata env cls)
    aliases = Some (i, (key, value)) ->
  __init__ env cls kwargs w = (w, inl (WrongFkeyError value)).
Proof.
  intros Hfk Hbad. unfold __init__.
  rewrite (bind_ok _ _ _ _ _ (get_run w)). rewrite Hfk.
  rewrite (fkeys_aliases_wrong _ _ _ _ _ Hbad). reflexivity.
Qed.

(** X8. A keyword argument whose name is not a column of the relation makes
    [__init__] raise [UnknownAttributeError] with the names that are no
    columns, all of them, before any field is set and whatever the values
    are, [None] included; nothing is built and the world is left as it
    was. *)
Theorem init_unknown_attribute w (cls : string)
    (kwargs : list (string * PyVal)) (keys : list string) (name : string)
    (rest : list string) :
  match Fkeys env cls with
  | Some aliases => fkeys_aliases (fkeys_metadata env cls) aliases
  | None => inr []
  end = inr keys ->
  filter (fun k => k ∉ fields_metadata env cls) kwargs.*1 = name :: rest ->
  __init__ env cls kwargs w = (w, inl (UnknownAttributeError (name :: rest))) /\
  (forall k, k ∈ name :: rest <->
             k ∈ kwargs.*1 /\ k ∉ fields_metadata env cls).
Proof.
  intros Hfk Hun. split.
  - unfold __init__.
    rewrite (bind_ok _ _ _ _ _ (get_run w)). rewrite Hfk.
    erewrite bind_ok by reflexivity. rewrite fields_names, Hun.
    reflexivity.
  - intros k. rewrite <- Hun, list_elem_of_filter. tauto.
Qed.

Lemma set_kwargs_skips_None (fields : list (string * Field.t))
    (kwargs : list (string * PyVal)) :
  set_kwargs fields kwargs =
    set_kwargs fields (filter (fun kv => is_None kv.2 = false) kwargs).
Proof.
  revert fields. induction kwargs as [|[k v] l IH]; intros fields;
    [reflexivity|].
  rewrite filter_cons. cbn [set_kwargs snd].
  destruct (is_None v) eqn:Hv.
  - rewrite decide_False by discriminate. apply IH.
  - rewrite decide_True by reflexivity. cbn [set_kwargs]. rewrite Hv.
    destruct (field_lookup k fields); [|reflexivity].
    destruct (Field._set t v); [reflexivity|]. apply IH.
Qed.

Lemma filter_known_kept (P : string -> Prop) `{!forall x, Decision (P x)}
    (Q : string * PyVal -> Prop) `{!forall x, Decision (Q x)}
    (kwargs : list (string * PyVal)) :
  filter P kwargs.*1 = [] -> filter P (filter Q kwargs).*1 = [].
Proof.
  induction kwargs as [|[k v] l IH]; [reflexivity|].
  rewrite fmap_cons, !filter_cons. cbn [fst].
  destruct (decide (P k)) as [Hk|Hk]; [discriminate|]. intros Hl.
  destruct (decide (Q (k, v))); [|exact (IH Hl)].
  rewrite fmap_cons, filter_cons. cbn [fst].
  rewrite decide_False by exact Hk. exact (IH Hl).
Qed.

(** X9. Keyword arguments whose value is [None] are ignored by
    [__init__]: when every name is a column, the call does what it does
    without them, in result and in effect. *)
Theorem init_ignores_None w (cls : string) (kwargs : list (string * PyVal)) :
  filter (fun k => k ∉ fields_metadata env cls) kwargs.*1 = [] ->
  __init__ env cls kwargs w =
    __init__ env cls (filter (fun kv => is_None kv.2 = false) kwargs) w.
Proof.
  intros Hknown. unfold __init__.
  rewrite !(bind_ok _ _ _ _ _ (get_run w)).
  destruct (match Fkeys env cls with
            | Some aliases => fkeys_aliases (fkeys_metadata env cls) aliases
            | None => inr []
            end) as [e|fkeys_attr].
  { rewrite !(bind_raise _ _ w w e) by reflexivity. reflexivity. }
  rewrite !(bind_ok _ _ w w fkeys_attr) by reflexivity.
  rewrite fields_names, Hknown.
  replace (filter (fun k => k ∉ fields_metadata env cls)
             (filter (fun kv => is_None kv.2 = false) kwargs).*1)
    with (@nil string); cycle 1.
  { symmetry. apply filter_known_kept, Hknown. }
  rewrite <- set_kwargs_skips_None. reflexivity.
Qed.


Lemma fold_left_inv {A B} (inv : A -> Prop) (step : A -> B -> A) (l : list B)
    (acc : A) :
  (forall a b, inv a -> inv (step a b)) -> inv acc -> inv (fold_left step l acc).
Proof.
  intros Hstep. revert acc. induction l as [|b l IH]; intros acc Hacc;
    [exact Hacc|]. apply IH, Hstep, Hacc.
Qed.

Lemma Forall_replicate_eq {A} (n : nat) (x : A) :
  Forall (fun p => p = x) (replicate n x).
Proof. induction n; constructor; [reflexivity|assumption]. Qed.

(** X10. The statement [_ho_insert] assembles binds as many values as it
    has placeholders, each of them [%s], whether values come from the
    foreign keys or not; it is an insert into the relation of the object
    and always has a returning clause. *)
Theorem insert_placeholders (h : Heap) self r (args : list string)
    (qrn : string) (names what : list string) (values : list PyVal)
    (returning : list string) :
  insert_query env h self r args = Insert qrn names what values returning ->
  length what = length values /\
  Forall (fun p => p = "%s") what /\
  returning <> [] /\
  qrn = class_ r.
Proof.
  unfold insert_query, __what.
  pose proof (fold_left_inv
    (fun acc : list string * list string * list PyVal =>
       length acc.1.2 = length acc.2 /\ Forall (fun p => p = "%s") acc.1.2)
    (fun '(fk_fields, fk_queries, fk_values) fkey =>
       match _fkey_prep_select env h (self, fkey) with
       | None => (fk_fields, fk_queries, fk_values)
       | Some cols =>
           let fk_values := (fk_values ++ fkey_values_0 env h (self, fkey))%list in
           ((fk_fields ++ cols)%list, replicate (length fk_values) "%s",
            fk_values)
       end)
    (_ho_fkeys r) ([], [], [])) as Hinv.
  destruct (fold_left _ (_ho_fkeys r) ([], [], [])) as [[fk_fields fk_queries] fk_values].
  destruct Hinv as [Hlen Hall].
  { intros [[a b] c] fkey [H1 H2].
    destruct (_fkey_prep_select env h (self, fkey)); [|split; assumption].
    cbn. split; [apply length_replicate|apply Forall_replicate_eq]. }
  { split; [reflexivity|constructor]. }
  cbn [fst snd] in Hlen, Hall.
  assert (Hret : match args with [] => ["*"] | _ => args end <> [])
    by (destruct args; discriminate).
  destruct fk_fields; intros [= <- <- <- <- <-].
  - repeat split; [apply length_replicate|apply Forall_replicate_eq|exact Hret].
  - repeat split; [|apply Forall_app; split;
                     [apply Forall_replicate_eq|exact Hall]|exact Hret].
    rewrite !length_app, length_replicate, Hlen. reflexivity.
Qed.

End Construction.

(** **** Execution and iteration *)

Section Execution.
Context {DB : Type} (env : Env DB).
Implicit Types (w : World DB) (r : Relation) (self : nat).

Lemma execute_select_inv w w1 (h : Heap) self (args : list string)
    (distinct_ : bool) (order_by limit offset : option PyVal)
    (rows : list Row) :
  __execute env (Select h self args distinct_ order_by limit offset) w
    = (w1, inr rows) ->
  heap w1 = heap w /\ broken env (db w1) = false /\
  pg_select env (db w1) h self args distinct_ order_by limit offset = inr rows.
Proof.
  unfold __execute, cursor_execute.
  assert (Hretry :
    (let '(d2, r2) :=
       if broken env (ping env (db w)) then (ping env (db w), inl OperationalError)
       else (ping env (db w),
             pg_select env (ping env (db w)) h self args distinct_ order_by
               limit offset) in
     ({| heap := heap w; db := d2;
         executed := ((executed w ++
           [Select h self args distinct_ order_by limit offset]) ++
           [Select h self args distinct_ order_by limit offset])%list |},
      match r2 with
      | inl e => inl (Psycopg2Error e)
      | inr rows0 => inr rows0
      end)) = (w1, inr rows) ->
    heap w1 = heap w /\ broken env (db w1) = false /\
    pg_select env (db w1) h self args distinct_ order_by limit offset
      = inr rows).
  { destruct (broken env (ping env (db w))) eqn:Hb2; [discriminate|].
    destruct (pg_select env (ping env (db w)) _ _ _ _ _ _ _) as [e|rows0] eqn:E;
      [discriminate|].
    intros [= <- <-]. cbn [heap db]. auto. }
  destruct (broken env (db w)) eqn:Hb; [exact Hretry|].
  destruct (pg_select env (db w) h self args distinct_ order_by limit offset)
    as [[| |msg]|rows0] eqn:E; try exact Hretry; [discriminate|].
  intros [= <- <-]. cbn [heap db]. auto.
Qed.

Lemma select_inv w w1 self (args : list string) (rows : list Row) :
  _ho_select env self args w = (w1, inr rows) ->
  exists r,
    heap w !! self = Some r /\
    list_find (fun kv => kv.2 ≠ "FKey") (_ho_fkeys_attr r) = None /\
    __execute env (_ho_prep_select (heap w) self r args) w = (w1, inr rows).
Proof.
  unfold _ho_select.
  destruct (heap w !! self) as [r|] eqn:Hr; cycle 1.
  { erewrite bind_raise; [discriminate|]. unfold the_relation.
    rewrite (bind_ok _ _ _ _ _ (get_run w)). rewrite Hr. reflexivity. }
  rewrite (bind_ok _ _ _ _ _ (the_relation_run w self r Hr)).
  destruct (list_find (fun kv => kv.2 ≠ "FKey") (_ho_fkeys_attr r))
    as [[i [k c]]|] eqn:Hfk.
  - erewrite bind_raise; [discriminate|]. unfold __get_query.
    rewrite (bind_ok _ _ _ _ _ (the_relation_run w self r Hr)). rewrite Hfk.
    reflexivity.
  - rewrite (bind_ok _ _ _ _ _ (get_query_run w self r Hr Hfk)).
    rewrite (bind_ok _ _ _ _ _ (get_run w)).
    intros H. exists r. auto.
Qed.

(** X11. [__next__] does not advance: each call runs the select again and
    takes the first row. When a call has returned a row, the next call on
    the world it left returns the same row, sends one more statement and
    writes nothing else. *)
Theorem next_returns_first_row_again w w1 self (row : Row) :
  __next__ env self w = (w1, inr row) ->
  exists stmt,
    __next__ env self w1 =
      ({| heap := heap w1; db := db w1;
          executed := (executed w1 ++ [stmt])%list |}, inr row).
Proof.
  unfold __next__. intros H.
  destruct (_ho_select env self [] w) as [w' [e|rows]] eqn:Hsel.
  { rewrite (bind_raise _ _ _ _ _ Hsel) in H. discriminate. }
  rewrite (bind_ok _ _ _ _ _ Hsel) in H.
  destruct rows as [|row' rest]; [discriminate|]. injection H as -> ->.
  destruct (select_inv w w1 self [] (row :: rest) Hsel) as (r & Hr & Hfk & Hex).
  unfold _ho_prep_select in Hex.
  apply execute_select_inv in Hex as (Hheap & Hb & Hrows).
  exists (_ho_prep_select (heap w) self r []).
  erewrite bind_ok; cycle 1.
  { unfold _ho_select.
    rewrite <- Hheap in Hr.
    rewrite (bind_ok _ _ _ _ _ (the_relation_run w1 self r Hr)).
    rewrite (bind_ok _ _ _ _ _ (get_query_run w1 self r Hr Hfk)).
    rewrite (bind_ok _ _ _ _ _ (get_run w1)).
    unfold __execute, cursor_execute, _ho_prep_select.
    rewrite Hb, Hheap, Hrows. reflexivity. }
  rewrite Hheap. reflexivity.
Qed.

(** X12. When the connection is lost, [__execute] pings the model and hands
    the statement to the cursor a second time, once: the outcome is that of
    the second attempt, with the driver's error wrapped when it fails. If
    the ping has not restored the connection, the call raises
    [OperationalError] after these two attempts. No relation is written. *)
Theorem lost_connection_is_retried_once w (stmt : Stmt) :
  broken env (db w) = true ->
  __execute env stmt w =
    ({| heap := heap w; db := (cursor_execute env (ping env (db w)) stmt).1;
        executed := (executed w ++ [stmt; stmt])%list |},
     match (cursor_execute env (ping env (db w)) stmt).2 with
     | inr rows => inr rows
     | inl e => inl (Psycopg2Error e)
     end) /\
  (broken env (ping env (db w)) = true ->
   __execute env stmt w =
     ({| heap := heap w; db := ping env (db w);
         executed := (executed w ++ [stmt; stmt])%list |},
      inl (Psycopg2Error OperationalError))).
Proof.
  intros Hb.
  assert (H : __execute env stmt w =
    ({| heap := heap w; db := (cursor_execute env (ping env (db w)) stmt).1;
        executed := (executed w ++ [stmt; stmt])%list |},
     match (cursor_execute env (ping env (db w)) stmt).2 with
     | inr rows => inr rows
     | inl e => inl (Psycopg2Error e)
     end)).
  { unfold __execute. unfold cursor_execute at 1. rewrite Hb.
    destruct (cursor_execute env (ping env (db w)) stmt) as [d2 r2].
    rewrite <- app_assoc. reflexivity. }
  split; [exact H|]. intros Hb2. rewrite H.
  unfold cursor_execute. rewrite Hb2. reflexivity.
Qed.

End Execution.

Lemma next_returns_first_row_again_witness :
  (__next__ (halftest.person_env []) 0
     (__next__ (halftest.person_env []) 0 halftest.all_persons).1).2 =
    inr (halftest.person 1 "aa" "aa").
Proof.
  destruct (next_returns_first_row_again (halftest.person_env [])
              halftest.all_persons
              (__next__ (halftest.person_env []) 0 halftest.all_persons).1
              0 (halftest.person 1 "aa" "aa")) as [stmt Hstmt].
  - vm_compute. reflexivity.
  - rewrite Hstmt. reflexivity.
Defined.

(** **** [get] and its error *)

Section Get.
Context {DB : Type} (env : Env DB).
Implicit Types (w : World DB) (r : Relation) (self : nat).

Lemma expects_nothing_ret {A} (a : A) : expects_nothing (DB := DB) (ret a).
Proof. intros w e. discriminate. Qed.

Lemma expects_nothing_raise {A} (e : Exc) :
  is_ExpectedOneError e = false ->
  expects_nothing (DB := DB) (raise e : M (World DB) A).
Proof. intros He w e' [= <-]. exact He. Qed.

Lemma expects_nothing_bind {A B} (m : M (World DB) A)
    (k : A -> M (World DB) B) :
  expects_nothing m -> (forall a, expects_nothing (DB := DB) (k a)) ->
  expects_nothing (DB := DB) (m ≫= k).
Proof.
  intros Hm Hk w e. unfold mbind, M_bind, bind.
  specialize (Hm w). destruct (m w) as [w' [e'|a]]; [|apply Hk].
  cbn in *. intros [= ->]. apply Hm. reflexivity.
Qed.

Lemma expects_nothing_the_relation self :
  expects_nothing (DB := DB) (the_relation self).
Proof.
  intros w e. unfold the_relation. rewrite (bind_ok _ _ _ _ _ (get_run w)).
  destruct (heap w !! self); [discriminate|]. intros [= <-]. reflexivity.
Qed.

Lemma expects_nothing_update_relation self (f : Relation -> Relation) :
  expects_nothing (DB := DB) (update_relation self f).
Proof.
  apply expects_nothing_bind; [apply expects_nothing_the_relation|].
  intros r w e. discriminate.
Qed.

Lemma expects_nothing_get_query self :
  expects_nothing (DB := DB) (__get_query self).
Proof.
  apply expects_nothing_bind; [apply expects_nothing_the_relation|]. intros r.
  destruct (list_find _ (_ho_fkeys_attr r)) as [[i [fkey_name cls]]|];
    [apply expects_nothing_raise; reflexivity|apply expects_nothing_ret].
Qed.

Lemma expects_nothing_execute (stmt : Stmt) :
  expects_nothing (DB := DB) (__execute env stmt).
Proof.
  intros w e. unfold __execute.
  destruct (cursor_execute env (db w) stmt) as [d1 [[| |m]|rows]];
    try discriminate;
    try (intros [= <-]; reflexivity);
    destruct (cursor_execute env (ping env d1) stmt) as [d2 [e2|rows]];
    try discriminate; intros [= <-]; reflexivity.
Qed.

Lemma expects_nothing_lift {A} (x : Exc + A) :
  (forall e, x = inl e -> is_ExpectedOneError e = false) ->
  expects_nothing (DB := DB) (lift x).
Proof.
  intros H. destruct x as [e|a]; [|apply expects_nothing_ret].
  apply expects_nothing_raise, H. reflexivity.
Qed.

Lemma expects_nothing_len self : expects_nothing (DB := DB) (len env self).
Proof.
  unfold len, __len__.
  apply expects_nothing_bind.
  - apply expects_nothing_bind; [apply expects_nothing_get_query|]. intros _.
    apply expects_nothing_bind; [intros w e; discriminate|]. intros w0.
    apply expects_nothing_bind; [apply expects_nothing_execute|]. intros rows.
    destruct rows as [|row rows]; [apply expects_nothing_raise; reflexivity|].
    apply expects_nothing_lift. unfold getitem. intros e.
    destruct (list_find _ row) as [[i [k v]]|]; [discriminate|].
    intros [= <-]. reflexivity.
  - intros [| |b|z|s|l|l|f];
      try (apply expects_nothing_raise; reflexivity);
      [apply expects_nothing_ret|].
    destruct (z <? 0);
      [apply expects_nothing_raise; reflexivity|apply expects_nothing_ret].
Qed.

Lemma expects_nothing_select self (args : list string) :
  expects_nothing (DB := DB) (_ho_select env self args).
Proof.
  apply expects_nothing_bind; [apply expects_nothing_the_relation|]. intros r.
  apply expects_nothing_bind; [apply expects_nothing_get_query|]. intros _.
  apply expects_nothing_bind; [intros w e; discriminate|]. intros w0.
  apply expects_nothing_execute.
Qed.

Lemma fkeys_aliases_raises (fkeys : list string)
    (aliases : list (string * string)) (e : Exc) :
  fkeys_aliases fkeys aliases = inl e -> is_ExpectedOneError e = false.
Proof.
  induction aliases as [|[k v] l IH]; [discriminate|]. cbn [fkeys_aliases].
  destruct (String.eqb k EmptyString); [exact IH|].
  destruct (bool_decide (v ∈ fkeys)).
  - destruct (fkeys_aliases fkeys l); [|discriminate].
    intros [= <-]. apply IH. reflexivity.
  - intros [= <-]. reflexivity.
Qed.

Lemma set_kwargs_raises (fields : list (string * Field.t))
    (kwargs : list (string * PyVal)) (e : Exc) :
  set_kwargs fields kwargs = inl e -> is_ExpectedOneError e = false.
Proof.
  revert fields. induction kwargs as [|[k v] l IH]; intros fields;
    [discriminate|].
  cbn [set_kwargs]. destruct (is_None v); [apply IH|].
  destruct (field_lookup k fields) as [f|]; [|intros [= <-]; reflexivity].
  destruct (Field._set f v) as [e'|f'] eqn:E; [|apply IH].
  intros [= <-]. apply Field_set_raises_ValueError in E as [m ->].
  reflexivity.
Qed.

Lemma expects_nothing_call self (kwargs : list (string * PyVal)) :
  expects_nothing (DB := DB) (__call__ env self kwargs).
Proof.
  apply expects_nothing_bind; [apply expects_nothing_the_relation|]. intros r.
  unfold __init__.
  apply expects_nothing_bind; [intros w e; discriminate|]. intros w0.
  apply expects_nothing_bind.
  { apply expects_nothing_lift. destruct (Fkeys env (class_ r));
      [apply fkeys_aliases_raises|discriminate]. }
  intros fkeys_attr. destruct (filter _ kwargs.*1).
  - apply expects_nothing_bind.
    { apply expects_nothing_lift. apply set_kwargs_raises. }
    intros fields. apply expects_nothing_bind; [intros w e; discriminate|].
    intros _. apply expects_nothing_ret.
  - apply expects_nothing_raise. reflexivity.
Qed.

Lemma reads_heap_bind {A B} (m : M (World DB) A) (k : A -> M (World DB) B) :
  reads_heap m -> (forall a, reads_heap (DB := DB) (k a)) ->
  reads_heap (DB := DB) (m ≫= k).
Proof.
  intros Hm Hk w. unfold mbind, M_bind, bind.
  specialize (Hm w). destruct (m w) as [w' [e|a]]; [exact Hm|].
  rewrite Hk. exact Hm.
Qed.

Lemma reads_heap_len self : reads_heap (DB := DB) (len env self).
Proof.
  unfold len, __len__.
  apply reads_heap_bind.
  - apply reads_heap_bind.
    { apply reads_heap_bind.
      - intros w. unfold the_relation. rewrite (bind_ok _ _ _ _ _ (get_run w)).
        destruct (heap w !! self); reflexivity.
      - intros r. destruct (list_find _ (_ho_fkeys_attr r)) as [[i [a b]]|];
          intros w; reflexivity. }
    intros _. apply reads_heap_bind; [intros w; reflexivity|]. intros w0.
    apply reads_heap_bind.
    { intros w. unfold __execute.
      destruct (cursor_execute env (db w) _) as [d1 [[| |m]|rows]];
        try reflexivity;
        destruct (cursor_execute env (ping env d1) _) as [d2 r2]; reflexivity. }
    intros rows. destruct rows as [|row rows]; [intros w; reflexivity|].
    cbn [fetchone_item]. unfold lift.
    destruct (getitem row "count"); intros w; reflexivity.
  - intros [| |b|z|s|l|l|f]; try (intros w; reflexivity).
    destruct (z <? 0); intros w; reflexivity.
Qed.

(** X13. [_ho_get] raises [ExpectedOneError] only for its receiver and only
    with the count that [len] has returned, which is then not one; the
    receiver has not been marked as a singleton by then, nor has any
    relation been written. *)
Theorem get_expects_exactly_one w self (args : list string) (rel : nat)
    (n : Z) :
  (_ho_get env self args w).2 = inl (ExpectedOneError rel n) ->
  rel = self /\ n <> 1 /\
  (len env self w).2 = inr n /\
  heap (_ho_get env self args w).1 = heap w.
Proof.
  unfold _ho_get.
  pose proof (expects_nothing_len self w) as Hlen.
  pose proof (reads_heap_len self w) as Hheap.
  destruct (len env self w) as [w1 [e|c]] eqn:E.
  { rewrite (bind_raise _ _ _ _ _ E). cbn. intros [= ->].
    specialize (Hlen _ eq_refl). discriminate. }
  rewrite (bind_ok _ _ _ _ _ E). destruct (Z.eqb_spec c 1) as [->|Hc].
  - cbn [negb]. intros H. exfalso.
    assert (Hrest : expects_nothing (DB := DB)
      (update_relation self (with_is_singleton true);;
       rows ← _ho_select env self args;
       row ← next rows;
       ret_ ← __call__ env self row;
       update_relation ret_ (with_is_singleton true);;
       ret ret_)).
    { apply expects_nothing_bind; [apply expects_nothing_update_relation|].
      intros _.
      apply expects_nothing_bind; [apply expects_nothing_select|]. intros rows.
      apply expects_nothing_bind.
      { destruct rows; [apply expects_nothing_raise; reflexivity
                       |apply expects_nothing_ret]. }
      intros row.
      apply expects_nothing_bind; [apply expects_nothing_call|]. intros ret_.
      apply expects_nothing_bind; [apply expects_nothing_update_relation|].
      intros _. apply expects_nothing_ret. }
    specialize (Hrest w1 _ H). discriminate.
  - cbn [negb]. intros [= <- <-]. cbn [fst snd] in *. auto.
Qed.

End Get.

(** **** Selection modifiers *)

Section Modifiers.
Context {DB : Type}.
Implicit Types (w : World DB) (r : Relation) (self : nat).

Lemma or_all_ext (f g : nat -> Exc + bool) (l : list nat) :
  (forall x, f x = g x) -> or_all f l = or_all g l.
Proof.
  intros H. induction l as [|x l IH]; [reflexivity|].
  cbn [or_all]. rewrite H, IH. reflexivity.
Qed.

Lemma is_set_insert (depth : nat) (h : Heap) self r (r' : Relation) (x : nat) :
  h !! self = Some r ->
  _ho_fields r' = _ho_fields r ->
  _ho_join_to r' = _ho_join_to r ->
  set_operators r' = set_operators r ->
  neg r' = neg r ->
  _ho_is_set depth (<[self := r']> h) x = _ho_is_set depth h x.
Proof.
  intros Hr Hf Hj Ho Hn. revert x.
  induction depth as [|d IH]; intros x; [reflexivity|].
  cbn [_ho_is_set]. destruct (decide (x = self)) as [->|Hx].
  - rewrite list_lookup_insert_eq by (eapply lookup_lt_Some, Hr).
    rewrite Hr, Hf, Hj, Ho, Hn.
    rewrite (or_all_ext _ _ _ IH). reflexivity.
  - rewrite list_lookup_insert_ne by congruence.
    destruct (h !! x); [|reflexivity].
    rewrite (or_all_ext _ _ _ IH). reflexivity.
Qed.

Lemma limit_run w self r (v : PyVal) :
  heap w !! self = Some r ->
  _ho_limit self v w =
    (with_params w self r
       (if truthy v then <["limit" := v]> (select_params r)
        else delete "limit" (select_params r)), inr self).
Proof.
  intros Hr. unfold _ho_limit. destruct (truthy v).
  - rewrite (bind_ok _ _ _ _ _ (update_relation_run w self r _ Hr)).
    reflexivity.
  - destruct (select_params r !! "limit") as [old|] eqn:Hold.
    + erewrite bind_ok; cycle 1.
      { rewrite (bind_ok _ _ _ _ _ (the_relation_run w self r Hr)).
        rewrite Hold. rewrite bool_decide_eq_true_2 by eauto.
        apply update_relation_run. exact Hr. }
      reflexivity.
    + erewrite bind_ok; cycle 1.
      { rewrite (bind_ok _ _ _ _ _ (the_relation_run w self r Hr)).
        rewrite Hold. rewrite bool_decide_eq_false_2 by (intros [? [=]]).
        apply ret_run. }
      unfold with_params. rewrite delete_id by exact Hold.
      rewrite with_select_params_same.
      rewrite list_insert_id by exact Hr. destruct w; reflexivity.
Qed.

Lemma offset_run w self r (v : PyVal) :
  heap w !! self = Some r ->
  _ho_offset self v w =
    (with_params w self r (<["offset" := v]> (select_params r)), inr self).
Proof.
  intros Hr. unfold _ho_offset.
  rewrite (bind_ok _ _ _ _ _ (update_relation_run w self r _ Hr)). reflexivity.
Qed.

Lemma order_by_run w self r (v : PyVal) :
  heap w !! self = Some r ->
  _ho_order_by self v w =
    (with_params w self r (<["order_by" := v]> (select_params r)), inr self).
Proof.
  intros Hr. unfold _ho_order_by.
  rewrite (bind_ok _ _ _ _ _ (update_relation_run w self r _ Hr)). reflexivity.
Qed.

Lemma distinct_run w self r :
  heap w !! self = Some r ->
  _ho_distinct self w =
    (with_params w self r (<["distinct" := PyStr "distinct"]> (select_params r)),
     inr self).
Proof.
  intros Hr. unfold _ho_distinct.
  rewrite (bind_ok _ _ _ _ _ (update_relation_run w self r _ Hr)). reflexivity.
Qed.

Lemma mogrify_run w self r :
  heap w !! self = Some r ->
  _ho_mogrify self w =
    ({| heap := <[self := with_mogrify true r]> (heap w); db := db w;
        executed := executed w |}, inr self).
Proof.
  intros Hr. unfold _ho_mogrify.
  rewrite (bind_ok _ _ _ _ _ (update_relation_run w self r _ Hr)). reflexivity.
Qed.

(** X14. [_ho_distinct], [_ho_order_by], [_ho_limit], [_ho_offset] and
    [_ho_mogrify] return the receiver, send nothing to the server, and are
    no constraints: whether a relation of the heap is set, as
    [_ho_is_set] finds it, is the same before and after. *)
Theorem modifiers_are_not_constraints w self r (v : PyVal) (depth x : nat) :
  heap w !! self = Some r ->
  Forall (fun m : M (World DB) nat =>
            (m w).2 = inr self /\
            _ho_is_set depth (heap (m w).1) x = _ho_is_set depth (heap w) x /\
            db (m w).1 = db w /\ executed (m w).1 = executed w)
    [_ho_distinct self; _ho_order_by self v; _ho_limit self v;
     _ho_offset self v; _ho_mogrify self].
Proof.
  intros Hr.
  assert (Hall : forall (m : M (World DB) nat) r',
    m w = ({| heap := <[self := r']> (heap w); db := db w;
              executed := executed w |}, inr self) ->
    _ho_fields r' = _ho_fields r -> _ho_join_to r' = _ho_join_to r ->
    set_operators r' = set_operators r -> neg r' = neg r ->
    (m w).2 = inr self /\
    _ho_is_set depth (heap (m w).1) x = _ho_is_set depth (heap w) x /\
    db (m w).1 = db w /\ executed (m w).1 = executed w).
  { intros m r' -> Hf Hj Ho Hn. cbn [fst snd heap db executed].
    repeat split. apply (is_set_insert depth (heap w) self r r' x Hr Hf Hj Ho Hn). }
  repeat apply List.Forall_cons; [..|apply List.Forall_nil].
  - eapply Hall; [apply (distinct_run w self r Hr)|reflexivity..].
  - eapply Hall; [apply (order_by_run w self r v Hr)|reflexivity..].
  - eapply Hall; [apply (limit_run w self r v Hr)|reflexivity..].
  - eapply Hall; [apply (offset_run w self r v Hr)|reflexivity..].
  - eapply Hall; [apply (mogrify_run w self r Hr)|reflexivity..].
Qed.

(** X15. On a relation that had no limit, [_ho_limit(n)] followed by
    [_ho_limit(0)] leaves the world exactly as it was. *)
Theorem limit_then_no_limit w self r (n : PyVal) :
  heap w !! self = Some r ->
  truthy n = true ->
  select_params r !! "limit" = None ->
  (x ← _ho_limit self n; _ho_limit x (PyInt 0)) w = (w, inr self).
Proof.
  intros Hr Hn Hnone.
  rewrite (bind_ok _ _ _ _ _ (limit_run w self r n Hr)). rewrite Hn.
  erewrite limit_run; cycle 1.
  { unfold with_params. cbn [heap]. apply list_lookup_insert_eq.
    eapply lookup_lt_Some, Hr. }
  cbn [truthy Z.eqb negb]. unfold with_params at 1 2.
  cbn [heap db executed select_params with_select_params].
  rewrite delete_insert_eq, delete_id by exact Hnone.
  rewrite list_insert_insert_eq.
  replace (with_select_params (select_params r) _) with r
    by (destruct r; reflexivity).
  rewrite list_insert_id by exact Hr. destruct w; reflexivity.
Qed.

(** X16. [_ho_limit] and [_ho_offset] can be chained in either order: the
    world and the result are the same, whatever the two arguments are. *)
Theorem limit_offset_commute w self r (n m : PyVal) :
  heap w !! self = Some r ->
  (x ← _ho_limit self n; _ho_offset x m) w =
  (x ← _ho_offset self m; _ho_limit x n) w.
Proof.
  intros Hr.
  assert (Hlk : forall p, heap (with_params w self r p) !! self
                          = Some (with_select_params p r)).
  { intros p. unfold with_params. cbn [heap]. apply list_lookup_insert_eq.
    eapply lookup_lt_Some, Hr. }
  rewrite (bind_ok _ _ _ _ _ (limit_run w self r n Hr)).
  rewrite (bind_ok _ _ _ _ _ (offset_run w self r m Hr)).
  rewrite (offset_run _ self _ m (Hlk _)).
  rewrite (limit_run _ self _ n (Hlk _)).
  unfold with_params. cbn [heap db executed select_params with_select_params].
  rewrite !list_insert_insert_eq. f_equal. f_equal. f_equal.
  destruct (truthy n).
  - rewrite insert_insert_ne by discriminate. reflexivity.
  - rewrite delete_insert_ne by discriminate. reflexivity.
Qed.

End Modifiers.

(** **** Negation and joins that come back *)

Section Negation.
Context {DB : Type} (env : Env DB).
Implicit Types (w : World DB) (r : Relation) (self : nat).

(** X17. On a relation whose only join leads back to itself,
    [_ho_is_set] does not return: whatever the recursion limit is it raises
    [RecursionError]. [_ho_update] and [_ho_delete] then raise it too, also
    with [update_all] or [delete_all] set, since the check comes first;
    they send nothing and leave the world as it was. *)
Theorem self_joined_never_answers w self r (fk : FKey) (args : list string)
    (all_rows : bool) (kwargs : list (string * PyVal)) :
  heap w !! self = Some r ->
  _ho_join_to r = {[ fk := self ]} ->
  (forall depth, _ho_is_set depth (heap w) self = inl RecursionError) /\
  _ho_update env self args all_rows kwargs w = (w, inl RecursionError) /\
  _ho_delete env self args all_rows w = (w, inl RecursionError).
Proof.
  intros Hr Hj.
  assert (H : forall depth, _ho_is_set depth (heap w) self = inl RecursionError).
  { induction depth as [|d IH]; [reflexivity|].
    cbn [_ho_is_set]. rewrite Hr, Hj, map_to_list_singleton.
    cbn. rewrite IH. reflexivity. }
  split; [exact H|].
  assert (Hnow : is_set_now env self w = (w, inl RecursionError)).
  { unfold is_set_now. rewrite (bind_ok _ _ _ _ _ (get_run w)).
    rewrite H. reflexivity. }
  split.
  - unfold _ho_update.
    rewrite (bind_ok _ _ _ _ _ (the_relation_run w self r Hr)).
    rewrite (bind_raise _ _ _ _ _ Hnow). reflexivity.
  - unfold _ho_delete.
    rewrite (bind_ok _ _ _ _ _ (the_relation_run w self r Hr)).
    rewrite (bind_raise _ _ _ _ _ Hnow). reflexivity.
Qed.

Lemma set_op_unary_run w w' self new (me : Relation) (operator : PyVal) :
  heap w !! self = Some me ->
  __set__op__ env self operator None w = (w', inr new) ->
  new = length (heap w) /\
  exists fields fkeys_attr,
    w' = {| heap := (heap w ++
              [derived (built (class_ me) (length (heap w)) fields
                          (fkeys_metadata env (class_ me)) fkeys_attr)
                 self new me operator])%list;
            db := db w; executed := executed w |}.
Proof.
  intros Hme. unfold __set__op__.
  rewrite (bind_ok _ _ _ _ _ (the_relation_run w self me Hme)).
  destruct (__call__ env self (__to_dict_val_comp me) w)
    as [w1 [e|new0]] eqn:Einit.
  { rewrite (bind_raise _ _ _ _ _ Einit). discriminate. }
  rewrite (bind_ok _ _ _ _ _ Einit).
  unfold __call__ in Einit.
  rewrite (bind_ok _ _ _ _ _ (the_relation_run w self me Hme)) in Einit.
  apply init_inv in Einit as [-> (fields & fkeys_attr & ->)].
  set (rel0 := built (class_ me) (length (heap w)) fields
                 (fkeys_metadata env (class_ me)) fkeys_attr).
  pose proof (lookup_lt_Some _ _ _ Hme) as Hlt_self.
  erewrite bind_ok; cycle 1.
  { apply update_relation_run. cbn [heap]. apply lookup_last. }
  cbn [heap db executed]. rewrite insert_last.
  erewrite bind_ok; cycle 1.
  { instantiate (1 := tt).
    instantiate (1 :=
      {| heap := (heap w ++
           [with_set_operators
              {| left := if truthy operator then self
                         else left (set_operators rel0);
                 operator := if truthy operator then operator
                             else half_orm_relation.operator (set_operators rel0);
                 right := right (set_operators rel0) |}
              (with_id_cast (id_cast me) rel0)])%list;
         db := db w; executed := executed w |}).
    destruct (truthy operator).
    - erewrite update_relation_run by (cbn [heap]; apply lookup_last).
      cbn [heap db executed]. rewrite insert_last. reflexivity.
    - reflexivity. }
  erewrite bind_ok by apply ret_run.
  erewrite bind_ok; cycle 1.
  { apply the_relation_run. cbn [heap].
    rewrite lookup_app_l by exact Hlt_self. exact Hme. }
  erewrite bind_ok; cycle 1.
  { apply update_relation_run. cbn [heap]. apply lookup_last. }
  cbn [heap db executed]. rewrite insert_last.
  intros [= <- <-]. split; [reflexivity|]. exists fields, fkeys_attr.
  f_equal. f_equal. f_equal. unfold derived.
  cbn [_ho_join_to with_join_to with_set_operators with_id_cast rel0 built].
  rewrite (right_id_L ∅ (∪)). reflexivity.
Qed.

Lemma set_op_binary_run w w' (self rt new : nat) (me other : Relation)
    (operator : PyVal) :
  heap w !! self = Some me ->
  heap w !! rt = Some other ->
  __set__op__ env self operator (Some rt) w = (w', inr new) ->
  new = length (heap w) /\
  exists fields fkeys_attr,
    w' = {| heap :=
              (<[self := with_join_to (_ho_join_to other ∪ _ho_join_to me) me]>
                 (heap w)
               ++ [combined (built (class_ me) (length (heap w)) fields
                               (fkeys_metadata env (class_ me)) fkeys_attr)
                     self new me other operator rt])%list;
            db := db w; executed := executed w |}.
Proof.
  intros Hme Hother. unfold __set__op__.
  rewrite (bind_ok _ _ _ _ _ (the_relation_run w self me Hme)).
  destruct (__call__ env self (__to_dict_val_comp me) w)
    as [w1 [e|new0]] eqn:Einit.
  { rewrite (bind_raise _ _ _ _ _ Einit). discriminate. }
  rewrite (bind_ok _ _ _ _ _ Einit).
  unfold __call__ in Einit.
  rewrite (bind_ok _ _ _ _ _ (the_relation_run w self me Hme)) in Einit.
  apply init_inv in Einit as [-> (fields & fkeys_attr & ->)].
  set (rel0 := built (class_ me) (length (heap w)) fields
                 (fkeys_metadata env (class_ me)) fkeys_attr).
  pose proof (lookup_lt_Some _ _ _ Hme) as Hlt_self.
  pose proof (lookup_lt_Some _ _ _ Hother) as Hlt_rt.
  erewrite bind_ok; cycle 1.
  { apply update_relation_run. cbn [heap]. apply lookup_last. }
  cbn [heap db executed]. rewrite insert_last.
  erewrite bind_ok; cycle 1.
  { instantiate (1 := tt).
    instantiate (1 :=
      {| heap := (heap w ++
           [with_set_operators
              {| left := if truthy operator then self
                         else left (set_operators rel0);
                 operator := if truthy operator then operator
                             else half_orm_relation.operator (set_operators rel0);
                 right := right (set_operators rel0) |}
              (with_id_cast (id_cast me) rel0)])%list;
         db := db w; executed := executed w |}).
    destruct (truthy operator).
    - erewrite update_relation_run by (cbn [heap]; apply lookup_last).
      cbn [heap db executed]. rewrite insert_last. reflexivity.
    - reflexivity. }
  erewrite bind_ok; cycle 1.
  { erewrite bind_ok; cycle 1.
    { apply update_relation_run. cbn [heap]. apply lookup_last. }
    cbn [heap db executed]. rewrite insert_last.
    erewrite bind_ok; cycle 1.
    { apply the_relation_run. cbn [heap].
      rewrite lookup_app_l by exact Hlt_rt. exact Hother. }
    apply update_relation_run. cbn [heap].
    rewrite lookup_app_l by exact Hlt_self. exact Hme. }
  cbn [heap db executed]. rewrite insert_app_l by exact Hlt_self.
  erewrite bind_ok; cycle 1.
  { apply the_relation_run. cbn [heap].
    rewrite lookup_app_l by (rewrite length_insert; exact Hlt_self).
    apply list_lookup_insert_eq. exact Hlt_self. }
  erewrite bind_ok; cycle 1.
  { apply update_relation_run. cbn [heap].
    apply list_lookup_middle. rewrite length_insert. reflexivity. }
  cbn [heap db executed].
  rewrite insert_at_length by (rewrite length_insert; reflexivity).
  intros [= <- <-]. split; [reflexivity|]. exists fields, fkeys_attr.
  f_equal. f_equal. f_equal. unfold combined.
  cbn [_ho_join_to with_join_to with_set_operators with_id_cast rel0 built
       set_operators left half_orm_relation.operator right].
  rewrite (right_id_L ∅ (∪)). reflexivity.
Qed.

Lemma neg_unary_run w w' self new (me : Relation) :
  heap w !! self = Some me ->
  right (set_operators me) = None ->
  __neg__ env self w = (w', inr new) ->
  new = length (heap w) /\
  exists fields fkeys_attr,
    w' = {| heap := (heap w ++
              [with_neg (negb (neg me))
                 (derived (built (class_ me) (length (heap w)) fields
                             (fkeys_metadata env (class_ me)) fkeys_attr)
                    self new me (operator (set_operators me)))])%list;
            db := db w; executed := executed w |}.
Proof.
  intros Hme Hright. unfold __neg__.
  rewrite (bind_ok _ _ _ _ _ (the_relation_run w self me Hme)). rewrite Hright.
  destruct (__set__op__ env self (operator (set_operators me)) None w)
    as [w1 [e|new0]] eqn:Eop.
  { rewrite (bind_raise _ _ _ _ _ Eop). discriminate. }
  rewrite (bind_ok _ _ _ _ _ Eop).
  apply (set_op_unary_run w w1 self new0 me _ Hme) in Eop
    as [-> (fields & fkeys_attr & ->)].
  pose proof (lookup_lt_Some _ _ _ Hme) as Hlt_self.
  erewrite bind_ok; cycle 1.
  { apply the_relation_run. cbn [heap].
    rewrite lookup_app_l by exact Hlt_self. exact Hme. }
  erewrite bind_ok; cycle 1.
  { apply update_relation_run. cbn [heap]. apply lookup_last. }
  cbn [heap db executed]. rewrite insert_last.
  intros [= <- <-]. split; [reflexivity|]. exists fields, fkeys_attr.
  reflexivity.
Qed.

(** X18. The negation of a relation that has no right operand appends one
    relation to the heap and writes nothing else: the receiver is left as
    it was. The new relation has the class and the cast identity of the
    receiver, the opposite negation flag, and the joins of the receiver
    with itself in the place of the receiver. When the receiver is not
    negated and joined to nothing, the new relation counts as set, even if
    the receiver has no constraint at all. *)
Theorem neg_leaves_receiver w w' self new (me : Relation) :
  heap w !! self = Some me ->
  right (set_operators me) = None ->
  __neg__ env self w = (w', inr new) ->
  new = length (heap w) /\
  exists rnew,
    w' = {| heap := (heap w ++ [rnew])%list; db := db w;
            executed := executed w |} /\
    class_ rnew = class_ me /\
    neg rnew = negb (neg me) /\
    id_cast rnew = id_cast me /\
    right (set_operators rnew) = None /\
    _ho_join_to rnew =
      (fun rel => if Nat.eqb rel self then new else rel) <$> _ho_join_to me /\
    (neg me = false -> _ho_join_to me = ∅ ->
     forall depth, _ho_is_set (S depth) (heap w') new = inr true).
Proof.
  intros Hme Hright Hrun.
  destruct (neg_unary_run w w' self new me Hme Hright Hrun)
    as [-> (fields & fkeys_attr & ->)].
  split; [reflexivity|].
  eexists. split; [reflexivity|]. repeat split.
  intros Hneg Hjoin depth. cbn [_ho_is_set heap].
  rewrite lookup_last. unfold derived.
  cbn [_ho_join_to with_neg with_join_to neg]. rewrite Hjoin, fmap_empty.
  rewrite map_to_list_empty. cbn [fmap list_fmap or_all]. rewrite Hneg.
  cbn [negb orb]. rewrite orb_true_r. reflexivity.
Qed.

(** X19. Negating twice appends two relations and leaves the receiver as
    it was; the second one has the negation flag, the class and the cast
    identity of the receiver again, and the first one the opposite flag. *)
Theorem double_negation w w' self new (me : Relation) :
  heap w !! self = Some me ->
  right (set_operators me) = None ->
  (n ← __neg__ env self; __neg__ env n) w = (w', inr new) ->
  new = S (length (heap w)) /\
  heap w' !! self = Some me /\
  exists r1 r2,
    w' = {| heap := (heap w ++ [r1; r2])%list; db := db w;
            executed := executed w |} /\
    neg r1 = negb (neg me) /\
    neg r2 = neg me /\ class_ r2 = class_ me /\ id_cast r2 = id_cast me.
Proof.
  intros Hme Hright Hrun.
  destruct (__neg__ env self w) as [w1 [e|n]] eqn:E1.
  { rewrite (bind_raise _ _ _ _ _ E1) in Hrun. discriminate. }
  rewrite (bind_ok _ _ _ _ _ E1) in Hrun.
  destruct (neg_unary_run w w1 self n me Hme Hright E1)
    as [-> (fields & fkeys_attr & ->)].
  eapply neg_unary_run in Hrun as [-> (fields2 & fkeys_attr2 & ->)];
    [|cbn [heap]; apply lookup_last|reflexivity].
  cbn [heap db executed]. rewrite length_app, Nat.add_1_r.
  split; [reflexivity|]. split.
  { rewrite <- app_assoc. rewrite lookup_app_l by (eapply lookup_lt_Some, Hme).
    exact Hme. }
  do 2 eexists. split; [rewrite <- app_assoc; reflexivity|].
  cbn [neg with_neg derived with_join_to with_set_operators with_id_cast
       class_ id_cast built].
  rewrite negb_involutive. repeat split.
Qed.

End Negation.

(** **** Combinations and the safety barrier *)

Section Combination.
Context {DB : Type} (env : Env DB).
Implicit Types (w : World DB) (r : Relation) (self : nat).






End Combination.

(** **** The removal of duplicate joins *)

Lemma count_app elt (l1 l2 : list string) :
  count elt (l1 ++ l2)%list = (count elt l1 + count elt l2)%nat.
Proof. unfold count. rewrite filter_app, length_app. reflexivity. Qed.

Lemma count_cons elt x (l : list string) :
  count elt (x :: l) = ((if decide (x = elt) then 1 else 0) + count elt l)%nat.
Proof.
  unfold count. rewrite filter_cons. destruct (decide (x = elt)); reflexivity.
Qed.

Lemma count_pos elt (l : list string) : (0 < count elt l)%nat <-> elt ∈ l.
Proof.
  induction l as [|x l IH].
  - split; [cbn; lia|intros H; inversion H].
  - rewrite count_cons, elem_of_cons. destruct (decide (x = elt)) as [->|Hx].
    + split; [auto|lia].
    + rewrite Nat.add_0_l, IH. split; [auto|]. intros [->|H]; [congruence|exact H].
Qed.

Lemma and_is_no_join : join_fragment and_fragment = false.
Proof. reflexivity. Qed.

Lemma count_kept x (pre suf : list string) :
  join_fragment x = true -> x ∈ pre -> count x (kept pre suf) = 0%nat.
Proof.
  intros Hj Hin. unfold kept.
  assert (H : forall y, y ∈ imap (fun i x0 =>
              if join_fragment x0 && bool_decide (x0 ∈ (pre ++ take i suf)%list)
              then and_fragment else x0) suf -> y <> x).
  { intros y [i [z [-> Hz]]]%elem_of_lookup_imap.
    destruct (join_fragment z) eqn:Hjz; cbn [andb].
    - destruct (bool_decide_reflect (z ∈ (pre ++ take i suf)%list)) as [Hz'|Hz'].
      + intros <-. rewrite and_is_no_join in Hj. discriminate.
      + intros ->. apply Hz'. apply elem_of_app. left. exact Hin.
    - intros ->. congruence. }
  destruct (Nat.eq_dec (count x (imap (fun i x0 =>
              if join_fragment x0 && bool_decide (x0 ∈ (pre ++ take i suf)%list)
              then and_fragment else x0) suf)) 0) as [E|E]; [exact E|].
  exfalso. assert (Hpos : (0 < count x (imap (fun i x0 =>
              if join_fragment x0 && bool_decide (x0 ∈ (pre ++ take i suf)%list)
              then and_fragment else x0) suf))%nat) by lia.
  apply count_pos in Hpos. exact (H x Hpos eq_refl).
Qed.

Lemma foldr_remove (pre suf : list string) :
  foldr (fun item acc => remove_duplicate acc item) (pre ++ suf)%list
    (imap (fun i x => ((length pre + i)%nat, x)) suf)
  = (pre ++ kept pre suf)%list.
Proof.
  revert pre. induction suf as [|x suf IH]; intros pre; [reflexivity|].
  rewrite imap_cons. cbn [foldr].
  replace (imap ((fun i x0 => ((length pre + i)%nat, x0)) ∘ S) suf)
    with (imap (fun i x0 => ((length (pre ++ [x]) + i)%nat, x0)) suf); cycle 1.
  { apply imap_ext. intros i y _. cbn. rewrite length_app. cbn. f_equal. lia. }
  replace (pre ++ x :: suf)%list with ((pre ++ [x]) ++ suf)%list
    by (rewrite <- app_assoc; reflexivity).
  rewrite IH. rewrite <- app_assoc. cbn [app].
  unfold kept at 2. rewrite imap_cons. cbn [take].
  rewrite (right_id_L [] app).
  replace (imap ((fun i x0 => if join_fragment x0 &&
                   bool_decide (x0 ∈ (pre ++ take i (x :: suf))%list)
                 then and_fragment else x0) ∘ S) suf)
    with (kept (pre ++ [x]) suf); cycle 1.
  { apply imap_ext. intros i y _. cbn. rewrite <- app_assoc. reflexivity. }
  unfold remove_duplicate. rewrite Nat.add_0_r.
  destruct (join_fragment x) eqn:Hj; cbn [andb]; [|reflexivity].
  rewrite count_app, count_cons, decide_True by reflexivity.
  rewrite count_kept by (try exact Hj; apply elem_of_app; right; constructor).
  destruct (bool_decide_reflect (x ∈ pre)) as [Hin|Hin].
  - apply count_pos in Hin.
    replace (1 <? count x pre + (1 + 0))%nat with true
      by (symmetry; apply Nat.ltb_lt; lia).
    rewrite insert_app_r_alt by lia. rewrite Nat.sub_diag. reflexivity.
  - replace (1 <? count x pre + (1 + 0))%nat with false; [reflexivity|].
    symmetry. apply Nat.ltb_ge.
    destruct (Nat.eq_dec (count x pre) 0) as [E|E]; [lia|].
    exfalso. apply Hin, count_pos. lia.
Qed.

(** X21. The loop of [__get_query] that removes duplicates keeps the length
    of the list and replaces an element exactly when it opens a join and
    occurs earlier in the list: the first occurrence of a join stays, each
    later one becomes the [and] fragment, and what opens no join stays. *)
Theorem remove_duplicates_keeps_first (sql_query : list string) (i : nat)
    (elt : string) :
  sql_query !! i = Some elt ->
  remove_duplicates sql_query !! i =
    Some (if join_fragment elt && bool_decide (elt ∈ take i sql_query)
          then and_fragment else elt) /\
  length (remove_duplicates sql_query) = length sql_query.
Proof.
  intros Hi. unfold remove_duplicates.
  rewrite <- fold_left_rev_right, rev_involutive.
  pose proof (foldr_remove [] sql_query) as H. cbn [app length] in H.
  rewrite (imap_ext _ pair) in H by (intros; reflexivity).
  rewrite H. unfold kept. split.
  - rewrite list_lookup_imap, Hi. reflexivity.
  - apply length_imap.
Qed.

Lemma remove_duplicates_keeps_first_witness :
  remove_duplicates halftest.from_with_duplicate !! 3%nat = Some and_fragment /\
  remove_duplicates halftest.from_with_duplicate !! 1%nat =
    halftest.from_with_duplicate !! 1%nat.
Proof.
  split.
  - apply (remove_duplicates_keeps_first halftest.from_with_duplicate 3
             (relation_errors.newline +:+ "  join blog.post as r2 on") eq_refl).
  - apply (remove_duplicates_keeps_first halftest.from_with_duplicate 1
             (relation_errors.newline +:+ "  join blog.post as r2 on") eq_refl).
Defined.

(** **** The [where] clause *)

Lemma length_append (a b : string) :
  String.length (a +:+ b) = (String.length a + String.length b)%nat.
Proof.
  induction a as [|c a IH]; [reflexivity|].
  change (S (String.length (a +:+ b)) = S (String.length a + String.length b)).
  rewrite IH. reflexivity.
Qed.

Lemma append_empty_r (a : string) : a +:+ EmptyString = a.
Proof.
  induction a as [|c a IH]; [reflexivity|].
  change (String c (a +:+ EmptyString) = String c a). rewrite IH. reflexivity.
Qed.

Lemma concat_cons (x : string) (l : list string) :
  String.concat EmptyString (x :: l) = x +:+ String.concat EmptyString l.
Proof.
  destruct l as [|y l]; [symmetry; apply append_empty_r|reflexivity].
Qed.

Lemma concat_app (l1 l2 : list string) :
  String.concat EmptyString (l1 ++ l2)%list =
    String.concat EmptyString l1 +:+ String.concat EmptyString l2.
Proof.
  induction l1 as [|x l1 IH]; [reflexivity|].
  change ((x :: l1) ++ l2)%list with (x :: (l1 ++ l2))%list.
  rewrite !concat_cons, IH, append_assoc. reflexivity.
Qed.

Section Where_facts.
Context {DB : Type} (env : Env DB).
Variable _where_repr : Field.t -> string -> nat -> string.
Variable str_other : PyVal -> string.

Lemma where_repr_length (query_type : string) (r : Relation) (rel_id_ : nat) :
  (3 <= String.length (__where_repr _where_repr query_type r rel_id_))%nat.
Proof.
  unfold __where_repr.
  set (m := match String.concat " and " _ with
            | EmptyString => "1 = 1"
            | joined => joined
            end).
  assert (H : (1 <= String.length m)%nat)
    by (subst m; destruct (String.concat " and " _); cbn; lia).
  destruct (neg r); rewrite !length_append; cbn; lia.
Qed.

Lemma walk_length (depth : nat) (h : Heap) (query_type : string)
    (self rel_id_ : nat) (out : list string) (fields : list Field.t) :
  __walk_op _where_repr str_other depth h query_type self rel_id_
    = inr (out, fields) ->
  (3 <= String.length (String.concat EmptyString out))%nat.
Proof.
  revert self out fields. induction depth as [|d IH]; intros self out fields;
    [discriminate|].
  cbn [__walk_op]. destruct (h !! self) as [r|]; [|discriminate].
  destruct (truthy (operator (set_operators r))).
  - destruct (__walk_op _ _ d h query_type (left (set_operators r)) rel_id_)
      as [e|[out_left fields_left]] eqn:El; [discriminate|].
    apply IH in El.
    destruct (match right (set_operators r) with
              | None => inr ([], [])
              | Some right => _
              end) as [e|[out_right fields_right]]; [discriminate|].
    intros [= <- <-].
    destruct (neg r); cbn [app];
      repeat first [rewrite concat_cons|rewrite concat_app
                   |rewrite length_append];
      cbn; lia.
  - intros [= <- <-]. cbn [String.concat]. apply where_repr_length.
Qed.

(** X22. The text [__walk_op] assembles is never [()]: [__where_args]
    never substitutes [(1 = 1)] for it, and returns the text and the fields
    of the walk as they are. *)
Theorem where_is_never_empty_parentheses (h : Heap) (query_type : string)
    (self : nat) (args : list string) (what s_where : string)
    (set_fields : list Field.t) :
  __where_args env _where_repr str_other h query_type self args
    = inr (what, s_where, set_fields) ->
  s_where <> "()" /\
  exists r out,
    h !! self = Some r /\
    __walk_op _where_repr str_other (recursion_limit env) h query_type self
      (_ho_id self r) = inr (out, set_fields) /\
    s_where = String.concat EmptyString out.
Proof.
  unfold __where_args. destruct (h !! self) as [r|]; [|discriminate].
  destruct (__walk_op _ _ _ h query_type self (_ho_id self r))
    as [e|[out fields]] eqn:E; [discriminate|].
  pose proof (walk_length _ _ _ _ _ _ _ E) as Hlen.
  destruct (String.eqb_spec (String.concat EmptyString out) "()") as [Heq|Hne].
  { rewrite Heq in Hlen. cbn in Hlen. lia. }
  intros [= <- <- <-]. split; [exact Hne|]. exists r, out. auto.
Qed.


Lemma walk_ext (depth : nat) (h h' : Heap) (query_type : string)
    (self rel_id_ : nat) (res : list string * list Field.t) :
  (forall i r, h !! i = Some r ->
     exists r', h' !! i = Some r' /\ set_operators r' = set_operators r /\
                neg r' = neg r /\ _ho_fields r' = _ho_fields r) ->
  __walk_op _where_repr str_other depth h query_type self rel_id_ = inr res ->
  __walk_op _where_repr str_other depth h' query_type self rel_id_ = inr res.
Proof.
  intros Hagree. revert self res.
  induction depth as [|d IH]; intros self res; [discriminate|].
  cbn [__walk_op]. destruct (h !! self) as [r|] eqn:Hr; [|discriminate].
  destruct (Hagree self r Hr) as (r' & -> & Ho & Hn & Hf).
  unfold __where_repr, __get_set_fields. rewrite Ho, Hn, Hf.
  destruct (truthy (operator (set_operators r))); [|auto].
  destruct (__walk_op _ _ d h query_type (left (set_operators r)) rel_id_)
    as [e|[out_left fields_left]] eqn:El; [discriminate|].
  rewrite (IH _ _ El).
  destruct (right (set_operators r)) as [rt|]; [|auto].
  destruct (__walk_op _ _ d h query_type rt rel_id_)
    as [e|[out_right fields_right]] eqn:Er; [discriminate|].
  rewrite (IH _ _ Er). auto.
Qed.

(** X23. The [where] clause of a relation built by a set operator from
    [self] and [right] is the clause of [self], the operator and the clause
    of [right] inside parentheses; the fields whose values are bound are
    those of [self] followed by those of [right]. *)
Theorem where_of_combination w w' (self rt new : nat) (me other : Relation)
    (operator : PyVal) (depth : nat) (query_type : string) (rel_id_ : nat)
    (out_left out_right : list string) (fields_left fields_right : list Field.t) :
  heap w !! self = Some me ->
  heap w !! rt = Some other ->
  truthy operator = true ->
  __set__op__ env self operator (Some rt) w = (w', inr new) ->
  __walk_op _where_repr str_other depth (heap w) query_type self rel_id_
    = inr (out_left, fields_left) ->
  __walk_op _where_repr str_other depth (heap w) query_type rt rel_id_
    = inr (out_right, fields_right) ->
  __walk_op _where_repr str_other (S depth) (heap w') query_type new rel_id_
    = inr ((["("] ++ out_left
            ++ [" " +:+ halfORM_field.str_ str_other operator
                  +:+ relation_errors.newline +:+ "    "]
            ++ out_right ++ [")"])%list,
           (fields_left ++ fields_right)%list).
Proof.
  intros Hme Hother Hop Hrun Hl Hr.
  destruct (set_op_binary_run env w w' self rt new me other operator
              Hme Hother Hrun)
    as [-> (fields & fkeys_attr & ->)].
  cbn [heap].
  assert (Hagree : forall i r,
    heap w !! i = Some r ->
    exists r', (<[self := with_join_to (_ho_join_to other ∪ _ho_join_to me) me]>
                  (heap w)
                ++ [combined (built (class_ me) (length (heap w)) fields
                                (fkeys_metadata env (class_ me)) fkeys_attr)
                      self (length (heap w)) me other operator rt])%list !! i
               = Some r' /\
               set_operators r' = set_operators r /\ neg r' = neg r /\
               _ho_fields r' = _ho_fields r).
  { intros i r Hi.
    rewrite lookup_app_l by (rewrite length_insert; eapply lookup_lt_Some, Hi).
    destruct (decide (i = self)) as [->|Hne].
    - rewrite list_lookup_insert_eq by (eapply lookup_lt_Some, Hi).
      rewrite Hme in Hi. injection Hi as <-. eexists. repeat split.
    - rewrite list_lookup_insert_ne by congruence. eauto. }
  pose proof (walk_ext _ _ _ _ _ _ _ Hagree Hl) as Hl'.
  pose proof (walk_ext _ _ _ _ _ _ _ Hagree Hr) as Hr'.
  assert (Hnew :
    (<[self := with_join_to (_ho_join_to other ∪ _ho_join_to me) me]> (heap w)
     ++ [combined (built (class_ me) (length (heap w)) fields
                     (fkeys_metadata env (class_ me)) fkeys_attr)
           self (length (heap w)) me other operator rt])%list
      !! length (heap w)
    = Some (combined (built (class_ me) (length (heap w)) fields
                        (fkeys_metadata env (class_ me)) fkeys_attr)
              self (length (heap w)) me other operator rt))
    by (apply list_lookup_middle; rewrite length_insert; reflexivity).
  set (h' := (_ ++ [_])%list) in *.
  cbn [__walk_op]. rewrite Hnew. unfold combined. rewrite Hop.
  cbn [set_operators with_join_to with_set_operators left
       half_orm_relation.operator right neg with_id_cast built].
  rewrite Hop, Hl', Hr'. cbn [app]. rewrite ?app_nil_r. reflexivity.
Qed.

End Where_facts.


(** **** The properties above, on the test database *)

Lemma init_wrong_fkey_witness :
  __init__ (halftest.person_env_with_Fkeys
              [(EmptyString, "gone"); ("_post", halftest.post_fkey);
               ("_author", "author")])
    "actor.person" [("last_name", PyStr "ab")]
    (halftest.empty_world halftest.two_persons) =
  (halftest.empty_world halftest.two_persons, inl (WrongFkeyError "author")).
Proof.
  apply (init_wrong_fkey _ _ "actor.person" _
           [(EmptyString, "gone"); ("_post", halftest.post_fkey);
            ("_author", "author")] 2 "_author" "author");
    vm_compute; reflexivity.
Defined.

Lemma init_unknown_attribute_witness :
  __init__ (halftest.person_env []) "actor.person"
    [("lost_name", PyStr "Lagaffe"); ("first_name", PyStr "Gaston");
     ("nickname", PyNone)] halftest.all_persons =
  (halftest.all_persons,
   inl (UnknownAttributeError ["lost_name"; "nickname"])).
Proof.
  apply (init_unknown_attribute (halftest.person_env []) halftest.all_persons
           "actor.person"
           [("lost_name", PyStr "Lagaffe"); ("first_name", PyStr "Gaston");
            ("nickname", PyNone)]
           ["_comment"; "_event"; "_post"] "lost_name" ["nickname"]);
    vm_compute; reflexivity.
Defined.

Lemma init_ignores_None_witness :
  __init__ (halftest.person_env []) "actor.person"
    [("first_name", PyNone); ("last_name", PyStr "ab")]
    (halftest.empty_world halftest.two_persons) =
  (halftest.person_ab, inr 0%nat).
Proof.
  rewrite (init_ignores_None (halftest.person_env [])
             (halftest.empty_world halftest.two_persons) "actor.person"
             [("first_name", PyNone); ("last_name", PyStr "ab")])
    by (vm_compute; reflexivity).
  vm_compute. reflexivity.
Defined.

Lemma insert_placeholders_witness :
  exists qrn names what values returning,
    insert_query (halftest.person_env []) (heap halftest.person_ab) 0
      (halftest.relation_at halftest.person_ab 0) []
    = Insert qrn names what values returning /\
    length what = length values /\ what = ["%s"] /\ values = [PyStr "ab"].
Proof.
  do 5 eexists. split; [vm_compute; reflexivity|]. split.
  - eapply (insert_placeholders (halftest.person_env [])
              (heap halftest.person_ab) 0
              (halftest.relation_at halftest.person_ab 0) []).
    vm_compute. reflexivity.
  - split; reflexivity.
Defined.

Lemma lost_connection_is_retried_once_witness :
  (__execute (halftest.person_env_on_line false)
     (Count (heap halftest.all_persons) 0 false)
     halftest.all_persons_off_line).2 = inl (Psycopg2Error OperationalError) /\
  (__execute (halftest.person_env_on_line true)
     (Count (heap halftest.all_persons) 0 false)
     halftest.all_persons_off_line).2 = inr [[("count", PyInt 2)]].
Proof.
  destruct (lost_connection_is_retried_once (halftest.person_env_on_line false)
              halftest.all_persons_off_line
              (Count (heap halftest.all_persons) 0 false) eq_refl)
    as [_ Hlost].
  destruct (lost_connection_is_retried_once (halftest.person_env_on_line true)
              halftest.all_persons_off_line
              (Count (heap halftest.all_persons) 0 false) eq_refl)
    as [Hback _].
  rewrite (Hlost eq_refl), Hback. split; vm_compute; reflexivity.
Defined.

Lemma modifiers_are_not_constraints_witness :
  Forall (fun m : M (World halftest.DB) nat =>
            (m halftest.all_persons).2 = inr 0%nat /\
            _ho_is_set 1000 (heap (m halftest.all_persons).1) 0 =
              _ho_is_set 1000 (heap halftest.all_persons) 0 /\
            db (m halftest.all_persons).1 = db halftest.all_persons /\
            executed (m halftest.all_persons).1 = executed halftest.all_persons)
    [_ho_distinct 0; _ho_order_by 0 (PyInt 1); _ho_limit 0 (PyInt 1);
     _ho_offset 0 (PyInt 1); _ho_mogrify 0].
Proof.
  apply (modifiers_are_not_constraints halftest.all_persons 0
           (halftest.relation_at halftest.all_persons 0) (PyInt 1) 1000 0).
  reflexivity.
Defined.

Lemma limit_then_no_limit_witness :
  (x ← _ho_limit 0 (PyInt 5); _ho_limit x (PyInt 0)) halftest.person_ab =
    (halftest.person_ab, inr 0%nat).
Proof.
  apply (limit_then_no_limit halftest.person_ab 0
           (halftest.relation_at halftest.person_ab 0) (PyInt 5));
    reflexivity.
Defined.

Lemma limit_offset_commute_witness :
  (x ← _ho_limit 0 (PyInt 5); _ho_offset x (PyInt 1)) halftest.person_ab =
  (x ← _ho_offset 0 (PyInt 1); _ho_limit x (PyInt 5)) halftest.person_ab.
Proof.
  apply (limit_offset_commute halftest.person_ab 0
           (halftest.relation_at halftest.person_ab 0) (PyInt 5) (PyInt 1)).
  reflexivity.
Defined.

Lemma neg_leaves_receiver_witness :
  _ho_is_set 1000 (heap halftest.all_persons) 0 = inr false /\
  _ho_is_set 1000
    (heap (__neg__ (halftest.person_env []) 0 halftest.all_persons).1) 1
    = inr true /\
  heap (__neg__ (halftest.person_env []) 0 halftest.all_persons).1 !! 0%nat =
    heap halftest.all_persons !! 0%nat.
Proof.
  destruct (neg_leaves_receiver (halftest.person_env []) halftest.all_persons
              (__neg__ (halftest.person_env []) 0 halftest.all_persons).1 0 1
              (halftest.relation_at halftest.all_persons 0)
              eq_refl eq_refl eq_refl)
    as [_ (rnew & Hw & _ & _ & _ & _ & _ & Hset)].
  split; [vm_compute; reflexivity|]. split.
  - apply (Hset eq_refl eq_refl 999%nat).
  - rewrite Hw. reflexivity.
Defined.

Lemma double_negation_witness :
  neg <$> heap ((n ← __neg__ (halftest.person_env []) 0;
                 __neg__ (halftest.person_env []) n) halftest.all_persons).1
    !! 2%nat = Some false.
Proof.
  assert (Hrun :
    (n ← __neg__ (halftest.person_env []) 0;
     __neg__ (halftest.person_env []) n) halftest.all_persons =
    (((n ← __neg__ (halftest.person_env []) 0;
       __neg__ (halftest.person_env []) n) halftest.all_persons).1,
     inr 2%nat)) by (vm_compute; reflexivity).
  destruct (double_negation (halftest.person_env []) halftest.all_persons _
              0 2 (halftest.relation_at halftest.all_persons 0)
              eq_refl eq_refl Hrun)
    as (_ & _ & r1 & r2 & Hw & _ & Hneg & _).
  rewrite Hw. cbn [heap].
  replace ((heap halftest.all_persons ++ [r1; r2])%list !! 2%nat) with (Some r2)
    by reflexivity.
  cbn. rewrite Hneg. reflexivity.
Defined.

Lemma self_joined_never_answers_witness :
  _ho_delete (halftest.person_env []) 0 [] true halftest.self_joined =
    (halftest.self_joined, inl RecursionError).
Proof.
  apply (self_joined_never_answers (halftest.person_env [])
           halftest.self_joined 0
           (halftest.relation_at halftest.self_joined 0)
           (0%nat, halftest.comment_fkey) [] true []);
    vm_compute; reflexivity.
Defined.

Lemma where_is_never_empty_parentheses_witness :
  exists what fields,
    __where_args (halftest.person_env []) halftest.column_equals
      (fun _ => EmptyString) (heap halftest.all_persons) "select" 0 []
    = inr (what, "(1 = 1)", fields) /\
    "(1 = 1)" <> "()".
Proof.
  do 2 eexists. split; [vm_compute; reflexivity|].
  eapply (where_is_never_empty_parentheses (halftest.person_env [])
            halftest.column_equals (fun _ => EmptyString)
            (heap halftest.all_persons) "select" 0 []).
  vm_compute. reflexivity.
Defined.

Lemma where_of_combination_witness :
  match
    __walk_op halftest.column_equals (fun _ => EmptyString) 2
      (heap (__and__ (halftest.person_env []) 0 1 halftest.two_constraints).1)
      "select" 2 0
  with
  | inr (out, fields) =>
      String.concat EmptyString out =
        "((r0.last_name = %s) and" +:+ relation_errors.newline
          +:+ "    (r0.first_name = %s))" /\
      Field.name <$> fields = ["last_name"; "first_name"]
  | inl _ => False
  end.
Proof.
  erewrite (where_of_combination (halftest.person_env [])
              halftest.column_equals (fun _ => EmptyString)
              halftest.two_constraints _ 0 1 2 _ _ (PyStr "and") 1 "select" 0);
    [|vm_compute; reflexivity..].
  vm_compute. split; reflexivity.
Defined.

Lemma get_expects_exactly_one_witness :
  (len (halftest.person_env []) 0 halftest.all_persons).2 = inr 2 /\
  heap (_ho_get (halftest.person_env []) 0 [] halftest.all_persons).1 =
    heap halftest.all_persons.
Proof.
  destruct (get_expects_exactly_one (halftest.person_env [])
              halftest.all_persons 0 [] 0 2) as (_ & _ & Hlen & Hheap).
  - vm_compute. reflexivity.
  - split; assumption.
Defined.


End half_orm_relation_laws.
